(** * Display surfaces, the interface controller and the cache of nyx

    A shallow embedding of [src/interface/util.py] (the [Panel] wrapper
    around a curses subwindow) and of [src/nyx/__init__.py] (the [Cache],
    the [CacheWriter] and the [Interface] controller), together with the
    properties of the specification that concern them.

    Python integers are unbounded, so they are [Z].  Strings are [string].
    A method that mutates [self] becomes a function returning the new
    object; a method that may raise returns a [result]. *)

From Stdlib Require Import ZArith Lia Bool Ascii String DecimalString.
From stdpp Require Import base option list strings gmap.

Local Open Scope Z_scope.

(** ** Python strings *)

Module PyStr.

Definition len (s : string) : Z := Z.of_nat (String.length s).

Fixpoint take (n : nat) (s : string) : string :=
  match n, s with
  | S n', String c s' => String c (take n' s')
  | _, _ => EmptyString
  end.

Fixpoint drop (n : nat) (s : string) : string :=
  match n, s with
  | S n', String _ s' => drop n' s'
  | _, _ => s
  end.

(** [s[:n]]; a negative bound counts from the end. *)
Definition slice_to (n : Z) (s : string) : string :=
  if n <? 0 then take (Z.to_nat (len s + n)) s else take (Z.to_nat n) s.

(** [s[n:]]; a negative bound counts from the end. *)
Definition slice_from (n : Z) (s : string) : string :=
  if n <? 0 then drop (Z.to_nat (len s + n)) s else drop (Z.to_nat n) s.

(** [s.startswith(p)] *)
Definition startswith (p s : string) : bool := String.prefix p s.

(** Position of the first occurrence of [sub] in [s], if any. *)
Fixpoint find_from (sub s : string) : option nat :=
  if String.prefix sub s then Some 0%nat
  else match s with
       | EmptyString => None
       | String _ s' => S <$> find_from sub s'
       end.

(** [s.find(sub)]: the lowest index where [sub] occurs, or [-1]. *)
Definition find (sub s : string) : Z :=
  match find_from sub s with
  | Some i => Z.of_nat i
  | None => -1
  end.

(** [str(n)] and the [%i] / [%s] rendering of an integer. *)
Definition of_Z (n : Z) : string := NilZero.string_of_int (Z.to_int n).

(** Truthiness of a string: non-empty. *)
Definition truthy (s : string) : bool := negb (String.eqb s EmptyString).

End PyStr.

(** ** Exceptions and results *)

Inductive exn : Type :=
  | ValueError (msg : string)
  | KeyError (key : string)
  | IndexError
  | AttributeError (attr : string)
  | TypeError
  | CursesError
  | OSError
  | SqliteError.

Inductive result (A : Type) : Type :=
  | Ok (a : A)
  | Raise (e : exn).
Arguments Ok {A} a.
Arguments Raise {A} e.

Definition is_ok {A} (r : result A) : bool :=
  match r with Ok _ => true | Raise _ => false end.

(** ** The curses platform, as [util.py] uses it

    A subwindow is known to the panel through [getmaxyx], [getparyx],
    [erase], [refresh] and [addstr].  The model keeps what the platform
    reports and the sequence of calls the panel issued on the region; the
    panel catches no exception, so a failure of the platform itself would
    leave the method at that call. *)

Module Curses.

Definition A_NORMAL : Z := 0.
Definition A_STANDOUT : Z := 65536.
Definition A_UNDERLINE : Z := 131072.
Definition A_BOLD : Z := 2097152.

Definition COLOR_BLACK : Z := 0.
Definition COLOR_RED : Z := 1.
Definition COLOR_GREEN : Z := 2.
Definition COLOR_YELLOW : Z := 3.
Definition COLOR_BLUE : Z := 4.
Definition COLOR_MAGENTA : Z := 5.
Definition COLOR_CYAN : Z := 6.
Definition COLOR_WHITE : Z := 7.

(** [curses.color_pair(n)] *)
Definition color_pair (n : Z) : Z := Z.shiftl n 8.

Inductive wcall : Type :=
  | WErase
  | WRefresh
  | WAddstr (y x : Z) (s : string) (attr : Z).

Record window : Type := mkWindow {
  win_maxyx : Z * Z;          (* what getmaxyx() reports *)
  win_paryx : Z * Z;          (* what getparyx() reports *)
  win_calls : list wcall      (* calls issued on the region, oldest first *)
}.

Definition getmaxyx (w : window) : Z * Z := win_maxyx w.
Definition getparyx (w : window) : Z * Z := win_paryx w.

Definition call (c : wcall) (w : window) : window :=
  mkWindow (win_maxyx w) (win_paryx w) (win_calls w ++ [c]).

Definition erase (w : window) : window := call WErase w.
Definition refresh (w : window) : window := call WRefresh w.
Definition addstr (y x : Z) (s : string) (attr : Z) (w : window) : window :=
  call (WAddstr y x s attr) w.

(** The parent screen: its size and its [subwin(nlines, ncols, y, x)],
    which yields a fresh region or raises [curses.error]. *)
Record screen : Type := mkScreen {
  scr_maxyx : Z * Z;
  subwin : Z -> Z -> Z -> Z -> result window
}.

(** A screen of [rows] by [cols] cells whose [subwin] always succeeds,
    with zero sizes extending to the edge of the screen. *)
Definition plain_screen (rows cols : Z) : screen :=
  mkScreen (rows, cols)
    (fun nlines ncols y x =>
       Ok (mkWindow (if nlines =? 0 then rows - y else nlines,
                     if ncols =? 0 then cols - x else ncols)
                    (y, x) [])).

End Curses.

(** ** [src/interface/util.py] *)

Module Util.
Import Curses.

Definition LABEL_ATTR : Z := A_STANDOUT.

Definition COLOR_LIST : list (string * Z) :=
  [("red", COLOR_RED); ("green", COLOR_GREEN); ("yellow", COLOR_YELLOW);
   ("blue", COLOR_BLUE); ("cyan", COLOR_CYAN); ("magenta", COLOR_MAGENTA);
   ("black", COLOR_BLACK); ("white", COLOR_WHITE)]%string.

(** *** Dictionaries with string keys

    A dictionary is the list of its entries, one per key.  The order in
    which Python goes through the keys is not specified; the properties of
    the scan of [addfstr] below are stated for every table, hence for
    every order. *)

Definition dict := list (string * Z).

Definition keys (d : dict) : list string := d.*1.

Fixpoint dict_get (k : string) (d : dict) : option Z :=
  match d with
  | [] => None
  | (k', v) :: d' => if String.eqb k k' then Some v else dict_get k d'
  end.

Fixpoint dict_set (k : string) (v : Z) (d : dict) : dict :=
  match d with
  | [] => [(k, v)]
  | (k', v') :: d' =>
      if String.eqb k k' then (k', v) :: d' else (k', v') :: dict_set k v d'
  end.

Definition color_tag (colorLabel : string) : string :=
  ("<" +:+ colorLabel +:+ ">")%string.

(** [FORMAT_TAGS] as the module leaves it when it is loaded. *)
Definition FORMAT_TAGS : dict :=
  fold_left (fun d '(colorLabel, _) => dict_set (color_tag colorLabel) A_NORMAL d)
    COLOR_LIST
    [("<b>", A_BOLD); ("<u>", A_UNDERLINE); ("<h>", A_STANDOUT)]%string.

Definition COLOR_ATTR : dict := map (fun color => (color.1, 0)) COLOR_LIST.

(** The module's mutable globals. *)
Record globals : Type := mkGlobals {
  COLOR_ATTR_INITIALIZED : bool;
  g_COLOR_ATTR : dict;
  g_FORMAT_TAGS : dict
}.

Definition globals0 : globals := mkGlobals false COLOR_ATTR FORMAT_TAGS.

(** [initColors()], given what [curses.has_colors()] answers. *)
Definition initColors (has_colors : bool) (g : globals) : globals :=
  if negb (COLOR_ATTR_INITIALIZED g) then
    if has_colors then
      let '(_, color_attr) :=
        fold_left (fun '(colorpair, ca) '(name, _) =>
                     let colorpair := colorpair + 1 in
                     (colorpair, dict_set name (color_pair colorpair) ca))
                  COLOR_LIST (0, g_COLOR_ATTR g) in
      let format_tags :=
        fold_left (fun ft colorLabel =>
                     match dict_get colorLabel color_attr with
                     | Some a => dict_set (color_tag colorLabel) a ft
                     | None => ft
                     end)
                  (keys color_attr) (g_FORMAT_TAGS g) in
      mkGlobals true color_attr format_tags
    else mkGlobals true (g_COLOR_ATTR g) (g_FORMAT_TAGS g)
  else g.

Definition getColor (g : globals) (color : string) : result Z :=
  match dict_get color (g_COLOR_ATTR g) with
  | Some a => Ok a
  | None => Raise (KeyError color)
  end.

(** *** The panel *)

Record Panel : Type := mkPanel {
  win : option window;   (* associated curses subwindow *)
  startY : Z;            (* top in parent window when created *)
  height : Z;            (* preferred (max) height of panel, -1 if infinite *)
  isDisplaced : bool;    (* window isn't in the right location *)
  maxY : Z;
  maxX : Z
}.

Definition set_win (w : option window) (p : Panel) : Panel :=
  mkPanel w (startY p) (height p) (isDisplaced p) (maxY p) (maxX p).
Definition set_startY (v : Z) (p : Panel) : Panel :=
  mkPanel (win p) v (height p) (isDisplaced p) (maxY p) (maxX p).
Definition set_isDisplaced (b : bool) (p : Panel) : Panel :=
  mkPanel (win p) (startY p) (height p) b (maxY p) (maxX p).
Definition set_bounds (yx : Z * Z) (p : Panel) : Panel :=
  mkPanel (win p) (startY p) (height p) (isDisplaced p) yx.1 yx.2.

Definition _resetBounds (self : Panel) : Panel :=
  match win self with
  | Some w => set_bounds (getmaxyx w) self
  | None => set_bounds (-1, -1) self
  end.

(** [Panel.__init__(lock, height)]; the lock is only stored. *)
Definition Panel_init (height : Z) : Panel :=
  _resetBounds (mkPanel None (-1) height false (-1) (-1)).

(** [Panel.recreate(stdscr, startY, maxX)]: the panel after the call and
    what the call returned or raised. *)
Definition recreate (stdscr : screen) (startY0 : Z) (maxX0 : Z) (self : Panel)
  : Panel * result bool :=
  let '(y, x) := scr_maxyx stdscr in
  let self := _resetBounds self in
  if bool_decide (is_Some (win self)) && (startY0 >? y) then (self, Ok false)
  else
    let newHeight := Z.max 0 (y - startY0) in
    let newHeight :=
      if negb (height self =? -1) then Z.min newHeight (height self) else newHeight in
    if negb (startY self =? startY0) || (newHeight >? maxY self) || isDisplaced self
       || (negb (maxX self =? maxX0) && negb (maxX0 =? -1))
    then
      let self := set_startY startY0 self in
      let startY1 := Z.min startY0 (y - 1) in
      let x := if negb (maxX0 =? -1) then Z.min x maxX0 else x in
      match subwin stdscr newHeight x startY1 0 with
      | Ok w => (set_win (Some w) self, Ok true)
      | Raise e => (self, Raise e)
      end
    else (self, Ok false).

Definition clear (self : Panel) : Panel :=
  match win self with
  | Some w =>
      let self := set_isDisplaced (startY self >? (getparyx w).1) self in
      let self :=
        if negb (isDisplaced self) then set_win (Some (erase w)) self else self in
      _resetBounds self
  | None => self
  end.

Definition refresh (self : Panel) : Panel :=
  match win self with
  | Some w =>
      if negb (isDisplaced self) then set_win (Some (Curses.refresh w)) self else self
  | None => self
  end.

(** [Panel.addstr(y, x, msg, attr)] *)
Definition addstr (y x : Z) (msg : string) (attr : Z) (self : Panel) : Panel :=
  match win self with
  | Some w =>
      if (maxX self >? x) && (maxY self >? y) && negb (isDisplaced self)
      then set_win (Some (Curses.addstr y x (PyStr.slice_to (maxX self - x - 1) msg) attr w)) self
      else self
  | None => self
  end.

(** *** [Panel.addfstr]: writing markup *)

Definition maxint : Z := 9223372036854775807.

(** [list.remove(x)]: drops the first element equal to [x]; [None] stands
    for the [ValueError] raised when there is none. *)
Fixpoint list_remove {A} `{EqDecision A} (x : A) (l : list A) : option (list A) :=
  match l with
  | [] => None
  | y :: l' => if decide (x = y) then Some l' else (y ::.) <$> list_remove x l'
  end.

(** One turn of [for tag in ...] over the pair [(nextTag, nextTagIndex)]. *)
Definition scan_tag (msg : string) (acc : option string * Z) (tag : string)
  : option string * Z :=
  let tagLoc := PyStr.find tag msg in
  if negb (tagLoc =? -1) && (tagLoc <? acc.2) then (Some tag, tagLoc) else acc.

(** The whole [for] loop, started from [(None, maxint)]. *)
Definition next_tag (tags : list string) (msg : string) : option string * Z :=
  fold_left (scan_tag msg) tags (None, maxint).

(** The local variables of [addfstr] that the [while] loop changes, and
    the region it writes to. *)
Record fstate : Type := mkFstate {
  f_x : Z;
  f_msg : string;
  formatting : list Z;
  expectedCloseTags : list string;
  f_win : window
}.

Inductive step_result : Type :=
  | Next (st : fstate)
  | Raised (e : exn) (w : window).

(** [while self.maxX > x and len(msg) > 0] *)
Definition loop_cond (maxX0 : Z) (st : fstate) : bool :=
  (maxX0 >? f_x st) && (PyStr.len (f_msg st) >? 0).

(** [if nextTag:] *)
Definition tag_found (nextTag : option string) : option string :=
  match nextTag with
  | Some t => if PyStr.truthy t then Some t else None
  | None => None
  end.

(** [attr = 0; for format in formatting: attr |= format] *)
Definition union_attr (fmt : list Z) : Z := fold_left Z.lor fmt 0.

(** The body of the [while] loop. *)
Definition addfstr_body (tags : dict) (y maxX0 : Z) (st : fstate) : step_result :=
  let x := f_x st in
  let msg := f_msg st in
  let '(nextTag, nextTagIndex) := next_tag (keys tags ++ expectedCloseTags st) msg in
  let '(msgSegment, msg') :=
    match tag_found nextTag with
    | Some t => (PyStr.slice_to nextTagIndex msg,
                 PyStr.slice_from (nextTagIndex + PyStr.len t) msg)
    | None => (msg, EmptyString)
    end in
  let attr := union_attr (formatting st) in
  let w := Curses.addstr y x (PyStr.slice_to (maxX0 - x - 1) msgSegment) attr (f_win st) in
  let x' := x + PyStr.len msgSegment in
  match tag_found nextTag with
  | Some t =>
      if negb (PyStr.startswith "</" t) then
        match dict_get t tags with
        | Some a =>
            Next (mkFstate x' msg' (formatting st ++ [a])
                    (expectedCloseTags st ++ [("</" +:+ PyStr.slice_from 1 t)%string]) w)
        | None => Raised (KeyError t) w
        end
      else
        match list_remove t (expectedCloseTags st) with
        | Some ect =>
            let open := ("<" +:+ PyStr.slice_from 2 t)%string in
            match dict_get open tags with
            | Some a =>
                match list_remove a (formatting st) with
                | Some fmt => Next (mkFstate x' msg' fmt ect w)
                | None => Raised (ValueError "list.remove(x): x not in list") w
                end
            | None => Raised (KeyError open) w
            end
        | None => Raised (ValueError "list.remove(x): x not in list") w
        end
  | None => Next (mkFstate x' msg' (formatting st) (expectedCloseTags st) w)
  end.

(** How the loop ended: it ran to its end, or a statement raised. *)
Inductive loop_result : Type :=
  | Done (st : fstate)
  | Failed (e : exn) (w : window).

(** The [while] loop, bounded by [fuel] turns; [None] when they run out. *)
Fixpoint addfstr_loop (fuel : nat) (tags : dict) (y maxX0 : Z) (st : fstate)
  : option loop_result :=
  if loop_cond maxX0 st then
    match fuel with
    | O => None
    | S fuel' =>
        match addfstr_body tags y maxX0 st with
        | Next st' => addfstr_loop fuel' tags y maxX0 st'
        | Raised e w => Some (Failed e w)
        end
    end
  else Some (Done st).

Definition loop_window (r : loop_result) : window :=
  match r with Done st => f_win st | Failed _ w => w end.

Definition loop_exn (r : loop_result) : result unit :=
  match r with Done _ => Ok () | Failed e _ => Raise e end.

(** [Panel.addfstr(y, x, msg)] with [FORMAT_TAGS] as it is at the call.
    The loop is given one turn per character of [msg] and one more. *)
Definition addfstr (tags : dict) (y x : Z) (msg : string) (self : Panel)
  : option (Panel * result unit) :=
  match win self with
  | Some w =>
      if (maxY self >? y) && negb (isDisplaced self) then
        r ← addfstr_loop (S (String.length msg)) tags y (maxX self)
               (mkFstate x msg [A_NORMAL] [] w);
        Some (set_win (Some (loop_window r)) self, loop_exn r)
      else Some (self, Ok ())
  | None => Some (self, Ok ())
  end.

End Util.

(** ** [src/nyx/__init__.py]: the cache *)

Module Cache.

Definition SCHEMA_VERSION : Z := 1.

(** A value read back from the store. *)
Inductive pyval : Type :=
  | PyNone
  | PyInt (n : Z)
  | PyText (s : string).

(** A row of [relays(fingerprint TEXT PRIMARY KEY, address TEXT,
    or_port NUMBER, nickname TEXT)]. *)
Record relay_row : Type := mkRow {
  r_fingerprint : string;
  r_address : string;
  r_or_port : Z;
  r_nickname : string
}.

(** What a database file holds: it is not a database at all, or it has
    some of the two tables ([None]: the table does not exist). *)
Inductive database : Type :=
  | Unreadable
  | Tables (schema : option (list pyval)) (relays : option (list relay_row)).

Definition empty_db : database := Tables None None.

(** The statements of [SCHEMA] and the two statements on [relays]. *)
Inductive statement : Type :=
  | CreateSchemaTable
  | InsertSchemaVersion (v : Z)
  | CreateRelaysTable
  | InsertOrReplaceRelay (row : relay_row).

Definition SCHEMA : list statement :=
  [CreateSchemaTable; InsertSchemaVersion SCHEMA_VERSION; CreateRelaysTable].

(** [INSERT OR REPLACE]: the rows in conflict on the primary key go, the
    new row is added. *)
Definition insert_or_replace (row : relay_row) (rows : list relay_row)
  : list relay_row :=
  filter (fun r => r_fingerprint r ≠ r_fingerprint row) rows ++ [row].

(** [conn.execute(statement)] *)
Definition execute (s : statement) (db : database) : result database :=
  match db with
  | Unreadable => Raise SqliteError
  | Tables schema relays =>
      match s with
      | CreateSchemaTable =>
          match schema with
          | None => Ok (Tables (Some []) relays)
          | Some _ => Raise SqliteError
          end
      | InsertSchemaVersion v =>
          match schema with
          | Some rows => Ok (Tables (Some (rows ++ [PyInt v])) relays)
          | None => Raise SqliteError
          end
      | CreateRelaysTable =>
          match relays with
          | None => Ok (Tables schema (Some []))
          | Some _ => Raise SqliteError
          end
      | InsertOrReplaceRelay row =>
          match relays with
          | Some rows => Ok (Tables schema (Some (insert_or_replace row rows)))
          | None => Raise SqliteError
          end
      end
  end.

(** [for cmd in SCHEMA: conn.execute(cmd)] *)
Fixpoint execute_all (cmds : list statement) (db : database) : result database :=
  match cmds with
  | [] => Ok db
  | cmd :: cmds' =>
      match execute cmd db with
      | Ok db' => execute_all cmds' db'
      | Raise e => Raise e
      end
  end.

(** [conn.execute('SELECT version FROM schema').fetchone()[0]] *)
Definition select_version (db : database) : result pyval :=
  match db with
  | Unreadable => Raise SqliteError
  | Tables None _ => Raise SqliteError
  | Tables (Some []) _ => Raise TypeError
  | Tables (Some (v :: _)) _ => Ok v
  end.

(** [conn.execute('SELECT ... FROM relays WHERE fingerprint=?').fetchone()] *)
Definition select_relay (fingerprint : string) (db : database)
  : result (option relay_row) :=
  match db with
  | Unreadable => Raise SqliteError
  | Tables _ None => Raise SqliteError
  | Tables _ (Some rows) =>
      Ok (head (filter (fun r => r_fingerprint r = fingerprint) rows))
  end.

(** Where the connection leads. *)
Inductive location : Type :=
  | OnDisk (path : string)
  | InMemory.

Record Cache : Type := mkCache {
  _conn_location : location;
  _conn : database
}.

(** What the platform answers during [Cache.__init__]. *)
Record env : Type := mkEnv {
  cache_path : option string;     (* nyx.data_directory('cache.sqlite') *)
  connect : result database;      (* first sqlite3.connect(cache_path) *)
  os_remove : result unit;        (* os.remove(cache_path) *)
  reconnect : result unit         (* second sqlite3.connect(cache_path) *)
}.

(** [schema == SCHEMA_VERSION] *)
Definition is_current (schema : pyval) : bool :=
  match schema with
  | PyInt n => n =? SCHEMA_VERSION
  | _ => false
  end.

(** [Cache.__init__()].  The [try] block either binds [self._conn] and
    reads the version, or leaves through the bare [except] with
    [schema = None]; when [connect] itself raised, [self._conn] was never
    bound. *)
Definition Cache_init (e : env) : result Cache :=
  match cache_path e with
  | Some path =>
      if PyStr.truthy path then
        let '(conn, schema) :=
          match connect e with
          | Ok db =>
              match select_version db with
              | Ok v => (Some db, v)
              | Raise _ => (Some db, PyNone)
              end
          | Raise _ => (None, PyNone)
          end in
        if is_current schema then
          match conn with
          | Some db => Ok (mkCache (OnDisk path) db)
          | None => Raise (AttributeError "_conn")      (* not reached *)
          end
        else
          match conn with
          | None => Raise (AttributeError "_conn")      (* self._conn.close() *)
          | Some _ =>
              match os_remove e with
              | Raise ex => Raise ex
              | Ok _ =>
                  match reconnect e with
                  | Raise ex => Raise ex
                  | Ok _ =>
                      match execute_all SCHEMA empty_db with
                      | Ok db => Ok (mkCache (OnDisk path) db)
                      | Raise ex => Raise ex
                      end
                  end
              end
          end
      else
        match execute_all SCHEMA empty_db with
        | Ok db => Ok (mkCache InMemory db)
        | Raise ex => Raise ex
        end
  | None =>
      match execute_all SCHEMA empty_db with
      | Ok db => Ok (mkCache InMemory db)
      | Raise ex => Raise ex
      end
  end.

(** [Cache._query] for the statement of [record_relay]: the cache after
    the call, and whether the statement raised. *)
Definition _query_insert (row : relay_row) (self : Cache) : Cache * result unit :=
  match execute (InsertOrReplaceRelay row) (_conn self) with
  | Ok db => (mkCache (_conn_location self) db, Ok ())
  | Raise e => (self, Raise e)
  end.

(** [Cache.relay_nickname(fingerprint, default)] *)
Definition relay_nickname (fingerprint : string) (default : option string)
  (self : Cache) : result (option string) :=
  match select_relay fingerprint (_conn self) with
  | Ok (Some row) => Ok (Some (r_nickname row))
  | Ok None => Ok default
  | Raise e => Raise e
  end.

(** [Cache.relay_address(fingerprint, default)] *)
Definition relay_address (fingerprint : string) (default : option (string * Z))
  (self : Cache) : result (option (string * Z)) :=
  match select_relay fingerprint (_conn self) with
  | Ok (Some row) => Ok (Some (r_address row, r_or_port row))
  | Ok None => Ok default
  | Raise e => Raise e
  end.

(** The validators of [stem.util], which [record_relay] calls. *)
Class Stem : Type := mkStem {
  is_valid_fingerprint : string -> bool;
  is_valid_nickname : string -> bool;
  is_valid_ipv4_address : string -> bool;
  is_valid_ipv6_address : string -> bool;
  is_valid_port : Z -> bool
}.

Definition quoted (s : string) : string := ("'" +:+ s +:+ "'")%string.

(** [CacheWriter.record_relay(fingerprint, address, or_port, nickname)]:
    the cache after the call, and whether the call raised. *)
Definition record_relay `{Stem} (fingerprint address : string) (or_port : Z)
  (nickname : string) (cache : Cache) : Cache * result unit :=
  if negb (is_valid_fingerprint fingerprint) then
    (cache, Raise (ValueError (quoted fingerprint +:+ " isn't a valid fingerprint")))
  else if negb (is_valid_nickname nickname) then
    (cache, Raise (ValueError (quoted nickname +:+ " isn't a valid nickname")))
  else if negb (is_valid_ipv4_address address) && negb (is_valid_ipv6_address address) then
    (cache, Raise (ValueError (quoted address +:+ " isn't a valid address")))
  else if negb (is_valid_port or_port) then
    (cache, Raise (ValueError (quoted (PyStr.of_Z or_port) +:+ " isn't a valid port")))
  else
    _query_insert (mkRow fingerprint address or_port nickname) cache.

(** The rows of [relays], none when the table is missing. *)
Definition relays_of (cache : Cache) : list relay_row :=
  match _conn cache with
  | Tables _ (Some rows) => rows
  | _ => []
  end.

(** Validators to run the cache on: forty hexadecimal digits, one to
    nineteen letters or digits, four decimal numbers below 256 split by
    dots, and ports 1 to 65535. *)
Definition is_hex (c : ascii) : bool :=
  let n := nat_of_ascii c in
  ((48 <=? n) && (n <=? 57) || (65 <=? n) && (n <=? 70) || (97 <=? n) && (n <=? 102))%nat.

Definition is_digit (c : ascii) : bool :=
  let n := nat_of_ascii c in ((48 <=? n) && (n <=? 57))%nat.

Definition is_alnum (c : ascii) : bool :=
  let n := nat_of_ascii c in
  (is_digit c || (65 <=? n) && (n <=? 90) || (97 <=? n) && (n <=? 122))%nat.

Definition all_chars (f : ascii -> bool) (s : string) : bool :=
  forallb f (list_ascii_of_string s).

(** Splits at every dot. *)
Fixpoint split_dots (s : string) : list string :=
  match s with
  | EmptyString => [EmptyString]
  | String c s' =>
      if Ascii.eqb c "."%char then EmptyString :: split_dots s'
      else match split_dots s' with
           | [] => [String c EmptyString]
           | w :: ws => String c w :: ws
           end
  end.

Definition digits_value (s : string) : nat :=
  fold_left (fun acc c => (10 * acc + (nat_of_ascii c - 48))%nat)
    (list_ascii_of_string s) 0%nat.

Definition is_octet (s : string) : bool :=
  all_chars is_digit s && (1 <=? String.length s)%nat && (String.length s <=? 3)%nat
  && (digits_value s <=? 255)%nat
  && negb ((2 <=? String.length s)%nat && PyStr.startswith "0" s).

Definition sample_stem : Stem :=
  mkStem
    (fun fp => (String.length fp =? 40)%nat && all_chars is_hex fp)
    (fun nick => (1 <=? String.length nick)%nat && (String.length nick <=? 19)%nat
                 && all_chars is_alnum nick)
    (fun addr => let parts := split_dots addr in
                 (length parts =? 4)%nat && forallb is_octet parts)
    (fun _ => false)
    (fun port => (0 <? port) && (port <? 65536)).

End Cache.

(** ** [src/nyx/__init__.py]: the interface controller *)

Module Interface.

(** The panel classes that [Interface.__init__] instantiates. *)
Inductive panel_class : Type :=
  | HeaderPanel
  | GraphPanel
  | LogPanel
  | ConnectionPanel
  | ConfigPanel
  | TorrcPanel
  | InterpreterPanel.

(** Which of them derive from [nyx.panel.DaemonPanel]. *)
Class PanelClasses : Type := mkPanelClasses {
  isinstance_DaemonPanel : panel_class -> bool
}.

(** Method calls the controller makes on a panel. *)
Inductive pcall : Type :=
  | SetVisible (is_visible : bool)
  | SetPaused (is_pause : bool)
  | Redraw
  | RedrawAt (force : bool) (top : Z)
  | Start
  | Stop
  | Join.

#[global] Instance pcall_eq_dec : EqDecision pcall.
Proof. solve_decision. Defined.

(** Modelled from the spec: [nyx.panel.Panel] and its subclasses are not
    part of the sources at hand.  A surface carries a visibility flag that
    [set_visible] sets, a paused state that [set_paused] sets, and a
    rendered height that [get_height] reports; [redraw], [start], [stop]
    and [join] leave the three alone. *)
Record panel_obj : Type := mkPanelObj {
  p_class : panel_class;
  p_visible : bool;
  p_paused : bool;
  p_height : Z
}.

(** Modelled from the spec: the effect of a method call on a surface. *)
Definition apply_call (c : pcall) (o : panel_obj) : panel_obj :=
  match c with
  | SetVisible v => mkPanelObj (p_class o) v (p_paused o) (p_height o)
  | SetPaused p => mkPanelObj (p_class o) (p_visible o) p (p_height o)
  | _ => o
  end.

(** The fields of the [Interface] object; panels are held by reference. *)
Record Interface : Type := mkInterface {
  _page : Z;
  _page_panels : list (list nat);
  _header_panel : nat;
  _paused : bool;
  _quit : bool
}.

(** Where the thread started by [halt] stands in [halt_panels]. *)
Inductive thread : Type :=
  | T_start
  | T_stop (daemons todo : list nat)
  | T_join (todo : list nat)
  | T_done.

(** The controller, the panel objects by identity, the calls made on them
    (oldest first) and the threads started by [halt]. *)
Record state : Type := mkState {
  self : Interface;
  panels : gmap nat panel_obj;
  next_id : nat;
  calls : list (nat * pcall);
  threads : list thread
}.

Definition with_self (i : Interface) (st : state) : state :=
  mkState i (panels st) (next_id st) (calls st) (threads st).

(** A state and exception monad for the methods. *)
Definition M (A : Type) : Type := state -> state * result A.

Definition ret {A} (a : A) : M A := fun st => (st, Ok a).
Definition raise {A} (e : exn) : M A := fun st => (st, Raise e).
Definition bind {A B} (m : M A) (k : A -> M B) : M B :=
  fun st =>
    match m st with
    | (st', Ok a) => k a st'
    | (st', Raise e) => (st', Raise e)
    end.

Notation "x <- c1 ;; c2" := (bind c1 (fun x => c2))
  (at level 100, c1 at next level, right associativity).
Notation "c1 ;; c2" := (bind c1 (fun _ => c2))
  (at level 100, right associativity).

(** [for x in l: body(x)] *)
Fixpoint for_each {A} (l : list A) (body : A -> M unit) : M unit :=
  match l with
  | [] => ret ()
  | x :: l' => body x ;; for_each l' body
  end.

Definition get_self : M Interface := fun st => (st, Ok (self st)).
Definition put_self (i : Interface) : M unit := fun st => (with_self i st, Ok ()).

(** [panel.method(...)]: the object changes and the call is recorded. *)
Definition call_panel (panel : nat) (c : pcall) : M unit :=
  fun st =>
    (mkState (self st) (alter (apply_call c) panel (panels st)) (next_id st)
       (calls st ++ [(panel, c)]) (threads st), Ok ()).

(** [panel.get_height()] *)
Definition get_height (panel : nat) : M Z :=
  fun st => (st, Ok (default 0 (p_height <$> panels st !! panel))).

(** [l[i]] *)
Definition py_index {A} (l : list A) (i : Z) : result A :=
  let i := if i <? 0 then i + Z.of_nat (length l) else i in
  if i <? 0 then Raise IndexError
  else match l !! Z.to_nat i with
       | Some x => Ok x
       | None => Raise IndexError
       end.

(** [Interface.__iter__]: the header, then the panels page by page. *)
Definition iter (i : Interface) : list nat :=
  _header_panel i :: concat (_page_panels i).

Definition get_page : M Z := i <- get_self ;; ret (_page i).

Definition page_count : M Z :=
  i <- get_self ;; ret (Z.of_nat (length (_page_panels i))).

Definition header_panel : M nat := i <- get_self ;; ret (_header_panel i).

Definition page_panels (page_number : option Z) : M (list nat) :=
  i <- get_self ;;
  let page_number := match page_number with None => _page i | Some n => n end in
  match py_index (_page_panels i) page_number with
  | Ok page => ret (_header_panel i :: page)
  | Raise e => raise e
  end.

Definition is_paused : M bool := i <- get_self ;; ret (_paused i).

Definition set_page (page_number : Z) : M unit :=
  count <- page_count ;;
  if (page_number <? 0) || (page_number >=? count) then
    raise (ValueError ("Invalid page number: " +:+ PyStr.of_Z page_number))
  else
    i <- get_self ;;
    if negb (page_number =? _page i) then
      put_self (mkInterface page_number (_page_panels i) (_header_panel i)
                  (_paused i) (_quit i)) ;;
      header <- header_panel ;;
      call_panel header Redraw ;;
      visible_panels <- page_panels None ;;
      i <- get_self ;;
      for_each (iter i)
        (fun panel => call_panel panel (SetVisible (bool_decide (panel ∈ visible_panels))))
    else ret ().

Definition set_paused (is_pause : bool) : M unit :=
  i <- get_self ;;
  if negb (eqb is_pause (_paused i)) then
    put_self (mkInterface (_page i) (_page_panels i) (_header_panel i)
                is_pause (_quit i)) ;;
    i <- get_self ;;
    for_each (iter i) (fun panel => call_panel panel (SetPaused is_pause)) ;;
    visible <- page_panels None ;;
    for_each visible (fun panel => call_panel panel Redraw)
  else ret ().

(** The loop of [Interface.redraw], with [occupied] threaded through. *)
Fixpoint redraw_from (occupied : Z) (l : list nat) : M unit :=
  match l with
  | [] => ret ()
  | panel :: l' =>
      call_panel panel (RedrawAt false occupied) ;;
      h <- get_height panel ;;
      redraw_from (occupied + h) l'
  end.

Definition redraw : M unit :=
  visible <- page_panels None ;;
  redraw_from 0 visible.

Definition quit : M unit :=
  i <- get_self ;;
  put_self (mkInterface (_page i) (_page_panels i) (_header_panel i) (_paused i) true).

(** [Interface.halt()]: the thread is created and started, and handed
    back; nothing of [halt_panels] has run yet. *)
Definition halt : M nat :=
  fun st =>
    (mkState (self st) (panels st) (next_id st) (calls st) (threads st ++ [T_start]),
     Ok (length (threads st))).

Definition is_daemon `{PanelClasses} (st : state) (panel : nat) : bool :=
  match panels st !! panel with
  | Some o => isinstance_DaemonPanel (p_class o)
  | None => false
  end.

(** One step of [halt_panels]: the list of daemons is taken, then one
    [stop()] per step, then one [join()] per step. *)
Definition halt_panels_step `{PanelClasses} (t : thread) : M thread :=
  match t with
  | T_start =>
      fun st =>
        let daemons := filter (fun panel => is_daemon st panel = true) (iter (self st)) in
        (st, Ok (T_stop daemons daemons))
  | T_stop daemons [] => ret (T_join daemons)
  | T_stop daemons (panel :: todo) => call_panel panel Stop ;; ret (T_stop daemons todo)
  | T_join [] => ret T_done
  | T_join (panel :: todo) => call_panel panel Join ;; ret (T_join todo)
  | T_done => ret T_done
  end.

(** The scheduler lets thread [h] take one step. *)
Definition thread_step `{PanelClasses} (h : nat) (st : state) : state :=
  match threads st !! h with
  | Some t =>
      let '(st', r) := halt_panels_step t st in
      match r with
      | Ok t' =>
          mkState (self st') (panels st') (next_id st') (calls st')
            (<[h := t']> (threads st'))
      | Raise _ => st'
      end
  | None => st
  end.

(** [n] steps of thread [h]. *)
Fixpoint thread_run `{PanelClasses} (n : nat) (h : nat) (st : state) : state :=
  match n with
  | O => st
  | S n' => thread_run n' h (thread_step h st)
  end.

(** [halt_thread.is_alive()] is false *)
Definition completed (h : nat) (st : state) : bool :=
  match threads st !! h with
  | Some T_done => true
  | _ => false
  end.

(** The settings [Interface.__init__] reads from [CONFIG]. *)
Record config : Type := mkConfig {
  show_graph : bool;
  show_log : bool;
  show_connections : bool;
  show_config : bool;
  show_torrc : bool;
  show_interpreter : bool
}.

(** Instantiating a panel class: a new object, not yet visible. *)
Definition new_panel (cls : panel_class) : M nat :=
  fun st =>
    let id := next_id st in
    (mkState (self st) (<[id := mkPanelObj cls false false 0]> (panels st)) (S id)
       (calls st) (threads st), Ok id).

Definition new_panel_if (enabled : bool) (cls : panel_class) : M (list nat) :=
  if enabled then panel <- new_panel cls ;; ret [panel] else ret [].

(** A process in which no panel exists yet. *)
Definition state0 : state :=
  mkState (mkInterface 0 [] 0 false false) ∅ 0 [] [].

(** [Interface.__init__()], first part: the fields are set, the header
    and the panels of the pages that [CONFIG] enables are created. *)
Definition build_pages (CONFIG : config) : M unit :=
  header <- new_panel HeaderPanel ;;
  graph <- new_panel_if (show_graph CONFIG) GraphPanel ;;
  log <- new_panel_if (show_log CONFIG) LogPanel ;;
  let first_page_panels := graph ++ log in
  let pages := if bool_decide (first_page_panels = []) then [] else [first_page_panels] in
  connection <- new_panel_if (show_connections CONFIG) ConnectionPanel ;;
  let pages := pages ++ (if show_connections CONFIG then [connection] else []) in
  conf <- new_panel_if (show_config CONFIG) ConfigPanel ;;
  let pages := pages ++ (if show_config CONFIG then [conf] else []) in
  torrc <- new_panel_if (show_torrc CONFIG) TorrcPanel ;;
  let pages := pages ++ (if show_torrc CONFIG then [torrc] else []) in
  interpreter <- new_panel_if (show_interpreter CONFIG) InterpreterPanel ;;
  let pages := pages ++ (if show_interpreter CONFIG then [interpreter] else []) in
  put_self (mkInterface 0 pages header false false).

(** [isinstance(panel, nyx.panel.DaemonPanel)] and then [panel.start()] *)
Definition start_if_daemon `{PanelClasses} (panel : nat) : M unit :=
  fun st => if is_daemon st panel then call_panel panel Start st else (st, Ok ()).

(** [Interface.__init__()], second part: every panel is told whether it
    is visible, and the daemons are started. *)
Definition show_and_start `{PanelClasses} : M unit :=
  visible_panels <- page_panels None ;;
  i <- get_self ;;
  for_each (iter i)
    (fun panel =>
       call_panel panel (SetVisible (bool_decide (panel ∈ visible_panels))) ;;
       start_if_daemon panel).

(** [Interface.__init__()] *)
Definition Interface_init `{PanelClasses} (CONFIG : config) : M unit :=
  build_pages CONFIG ;; show_and_start.

(** The methods of the controller, as a caller may invoke them. *)
Inductive operation : Type :=
  | OpGetPage
  | OpSetPage (page_number : Z)
  | OpPageCount
  | OpHeaderPanel
  | OpPagePanels (page_number : option Z)
  | OpIsPaused
  | OpSetPaused (is_pause : bool)
  | OpRedraw
  | OpQuit
  | OpHalt
  | OpThreadStep (h : nat).

Definition run_op `{PanelClasses} (o : operation) (st : state) : state :=
  match o with
  | OpGetPage => (get_page st).1
  | OpSetPage n => (set_page n st).1
  | OpPageCount => (page_count st).1
  | OpHeaderPanel => (header_panel st).1
  | OpPagePanels n => (page_panels n st).1
  | OpIsPaused => (is_paused st).1
  | OpSetPaused p => (set_paused p st).1
  | OpRedraw => (redraw st).1
  | OpQuit => (quit st).1
  | OpHalt => (halt st).1
  | OpThreadStep h => thread_step h st
  end.

(** The panels of the active page, none when the index is out of range. *)
Definition active_page (i : Interface) : list nat :=
  match py_index (_page_panels i) (_page i) with
  | Ok page => page
  | Raise _ => []
  end.

(** The invariant on visibility: the page index is in range, and every
    surface of the controller exists and its flag says whether it is the
    header or on the active page. *)
Definition visibility_consistent (st : state) : Prop :=
  0 <= _page (self st) < Z.of_nat (length (_page_panels (self st))) /\
  forall panel, panel ∈ iter (self st) ->
    exists o, panels st !! panel = Some o /\
      p_visible o = bool_decide (panel = _header_panel (self st)
                                 \/ panel ∈ active_page (self st)).

End Interface.

Module Markup.
Import Curses Util.

(** The closing tag that [addfstr] expects after the opening tag [t]. *)
Definition close_tag (t : string) : string := ("</" +:+ PyStr.slice_from 1 t)%string.

(** The attribute a tag stands for ([0] for a string that is no tag). *)
Definition attr_of (tags : dict) (t : string) : Z := default 0 (dict_get t tags).


(** The two stacks of [addfstr] go together: the expected closing tags
    are those of the tags opened and not yet closed, and the attributes
    are [A_NORMAL] and theirs, in some order. *)
Definition stacks_ok (tags : dict) (fmt : list Z) (ect : list string) : Prop :=
  exists opened : list string,
    Forall (fun t => t ∈ keys tags) opened
    /\ ect = close_tag <$> opened
    /\ fmt ≡ₚ A_NORMAL :: (attr_of tags <$> opened).


End Markup.

Module InterfaceViews.
Import Interface.

(** The panel objects after the calls [f p] on the panels [p] of [l]. *)
Definition after_calls (f : nat -> pcall) (l : list nat) (m : gmap nat panel_obj)
  : gmap nat panel_obj :=
  fold_left (fun m p => alter (apply_call (f p)) p m) l m.

(** The visibility flag of a panel, if the panel exists. *)
Definition vis_of (m : gmap nat panel_obj) (panel : nat) : option bool :=
  p_visible <$> m !! panel.

(** Two states show the same: same page, same pages, same header, same
    visibility flags. *)
Definition same_view (st st' : state) : Prop :=
  _page (self st') = _page (self st)
  /\ _page_panels (self st') = _page_panels (self st)
  /\ _header_panel (self st') = _header_panel (self st)
  /\ forall panel, vis_of (panels st') panel = vis_of (panels st) panel.

(** The calls made on panels since the log held [n] entries. *)
Definition calls_since (n : nat) (st : state) : list (nat * pcall) :=
  drop n (calls st).

(** How often a call was made on a panel. *)
Definition count_call (panel : nat) (c : pcall) (l : list (nat * pcall)) : nat :=
  length (filter (fun e => e.1 = panel /\ e.2 = c) l).

(** The daemons of the controller, as [halt_panels] lists them. *)
Definition daemons_of `{PanelClasses} (st : state) : list nat :=
  filter (fun panel => is_daemon st panel = true) (iter (self st)).

Definition stops (l : list nat) : list (nat * pcall) := map (fun p => (p, Stop)) l.
Definition joins (l : list nat) : list (nat * pcall) := map (fun p => (p, Join)) l.

(** Where thread [h], started by [halt] in state [st0], stands in state
    [st]: which calls it has made since, by its position in
    [halt_panels]. *)
Definition halt_progress `{PanelClasses} (st0 : state) (h : nat) (st : state) : Prop :=
  self st = self st0
  /\ match threads st !! h with
     | Some T_start => panels st = panels st0 /\ calls st = calls st0
     | Some (T_stop daemons todo) =>
         daemons = daemons_of st0
         /\ exists done, daemons = done ++ todo /\ calls st = calls st0 ++ stops done
     | Some (T_join todo) =>
         exists done, daemons_of st0 = done ++ todo
                      /\ calls st = calls st0 ++ stops (daemons_of st0) ++ joins done
     | Some T_done =>
         calls st = calls st0 ++ stops (daemons_of st0) ++ joins (daemons_of st0)
     | None => False
     end.

(** The classes of nyx that poll in the background. *)
Definition nyx_classes : PanelClasses :=
  mkPanelClasses (fun cls =>
    match cls with
    | HeaderPanel | LogPanel | ConnectionPanel => true
    | _ => false
    end).

(** All pages shown, and the controller built for them in a new process. *)
Definition all_pages : config := mkConfig true true true true true true.
Definition no_pages : config := mkConfig false false false false false false.

Definition sample_state : state :=
  Eval vm_compute in (@Interface_init nyx_classes all_pages state0).1.

End InterfaceViews.

(** ** Sample objects to run the model on *)

Module Samples.
Import Curses Util Cache.

(** A region of 24 rows and 80 columns at the top of the screen, erased
    once, and the surface that owns it with its bounds in step: what
    [recreate] then [clear] leave on a screen of that size. *)
Definition sample_window : window := mkWindow (24, 80) (0, 0) [WErase].
Definition sample_panel : Panel := mkPanel (Some sample_window) 0 (-1) false 24 80.

(** A cache in memory, as its constructor leaves it. *)
Definition fresh_cache : Cache :=
  mkCache InMemory (Tables (Some [PyInt SCHEMA_VERSION]) (Some [])).

End Samples.

(** ** [src/interface/util.py]: the rest of the module *)

Module UtilMore.
Import Curses Util.

(** [getSizeLabel(bytes)]; [/] on Python 2 integers rounds down. *)
Definition getSizeLabel (bytes : Z) : string :=
  if bytes >=? 1073741824 then (PyStr.of_Z (bytes / 1073741824) +:+ " GB")%string
  else if bytes >=? 1048576 then (PyStr.of_Z (bytes / 1048576) +:+ " MB")%string
  else if bytes >=? 1024 then (PyStr.of_Z (bytes / 1024) +:+ " KB")%string
  else (PyStr.of_Z bytes +:+ " bytes")%string.

(** The units of [getSizeLabel]: bytes per unit and suffix. *)
Definition size_units : list (Z * string) :=
  [(1073741824, " GB"); (1048576, " MB"); (1024, " KB"); (1, " bytes")]%string.

(** The calls a method added to the region of a panel: those of [after]
    beyond the ones [before] already had ([None] when the panel has no
    region afterwards). *)
Definition new_calls (before after : Panel) : option (list wcall) :=
  match win after with
  | Some w' =>
      Some (drop (length (match win before with
                          | Some w => win_calls w
                          | None => []
                          end)) (win_calls w'))
  | None => None
  end.

(** A write that stays on row [y], starts at column [x0] or later and
    ends before the last of [width] columns. *)
Definition write_within (y x0 width : Z) (c : wcall) : Prop :=
  match c with
  | WAddstr y' x' s _ => y' = y /\ x0 <= x' /\ x' + PyStr.len s <= width - 1
  | _ => False
  end.

(** The height [recreate] asks for: what is left of the screen below the
    top, at most the preferred height when there is one. *)
Definition wanted_height (rows startY0 preferred : Z) : Z :=
  if preferred =? -1 then Z.max 0 (rows - startY0)
  else Z.min (Z.max 0 (rows - startY0)) preferred.

(** No tag of [l] is the beginning of another one. *)
Definition prefix_free (l : list string) : Prop :=
  forall t t', t ∈ l -> t' ∈ l -> String.prefix t t' = true -> t = t'.

(** The same as a test: no tag of [l] begins another tag of [all]. *)
Fixpoint prefix_freeb (l all : list string) : bool :=
  match l with
  | [] => true
  | t :: l' => forallb (fun t' => implb (String.prefix t t') (String.eqb t t')) all
               && prefix_freeb l' all
  end.

End UtilMore.

(** ** [src/nyx/__init__.py]: [join] *)

Module Join.

(** [joiner.join(entries)] *)
Definition str_join (joiner : string) (entries : list string) : string :=
  String.concat joiner entries.

(** The [for] loop of [join], with its [break]. *)
Fixpoint join_loop (joiner : string) (size : Z) (result : string) (entries : list string)
  : string :=
  match entries with
  | [] => result
  | entry :: rest =>
      let new_result :=
        if PyStr.truthy result then str_join joiner [result; entry] else entry in
      if PyStr.len new_result >? size then result
      else join_loop joiner size new_result rest
  end.

(** [join(entries, joiner, size)]; [None] is the default of [size]. *)
Definition join (entries : list string) (joiner : string) (size : option Z) : string :=
  match size with
  | None => str_join joiner entries
  | Some n => join_loop joiner n EmptyString entries
  end.

(** The entries from the first one that is not empty. *)
Fixpoint skip_empty (entries : list string) : list string :=
  match entries with
  | [] => []
  | entry :: rest => if PyStr.truthy entry then entries else skip_empty rest
  end.

End Join.

(** ** [src/nyx/__init__.py]: [draw_loop] and the controller *)

Module DrawLoop.
Import Interface.

(** The keys that [draw_loop] serves with the controller alone; the
    other branches go through the menu, the popups, the tor connection or
    the key handlers of the panels. *)
Inductive key : Type :=
  | KeyRight
  | KeyLeft
  | KeyP.

(** How a turn of the loop ends: the key is served, or an exception
    leaves the loop. *)
Inductive outcome : Type :=
  | Served
  | ZeroDivisionError
  | Left_with (e : exn).

Definition of_result (r : state * result unit) : state * outcome :=
  match r with
  | (st, Ok _) => (st, Served)
  | (st, Raise e) => (st, Left_with e)
  end.

(** [interface.set_page((interface.get_page() + delta) % interface.page_count())] *)
Definition turn_page (delta : Z) (st : state) : state * outcome :=
  match get_page st with
  | (st1, Ok page) =>
      match page_count st1 with
      | (st2, Ok count) =>
          if count =? 0 then (st2, ZeroDivisionError)
          else of_result (set_page ((page + delta) mod count) st2)
      | (st2, Raise e) => (st2, Left_with e)
      end
  | (st1, Raise e) => (st1, Left_with e)
  end.

(** The branch of [draw_loop] for [key]. *)
Definition handle_key (k : key) (st : state) : state * outcome :=
  match k with
  | KeyRight => turn_page 1 st
  | KeyLeft => turn_page (-1) st
  | KeyP => of_result ((p <- is_paused ;; set_paused (negb p)) st)
  end.

(** One turn of [while not interface._quit]: [interface.redraw()], then
    the key. *)
Definition draw_turn (k : key) (st : state) : state * outcome :=
  match redraw st with
  | (st1, Ok _) => handle_key k st1
  | (st1, Raise e) => (st1, Left_with e)
  end.

(** The height a panel reports. *)
Definition height_of (st : state) (panel : nat) : Z :=
  default 0 (p_height <$> panels st !! panel).

(** The rows that the panels of [l] take together. *)
Definition total_height (st : state) (l : list nat) : Z :=
  foldr Z.add 0 (height_of st <$> l).

(** The calls of [redraw()]: on the header and the panels of the page,
    top to bottom, each at the row where the ones above it end. *)
Definition redraw_calls (st : state) : list (nat * pcall) :=
  let visible := _header_panel (self st) :: active_page (self st) in
  imap (fun k panel => (panel, RedrawAt false (total_height st (take k visible)))) visible.

(** The calls of [set_page(page_number)] for a page in range: none for
    the page shown, else [redraw()] on the header and then
    [set_visible] on every panel, header and new page [True]. *)
Definition select_calls (st : state) (page_number : Z) : list (nat * pcall) :=
  if page_number =? _page (self st) then []
  else
    let shown :=
      _header_panel (self st)
      :: default [] (_page_panels (self st) !! Z.to_nat page_number) in
    (_header_panel (self st), Redraw)
    :: map (fun panel => (panel, SetVisible (bool_decide (panel ∈ shown)))) (iter (self st)).

(** The class of a panel, if the panel exists. *)
Definition class_of (st : state) (panel : nat) : option panel_class :=
  p_class <$> panels st !! panel.

(** The classes that [CONFIG] enables, in the order of the constructor. *)
Definition enabled_classes (CONFIG : config) : list panel_class :=
  (if show_graph CONFIG then [GraphPanel] else [])
  ++ (if show_log CONFIG then [LogPanel] else [])
  ++ (if show_connections CONFIG then [ConnectionPanel] else [])
  ++ (if show_config CONFIG then [ConfigPanel] else [])
  ++ (if show_torrc CONFIG then [TorrcPanel] else [])
  ++ (if show_interpreter CONFIG then [InterpreterPanel] else []).

(** The pages that [CONFIG] enables: the graph and the log share one. *)
Definition enabled_pages (CONFIG : config) : nat :=
  length (filter (fun b => b = true)
            [show_graph CONFIG || show_log CONFIG; show_connections CONFIG;
             show_config CONFIG; show_torrc CONFIG; show_interpreter CONFIG]).

(** The calls of the loop of the constructor on the panels [l]. *)
Definition shown_and_started `{PanelClasses} (st : state) (visible l : list nat)
  : list (nat * pcall) :=
  concat (map (fun panel =>
                 (panel, SetVisible (bool_decide (panel ∈ visible)))
                 :: (if is_daemon st panel then [(panel, Start)] else [])) l).

End DrawLoop.

(** ** [src/nyx/arguments.py]: event flags *)

Module Arguments.

(** [TOR_EVENT_TYPES]: flag to event type. *)
Definition TOR_EVENT_TYPES : list (string * string) :=
  [("d", "DEBUG"); ("i", "INFO"); ("n", "NOTICE"); ("w", "WARN"); ("e", "ERR");
   ("b", "BW"); ("c", "CIRC"); ("s", "STREAM");
   ("a", "ADDRMAP"); ("f", "AUTHDIR_NEWDESCS"); ("j", "BUILDTIMEOUT_SET");
   ("k", "CELL_STATS"); ("l", "CIRC_BW"); ("m", "CIRC_MINOR"); ("p", "CONF_CHANGED");
   ("q", "CONN_BW"); ("r", "CLIENTS_SEEN"); ("u", "DESCCHANGED"); ("g", "GUARD");
   ("h", "HS_DESC"); ("v", "HS_DESC_CONTENT"); ("x", "NETWORK_LIVENESS");
   ("y", "NEWCONSENSUS"); ("z", "NEWDESC"); ("B", "NS"); ("o", "ORCONN");
   ("C", "SIGNAL"); ("F", "STREAM_BW"); ("G", "STATUS_CLIENT"); ("H", "STATUS_GENERAL");
   ("I", "STATUS_SERVER"); ("J", "TB_EMPTY"); ("t", "TRANSPORT_LAUNCHED")]%string.

(** [d.keys()], [d.values()], [key in d] and [d[key]] *)
Definition dict_keys (d : list (string * string)) : list string := d.*1.
Definition dict_values (d : list (string * string)) : list string := d.*2.

Fixpoint dict_item (key : string) (d : list (string * string)) : option string :=
  match d with
  | [] => None
  | (k, v) :: d' => if decide (key = k) then Some v else dict_item key d'
  end.

(** [s.split(sep)] for a separator of one character. *)
Fixpoint split (sep : ascii) (s : string) : list string :=
  match s with
  | EmptyString => [EmptyString]
  | String c s' =>
      if Ascii.eqb c sep then EmptyString :: split sep s'
      else match split sep s' with
           | [] => [String c EmptyString]
           | w :: ws => String c w :: ws
           end
  end.

(** [for flag in flags]: the characters of a string, each a string. *)
Definition chars (s : string) : list string :=
  (fun c => String c EmptyString) <$> list_ascii_of_string s.

(** [sub in s] on strings *)
Definition in_str (sub s : string) : bool := negb (PyStr.find sub s =? -1).

(** How a call ends.  The message of the [ValueError] joins the members
    of a set in the order of the set, which Python leaves open: the model
    keeps the set.  [UnboundLocalError] stands for a read of a variable
    that no branch has assigned. *)
Inductive outcome (A : Type) : Type :=
  | Returns (a : A)
  | ValueError_joining (items : gset string)
  | UnboundLocalError.
Arguments Returns {A} a.
Arguments ValueError_joining {A} items.
Arguments UnboundLocalError {A}.

Section Log.

(** [nyx.log.TOR_RUNLEVELS] and [nyx.log.NYX_RUNLEVELS], which are not
    part of the sources at hand. *)
Variables TOR_RUNLEVELS NYX_RUNLEVELS : list string.

(** [validate_events(events)] *)
Definition validate_events (events : string) : outcome (gset string) :=
  let valid_events : gset string :=
    list_to_set (dict_values TOR_EVENT_TYPES ++ NYX_RUNLEVELS) in
  let '(accepted_events, invalid_events) :=
    fold_left
      (fun (acc : gset string * gset string) event =>
         if bool_decide (event ∈ valid_events)
         then (acc.1 ∪ {[event]}, acc.2)
         else (acc.1, acc.2 ∪ {[event]}))
      (split "," events) (∅, ∅) in
  if bool_decide (invalid_events ≠ ∅) then ValueError_joining invalid_events
  else Returns accepted_events.

(** The [if]/[elif] chain that sets [runlevel_index]. *)
Definition runlevel_index (flag : string) : option nat :=
  if in_str flag "D1" then Some 0%nat
  else if in_str flag "I2" then Some 1%nat
  else if in_str flag "N3" then Some 2%nat
  else if in_str flag "W4" then Some 3%nat
  else if in_str flag "E5" then Some 4%nat
  else None.

(** The [if]/[elif] that sets [runlevels]; [l[i:]] is [drop i l]. *)
Definition runlevels_from (flag : string) (index : nat) : option (list string) :=
  if in_str flag "DINWE" then Some (drop index TOR_RUNLEVELS)
  else if in_str flag "12345" then Some (drop index NYX_RUNLEVELS)
  else None.

(** The loop of [expand_events], with its two [return]s. *)
Fixpoint expand_loop (flags : list string) (expanded_events : gset string)
    (invalid_flags : string) : outcome (gset string) :=
  match flags with
  | [] =>
      if PyStr.truthy invalid_flags
      then ValueError_joining (list_to_set (chars invalid_flags))
      else Returns expanded_events
  | flag :: rest =>
      if decide (flag = "A"%string) then
        Returns (list_to_set (dict_keys TOR_EVENT_TYPES ++ NYX_RUNLEVELS ++ ["UNKNOWN"%string]))
      else if decide (flag = "X"%string) then Returns ∅
      else if in_str flag "DINWE12345" then
        match runlevel_index flag with
        | Some index =>
            match runlevels_from flag index with
            | Some runlevels =>
                expand_loop rest (expanded_events ∪ list_to_set runlevels) invalid_flags
            | None => UnboundLocalError
            end
        | None => UnboundLocalError
        end
      else if decide (flag = "U"%string) then
        expand_loop rest (expanded_events ∪ {["UNKNOWN"%string]}) invalid_flags
      else
        match dict_item flag TOR_EVENT_TYPES with
        | Some event => expand_loop rest (expanded_events ∪ {[event]}) invalid_flags
        | None => expand_loop rest expanded_events (invalid_flags +:+ flag)
        end
  end.

(** [expand_events(flags)] *)
Definition expand_events (flags : string) : outcome (gset string) :=
  expand_loop (chars flags) ∅ EmptyString.

End Log.

(** [missing_event_types()], given what
    [tor_controller().get_info('events/names', None)] answers. *)
Definition missing_event_types (response : option string) : list string :=
  match response with
  | None => []
  | Some response =>
      let tor_event_types := split " " response in
      let recognized_types := dict_values TOR_EVENT_TYPES in
      filter (fun x => x ∉ recognized_types) tor_event_types
  end.

(** What one flag stands for, when it is neither [A] nor [X]: the
    runlevels from its own on, [UNKNOWN], or its event type. *)
Definition flag_events (TOR_RUNLEVELS NYX_RUNLEVELS : list string) (flag : string)
  : option (list string) :=
  match flag with
  | "D" => Some TOR_RUNLEVELS
  | "I" => Some (drop 1 TOR_RUNLEVELS)
  | "N" => Some (drop 2 TOR_RUNLEVELS)
  | "W" => Some (drop 3 TOR_RUNLEVELS)
  | "E" => Some (drop 4 TOR_RUNLEVELS)
  | "1" => Some NYX_RUNLEVELS
  | "2" => Some (drop 1 NYX_RUNLEVELS)
  | "3" => Some (drop 2 NYX_RUNLEVELS)
  | "4" => Some (drop 3 NYX_RUNLEVELS)
  | "5" => Some (drop 4 NYX_RUNLEVELS)
  | "U" => Some ["UNKNOWN"]
  | _ => (fun event => [event]) <$> dict_item flag TOR_EVENT_TYPES
  end%string.

(** The runlevels of stem and of nyx, to run the model on. *)
Definition sample_TOR_RUNLEVELS : list string :=
  ["DEBUG"; "INFO"; "NOTICE"; "WARN"; "ERR"]%string.
Definition sample_NYX_RUNLEVELS : list string :=
  ["NYX_DEBUG"; "NYX_INFO"; "NYX_NOTICE"; "NYX_WARNING"; "NYX_ERROR"]%string.

End Arguments.

(** ** [src/interface/util.py]: [addfstr] on a platform that may refuse a write *)

Module Refusing.
Import Curses Util.

(** Whether the platform takes a call on a region.  [win.addstr] raises
    [curses.error] when it does not: for a position outside the window,
    for one.  [addfstr] catches nothing. *)
Definition platform : Type := window -> wcall -> bool.

(** The platform that takes every call: the one of [Curses.addstr]. *)
Definition always : platform := fun _ _ => true.

(** A platform that takes the writes that lie inside a region of [rows]
    by [cols] cells and end before its last column, and refuses every
    other write. *)
Definition inside (rows cols : Z) : platform :=
  fun _ c =>
    match c with
    | WAddstr y x s _ =>
        (0 <=? y) && (y <? rows) && (0 <=? x) && (x + PyStr.len s <? cols)
    | _ => true
    end.


(** The write of one turn of the loop (line 197): the text before the
    next tag, clipped, with the union of the active attributes. *)
Definition turn_write (tags : dict) (y maxX0 : Z) (st : fstate) : wcall :=
  let x := f_x st in
  let msg := f_msg st in
  let '(nextTag, nextTagIndex) := next_tag (keys tags ++ expectedCloseTags st) msg in
  let msgSegment :=
    match tag_found nextTag with
    | Some _ => PyStr.slice_to nextTagIndex msg
    | None => msg
    end in
  WAddstr y x (PyStr.slice_to (maxX0 - x - 1) msgSegment) (union_attr (formatting st)).

(** The body of the loop: the write comes after the scan and before the
    lookups and removals of the turn, so a write that the platform
    refuses leaves the loop there, with [curses.error]; the region keeps
    the writes taken so far. *)
Definition addfstr_body_on (accepts : platform) (tags : dict) (y maxX0 : Z) (st : fstate)
  : step_result :=
  if accepts (f_win st) (turn_write tags y maxX0 st)
  then addfstr_body tags y maxX0 st
  else Raised CursesError (f_win st).

(** The [while] loop, bounded by [fuel] turns. *)
Fixpoint addfstr_loop_on (accepts : platform) (fuel : nat) (tags : dict) (y maxX0 : Z)
    (st : fstate) : option loop_result :=
  if loop_cond maxX0 st then
    match fuel with
    | O => None
    | S fuel' =>
        match addfstr_body_on accepts tags y maxX0 st with
        | Next st' => addfstr_loop_on accepts fuel' tags y maxX0 st'
        | Raised e w => Some (Failed e w)
        end
    end
  else Some (Done st).

(** [Panel.addfstr(y, x, msg)] on such a platform. *)
Definition addfstr_on (accepts : platform) (tags : dict) (y x : Z) (msg : string)
    (self : Panel) : option (Panel * result unit) :=
  match win self with
  | Some w =>
      if (maxY self >? y) && negb (isDisplaced self) then
        r ← addfstr_loop_on accepts (S (String.length msg)) tags y (maxX self)
               (mkFstate x msg [A_NORMAL] [] w);
        Some (set_win (Some (loop_window r)) self, loop_exn r)
      else Some (self, Ok ())
  | None => Some (self, Ok ())
  end.


End Refusing.

(** * Properties *)

(** ** Strings *)

Module PyStrFacts.
Import PyStr.

Lemma length_take n s : String.length (take n s) = Nat.min n (String.length s).
Proof.
  revert s; induction n as [|n IH]; intros [|c s]; simpl; try reflexivity.
  now rewrite IH.
Qed.

Lemma length_drop n s : String.length (drop n s) = (String.length s - n)%nat.
Proof.
  revert s; induction n as [|n IH]; intros [|c s]; simpl; try reflexivity.
  apply IH.
Qed.

Lemma app_String c s1 s2 : (String c s1 +:+ s2)%string = String c (s1 +:+ s2).
Proof. reflexivity. Qed.

Lemma take_drop n s : (take n s +:+ drop n s)%string = s.
Proof.
  revert s; induction n as [|n IH]; intros [|c s]; simpl; try reflexivity.
  rewrite app_String. f_equal. apply IH.
Qed.


Lemma prefix_cons a p b s :
  String.prefix (String a p) (String b s)
  = if Ascii.ascii_dec a b then String.prefix p s else false.
Proof. reflexivity. Qed.

Lemma prefix_length p s : String.prefix p s = true -> (String.length p <= String.length s)%nat.
Proof.
  revert s; induction p as [|a p IH]; intros [|b s]; simpl; intros Hp;
    try lia; try discriminate.
  destruct (Ascii.ascii_dec a b); [|discriminate].
  apply IH in Hp. lia.
Qed.



Lemma find_from_nil sub :
  find_from sub "" = if String.prefix sub "" then Some 0%nat else None.
Proof. reflexivity. Qed.

Lemma find_from_cons sub c s :
  find_from sub (String c s) =
    if String.prefix sub (String c s) then Some 0%nat else S <$> find_from sub s.
Proof. reflexivity. Qed.

(** An occurrence found by [find_from] lies inside the string. *)
Lemma find_from_bound sub s i :
  find_from sub s = Some i -> (i + String.length sub <= String.length s)%nat.
Proof.
  revert i; induction s as [|c s IH]; intros i.
  - rewrite find_from_nil. destruct (String.prefix sub "") eqn:Hp; [|discriminate].
    intros [= <-]. apply prefix_length in Hp. simpl in *. lia.
  - rewrite find_from_cons. destruct (String.prefix sub (String c s)) eqn:Hp.
    + intros [= <-]. apply prefix_length in Hp. simpl in *. lia.
    + destruct (find_from sub s) as [j|]; [|discriminate].
      intros [= <-]. specialize (IH j eq_refl). simpl. lia.
Qed.

(** It is an occurrence: [sub] is what follows the first [i] characters. *)
Lemma find_from_occurs sub s i :
  find_from sub s = Some i -> String.prefix sub (drop i s) = true.
Proof.
  revert i; induction s as [|c s IH]; intros i.
  - rewrite find_from_nil. destruct (String.prefix sub "") eqn:Hp; [|discriminate].
    now intros [= <-].
  - rewrite find_from_cons. destruct (String.prefix sub (String c s)) eqn:Hp.
    + now intros [= <-].
    + destruct (find_from sub s) as [j|]; [|discriminate].
      intros [= <-]. simpl. now apply IH.
Qed.

(** It is the first one. *)
Lemma find_from_first sub s i j :
  find_from sub s = Some i -> (j < i)%nat -> String.prefix sub (drop j s) = false.
Proof.
  revert i j; induction s as [|c s IH]; intros i j.
  - rewrite find_from_nil. destruct (String.prefix sub "") eqn:Hp; [|discriminate].
    intros [= <-]; lia.
  - rewrite find_from_cons. destruct (String.prefix sub (String c s)) eqn:Hp.
    + intros [= <-]; lia.
    + destruct (find_from sub s) as [k|]; [|discriminate].
      intros [= <-] Hj. destruct j as [|j]; simpl; [assumption|].
      apply (IH k); [reflexivity|lia].
Qed.

Lemma find_from_None sub s j :
  find_from sub s = None -> String.prefix sub (drop j s) = false.
Proof.
  revert j; induction s as [|c s IH]; intros j.
  - rewrite find_from_nil. destruct (String.prefix sub "") eqn:Hp; [discriminate|].
    intros _. now destruct j.
  - rewrite find_from_cons. destruct (String.prefix sub (String c s)) eqn:Hp; [discriminate|].
    destruct (find_from sub s) as [k|] eqn:Hf; [discriminate|].
    intros _. destruct j as [|j]; simpl; [assumption|]. now apply IH.
Qed.

Lemma find_range sub s : find sub s = -1 \/ 0 <= find sub s /\ find sub s + len sub <= len s.
Proof.
  unfold find, len. destruct (find_from sub s) as [i|] eqn:Hf; [right|now left].
  apply find_from_bound in Hf. lia.
Qed.

Lemma len_nonneg s : 0 <= len s.
Proof. unfold len; lia. Qed.

Lemma len_slice_to n s : 0 <= n -> len (slice_to n s) = Z.min n (len s).
Proof.
  intros Hn. unfold slice_to, len.
  destruct (Z.ltb_spec n 0); [lia|]. rewrite length_take. lia.
Qed.

Lemma len_slice_from n s : 0 <= n <= len s -> len (slice_from n s) = len s - n.
Proof.
  intros Hn. unfold slice_from, len in *.
  destruct (Z.ltb_spec n 0); [lia|]. rewrite length_drop. lia.
Qed.

Lemma slice_to_from n s : (slice_to n s +:+ slice_from n s)%string = s.
Proof.
  unfold slice_to, slice_from. destruct (n <? 0); apply take_drop.
Qed.


Lemma truthy_len s : truthy s = true <-> 0 < len s.
Proof.
  unfold truthy, len. destruct s; simpl; split; intros; try lia; try discriminate; reflexivity.
Qed.

End PyStrFacts.

Example find_ex1 : PyStr.find "</b>" "<b>hi</b> there" = 5.
Proof. reflexivity. Qed.
Example find_ex2 : PyStr.find "<u>" "<b>hi</b> there" = -1.
Proof. reflexivity. Qed.
Example find_ex3 : PyStr.find "" "abc" = 0.
Proof. reflexivity. Qed.
Example slice_ex1 :
  PyStr.slice_to 2 "hello" = "he"%string /\ PyStr.slice_from 2 "hello" = "llo"%string.
Proof. split; reflexivity. Qed.
Example slice_ex2 :
  PyStr.slice_to (-1) "hello" = "hell"%string
  /\ PyStr.slice_from (-9) "hello" = "hello"%string.
Proof. split; reflexivity. Qed.
Example of_Z_ex :
  PyStr.of_Z (-3) = "-3"%string /\ PyStr.of_Z 0 = "0"%string
  /\ PyStr.of_Z 65536 = "65536"%string.
Proof. repeat split; reflexivity. Qed.

(** ** Display surfaces *)

Module PanelFacts.
Import Curses Util Samples PyStrFacts.

Example sample_panel_from_layout :
  clear (recreate (plain_screen 24 80) 0 (-1) (Panel_init (-1))).1 = sample_panel.
Proof. reflexivity. Qed.

(** C1, as stated, fails: a surface that has no region yet is laid out
    even when the requested top lies below the container.  The region is
    created on the last row, the configured top is overwritten and the
    call answers true. *)
Lemma recreate_fresh_panel_beyond_screen :
  ~ (forall (stdscr : screen) (startY0 maxX0 : Z) (self : Panel),
        startY0 > (scr_maxyx stdscr).1 ->
        recreate stdscr startY0 maxX0 self = (self, Ok false)).
Proof.
  intros H.
  specialize (H (plain_screen 24 80) 30 (-1) (Panel_init (-1)) ltac:(simpl; lia)).
  discriminate H.
Qed.

(** C1, amended: on a surface that has a region, a layout whose top
    exceeds the container height answers false; the configured top, the
    preferred height, the displaced flag and the region stay as they
    were, and the cached bounds are read again from the region, so that a
    surface whose bounds were in step is left exactly as it was. *)
Theorem recreate_beyond_screen (stdscr : screen) (startY0 maxX0 : Z) (self : Panel) (w : window) :
  win self = Some w ->
  startY0 > (scr_maxyx stdscr).1 ->
  recreate stdscr startY0 maxX0 self = (set_bounds (getmaxyx w) self, Ok false)
  /\ ((maxY self, maxX self) = getmaxyx w ->
      recreate stdscr startY0 maxX0 self = (self, Ok false)).
Proof.
  intros Hw Hgt.
  assert (Hr : recreate stdscr startY0 maxX0 self = (set_bounds (getmaxyx w) self, Ok false)).
  { unfold recreate. destruct (scr_maxyx stdscr) as [y x] eqn:Hyx. simpl in Hgt.
    unfold _resetBounds. rewrite Hw. simpl. rewrite Hw.
    rewrite bool_decide_eq_true_2 by eauto.
    destruct (Z.gtb_spec startY0 y); [reflexivity|lia]. }
  split; [exact Hr|].
  intros Hb. rewrite Hr. f_equal.
  destruct self; simpl in *. unfold set_bounds; simpl.
  rewrite <- Hb. reflexivity.
Qed.

Lemma recreate_beyond_screen_witness :
  recreate (plain_screen 24 80) 30 (-1) sample_panel = (sample_panel, Ok false).
Proof.
  apply (recreate_beyond_screen (plain_screen 24 80) 30 (-1) sample_panel sample_window);
    [reflexivity | simpl; lia | reflexivity].
Defined.

(** C7, as stated, fails: a negative column lies outside the surface and
    is written to all the same. *)
Lemma addstr_negative_column :
  ~ (forall (y x : Z) (msg : string) (attr : Z) (self : Panel),
        (y < 0 \/ maxY self <= y \/ x < 0 \/ maxX self <= x
         \/ isDisplaced self = true \/ win self = None) ->
        addstr y x msg attr self = self).
Proof.
  intros H.
  specialize (H 0 (-3) "hello"%string 0 sample_panel ltac:(right; right; left; lia)).
  discriminate H.
Qed.

(** C7, amended: the bounds are checked from above only.  When the row
    is at or past the height, or the column at or past the width, or the
    surface is displaced or has no region, the call changes nothing and
    asks nothing of the platform.  Otherwise the platform receives one
    write, of the first [width - col - 1] characters of the text; from a
    column that is not negative it ends before the last column. *)
Theorem addstr_clipped (y x : Z) (msg : string) (attr : Z) (self : Panel) :
  (win self = None \/ maxX self <= x \/ maxY self <= y \/ isDisplaced self = true ->
   addstr y x msg attr self = self)
  /\ (forall w, win self = Some w -> x < maxX self -> y < maxY self ->
      isDisplaced self = false ->
      exists s rest,
        addstr y x msg attr self = set_win (Some (Curses.addstr y x s attr w)) self
        /\ msg = (s +:+ rest)%string
        /\ PyStr.len s = Z.min (maxX self - x - 1) (PyStr.len msg)
        /\ x + PyStr.len s <= maxX self - 1).
Proof.
  split.
  - intros H. unfold addstr. destruct (win self) as [w|]; [|reflexivity].
    destruct H as [H|[H|[H|H]]]; [discriminate| | |].
    + destruct (Z.gtb_spec (maxX self) x); [lia|reflexivity].
    + destruct (Z.gtb_spec (maxY self) y); [lia|]. now rewrite andb_false_r.
    + rewrite H. simpl. now rewrite andb_false_r.
  - intros w Hw Hx Hy Hd.
    exists (PyStr.slice_to (maxX self - x - 1) msg), (PyStr.slice_from (maxX self - x - 1) msg).
    unfold addstr. rewrite Hw, Hd.
    destruct (Z.gtb_spec (maxX self) x); [|lia].
    destruct (Z.gtb_spec (maxY self) y); [|lia]. simpl.
    split; [reflexivity|]. split; [symmetry; apply slice_to_from|].
    rewrite len_slice_to by lia. split; lia.
Qed.

Lemma addstr_clipped_witness :
  addstr 0 80 "hello" 0 sample_panel = sample_panel
  /\ exists s rest,
       addstr 0 77 "hello" 0 sample_panel
         = set_win (Some (Curses.addstr 0 77 s 0 sample_window)) sample_panel
       /\ "hello"%string = (s +:+ rest)%string
       /\ PyStr.len s = Z.min (80 - 77 - 1) (PyStr.len "hello")
       /\ 77 + PyStr.len s <= 80 - 1.
Proof.
  split.
  - apply (proj1 (addstr_clipped 0 80 "hello" 0 sample_panel)). right; left; simpl; lia.
  - apply (proj2 (addstr_clipped 0 77 "hello" 0 sample_panel) sample_window);
      [reflexivity | simpl; lia | simpl; lia | reflexivity].
Defined.

End PanelFacts.

Module MarkupFacts.
Import Curses Util PyStrFacts.

(** *** The scan for the next tag *)

Lemma next_tag_snoc (l : list string) (t msg : string) :
  next_tag (l ++ [t]) msg = scan_tag msg (next_tag l msg) t.
Proof. unfold next_tag. now rewrite fold_left_app. Qed.

(** What the scan yields: nothing and [maxint], or a tag of the list at
    its position in the message; no tag of the list occurs before the
    index. *)
Lemma next_tag_spec (l : list string) (msg : string) :
  (forall t, t ∈ l -> PyStr.find t msg = -1 \/ (next_tag l msg).2 <= PyStr.find t msg)
  /\ match (next_tag l msg).1 with
     | None => (next_tag l msg).2 = maxint
     | Some t => t ∈ l /\ (next_tag l msg).2 = PyStr.find t msg
                 /\ 0 <= PyStr.find t msg < maxint
     end.
Proof.
  induction l as [|t l [IH1 IH2]] using rev_ind.
  - split; [intros t Ht; inversion Ht|reflexivity].
  - rewrite next_tag_snoc. unfold scan_tag.
    destruct (next_tag l msg) as [nt i] eqn:Hn; simpl in *.
    pose proof (find_range t msg) as Hr.
    destruct (Z.eqb_spec (PyStr.find t msg) (-1)) as [He|He]; simpl.
    + split.
      * intros t' [Ht'|Ht']%elem_of_app; [now apply IH1|].
        apply list_elem_of_singleton in Ht' as ->. now left.
      * destruct nt; [|assumption].
        destruct IH2 as (? & ? & ?). split; [apply elem_of_app; now left|tauto].
    + destruct (Z.ltb_spec (PyStr.find t msg) i) as [Hlt|Hge]; simpl.
      * split.
        -- intros t' [Ht'|Ht']%elem_of_app.
           ++ destruct (IH1 t' Ht'); [now left|right; lia].
           ++ apply list_elem_of_singleton in Ht' as ->. right; lia.
        -- split; [apply elem_of_app; right; now apply list_elem_of_singleton|].
           split; [reflexivity|].
           destruct nt; [destruct IH2 as (? & ? & ?)|]; lia.
      * split.
        -- intros t' [Ht'|Ht']%elem_of_app; [now apply IH1|].
           apply list_elem_of_singleton in Ht' as ->. right; lia.
        -- destruct nt; [|assumption].
           destruct IH2 as (? & ? & ?). split; [apply elem_of_app; now left|tauto].
Qed.


(** *** One turn of the loop *)

Lemma tag_found_Some (nt : option string) (t : string) :
  tag_found nt = Some t <-> nt = Some t /\ 0 < PyStr.len t.
Proof.
  unfold tag_found. destruct nt as [t'|]; [|split; [discriminate|intros [[=] _]]].
  destruct (PyStr.truthy t') eqn:Ht.
  - apply truthy_len in Ht. split; [intros [= <-]; tauto|intros [[= <-] _]; reflexivity].
  - split; [discriminate|]. intros [[= <-] Hl]. apply truthy_len in Hl. congruence.
Qed.

(** The text, the cursor and the region after one turn. *)
Lemma addfstr_body_Next (tags : dict) (y maxX0 : Z) (st st' : fstate) :
  addfstr_body tags y maxX0 st = Next st' ->
  let nt := next_tag (keys tags ++ expectedCloseTags st) (f_msg st) in
  exists seg,
    f_x st' = f_x st + PyStr.len seg
    /\ f_win st' = Curses.addstr y (f_x st) (PyStr.slice_to (maxX0 - f_x st - 1) seg)
                     (union_attr (formatting st)) (f_win st)
    /\ match tag_found nt.1 with
       | None => seg = f_msg st /\ f_msg st' = EmptyString
                 /\ formatting st' = formatting st
                 /\ expectedCloseTags st' = expectedCloseTags st
       | Some t => seg = PyStr.slice_to nt.2 (f_msg st)
                   /\ f_msg st' = PyStr.slice_from (nt.2 + PyStr.len t) (f_msg st)
       end.
Proof.
  intros H. cbv zeta. unfold addfstr_body in H.
  destruct (next_tag (keys tags ++ expectedCloseTags st) (f_msg st)) as [nt i]. simpl.
  destruct (tag_found nt) as [t|].
  - exists (PyStr.slice_to i (f_msg st)).
    destruct (negb (PyStr.startswith "</" t)).
    + destruct (dict_get t tags); [|discriminate]. injection H as <-. simpl. repeat split.
    + destruct (list_remove t (expectedCloseTags st)); [|discriminate].
      destruct (dict_get _ tags); [|discriminate].
      destruct (list_remove _ (formatting st)); [|discriminate].
      injection H as <-. simpl. repeat split.
  - exists (f_msg st). injection H as <-. simpl. repeat split.
Qed.

(** The unprocessed input after a turn: empty when no tag was found,
    else shorter by the text before the tag and by the tag. *)
Lemma addfstr_body_shrinks (tags : dict) (y maxX0 : Z) (st st' : fstate) :
  addfstr_body tags y maxX0 st = Next st' ->
  (tag_found (next_tag (keys tags ++ expectedCloseTags st) (f_msg st)).1 = None
   /\ f_msg st' = EmptyString)
  \/ (exists t, tag_found (next_tag (keys tags ++ expectedCloseTags st) (f_msg st)).1 = Some t
       /\ 0 < PyStr.len t
       /\ PyStr.len (f_msg st') + PyStr.len t <= PyStr.len (f_msg st)).
Proof.
  intros H. apply addfstr_body_Next in H as (seg & _ & _ & H).
  pose proof (next_tag_spec (keys tags ++ expectedCloseTags st) (f_msg st)) as [_ Hs].
  destruct (tag_found _) as [t|] eqn:Ht.
  - right. exists t. apply tag_found_Some in Ht as [Hn Hl].
    rewrite Hn in Hs. destruct Hs as (_ & Hi & Hr).
    destruct H as [_ ->]. rewrite Hi.
    pose proof (find_range t (f_msg st)) as [?|[? ?]]; [lia|].
    rewrite len_slice_from by lia. split; [reflexivity|]. split; [assumption|lia].
  - left. tauto.
Qed.

(** Each turn of the loop leaves strictly less input. *)
Lemma addfstr_body_decreases (tags : dict) (y maxX0 : Z) (st st' : fstate) :
  loop_cond maxX0 st = true ->
  addfstr_body tags y maxX0 st = Next st' ->
  (String.length (f_msg st') < String.length (f_msg st))%nat.
Proof.
  intros Hc Hb. apply andb_prop in Hc as [_ Hc]. unfold PyStr.len in Hc.
  destruct (Z.gtb_spec (Z.of_nat (String.length (f_msg st))) 0); [|discriminate].
  destruct (addfstr_body_shrinks _ _ _ _ _ Hb) as [[_ ->]|(t & _ & Ht & Hle)].
  - simpl. lia.
  - unfold PyStr.len in *. lia.
Qed.

Lemma addfstr_loop_enough_fuel (tags : dict) (y maxX0 : Z) (fuel : nat) :
  forall st, (String.length (f_msg st) < fuel)%nat ->
    exists r, addfstr_loop fuel tags y maxX0 st = Some r
              /\ forall fuel', (String.length (f_msg st) < fuel')%nat ->
                   addfstr_loop fuel' tags y maxX0 st = Some r.
Proof.
  induction fuel as [|fuel IH]; intros st Hlt; [lia|].
  simpl. destruct (loop_cond maxX0 st) eqn:Hc.
  - destruct (addfstr_body tags y maxX0 st) as [st'|e w] eqn:Hb.
    + pose proof (addfstr_body_decreases _ _ _ _ _ Hc Hb) as Hlen.
      destruct (IH st') as (r & Hr & Hall); [lia|].
      exists r. split; [assumption|].
      intros [|fuel'] Hf; [lia|]. simpl. rewrite Hc, Hb. apply Hall. lia.
    + exists (Failed e w). split; [reflexivity|].
      intros [|fuel'] Hf; [lia|]. simpl. now rewrite Hc, Hb.
  - exists (Done st). split; [reflexivity|].
    intros fuel' _. destruct fuel'; simpl; now rewrite Hc.
Qed.

(** C10: the scan loop of [addfstr] comes to an end on every message,
    column, width and tag table, balanced markup or not.  A turn that
    finds no tag leaves no input, a turn that finds one leaves less input
    by the tag's length at least, so the length of the input goes down at
    every turn; a fuel above that length always yields the result of the
    loop, and [addfstr], which provides it, always returns. *)
Theorem addfstr_terminates (tags : dict) (y maxX0 : Z) (st : fstate) :
  (forall st', loop_cond maxX0 st = true ->
     addfstr_body tags y maxX0 st = Next st' ->
     (f_msg st' = EmptyString
      \/ exists t, t ∈ keys tags ++ expectedCloseTags st /\ 0 < PyStr.len t
                   /\ PyStr.len (f_msg st') + PyStr.len t <= PyStr.len (f_msg st))
     /\ PyStr.len (f_msg st') < PyStr.len (f_msg st))
  /\ (exists r, forall fuel, (String.length (f_msg st) < fuel)%nat ->
         addfstr_loop fuel tags y maxX0 st = Some r)
  /\ (forall x msg self, exists r, addfstr tags y x msg self = Some r).
Proof.
  split; [|split].
  - intros st' Hc Hb. apply andb_prop in Hc as [_ Hc].
    destruct (Z.gtb_spec (PyStr.len (f_msg st)) 0) as [Hpos|]; [|discriminate].
    destruct (addfstr_body_shrinks _ _ _ _ _ Hb) as [[_ ->]|(t & Hf & Ht & Hle)].
    + split; [now left|]. unfold PyStr.len at 1; simpl; lia.
    + split; [|lia]. right. exists t. split; [|split; assumption].
      apply tag_found_Some in Hf as [Hf _].
      pose proof (next_tag_spec (keys tags ++ expectedCloseTags st) (f_msg st)) as [_ Hs].
      rewrite Hf in Hs. tauto.
  - destruct (addfstr_loop_enough_fuel tags y maxX0 (S (String.length (f_msg st))) st)
      as (r & _ & Hall); [lia|]. now exists r.
  - intros x msg self. unfold addfstr.
    destruct (win self) as [w|]; [|eauto].
    destruct (_ && _); [|eauto].
    destruct (addfstr_loop_enough_fuel tags y (maxX self) (S (String.length msg))
                (mkFstate x msg [A_NORMAL] [] w)) as (r & -> & _); [simpl; lia|].
    simpl. eauto.
Qed.

End MarkupFacts.

Module StackFacts.
Import Curses Util Markup PyStrFacts MarkupFacts.

(** *** [list.remove] *)




(** *** Tags *)


Lemma startswith_lt (t : string) :
  PyStr.startswith "<" t = true -> t = String "<" (PyStr.slice_from 1 t).
Proof.
  unfold PyStr.startswith. destruct t as [|c t]; [discriminate|].
  rewrite prefix_cons.
  destruct (Ascii.ascii_dec "<" c) as [<-|]; [|discriminate].
  intros _. reflexivity.
Qed.


Lemma open_of_close (t : string) :
  PyStr.startswith "<" t = true ->
  ("<" +:+ PyStr.slice_from 2 (close_tag t))%string = t.
Proof. intros H. rewrite (startswith_lt t H) at 2. reflexivity. Qed.



Lemma close_tag_inj (t t' : string) :
  PyStr.startswith "<" t = true -> PyStr.startswith "<" t' = true ->
  close_tag t = close_tag t' -> t = t'.
Proof.
  intros H H' He. rewrite <- (open_of_close t H), <- (open_of_close t' H'). now rewrite He.
Qed.


(** *** The union of the active attributes *)



End StackFacts.

Module MarkupStep.
Import Curses Util Markup PyStrFacts MarkupFacts StackFacts.







End MarkupStep.

Module MarkupExample.
Import Curses Util Markup PyStrFacts MarkupFacts StackFacts MarkupStep.








End MarkupExample.

(** ** [addfstr] and the writes the platform refuses *)

Module RefusalFacts.
Import Curses Util Markup Refusing PyStrFacts MarkupFacts StackFacts MarkupStep.







Lemma addfstr_on_always (tags : dict) (y x : Z) (msg : string) (self : Panel) :
  addfstr_on always tags y x msg self = addfstr tags y x msg self.
Proof.
  unfold addfstr_on, addfstr.
  destruct (win self) as [w|]; [|reflexivity].
  destruct (_ && _); [|reflexivity].
  assert (Hl : forall fuel st, addfstr_loop_on always fuel tags (y) (maxX self) st
                               = addfstr_loop fuel tags y (maxX self) st).
  { induction fuel as [|fuel IH]; intros st; [reflexivity|].
    cbn [addfstr_loop_on addfstr_loop]. unfold addfstr_body_on, always.
    destruct (loop_cond _ st); [|reflexivity].
    destruct (addfstr_body tags y (maxX self) st); [apply IH|reflexivity]. }
  now rewrite Hl.
Qed.


End RefusalFacts.

Module MarkupClaims.
Import Curses Util Markup Samples Refusing PyStrFacts MarkupFacts StackFacts MarkupStep
  MarkupExample RefusalFacts.

(** The two stacks have the same depth, the base attribute apart. *)
Lemma stacks_ok_depth (tags : dict) (fmt : list Z) (ect : list string) :
  stacks_ok tags fmt ect -> length fmt = S (length ect).
Proof.
  intros (opened & _ & -> & Hp). rewrite Hp. simpl. now rewrite !length_fmap.
Qed.



Lemma addfstr_terminates_witness :
  (exists r, addfstr_loop 30 FORMAT_TAGS 0 80
               (mkFstate 0 "<b><b>x</u> <zz> </b>" [A_NORMAL] [] sample_window) = Some r)
  /\ exists r, addfstr FORMAT_TAGS 0 0 "</b><red>unbalanced<b>" sample_panel = Some r.
Proof.
  destruct (addfstr_terminates FORMAT_TAGS 0 80
              (mkFstate 0 "<b><b>x</u> <zz> </b>" [A_NORMAL] [] sample_window))
    as (_ & [r Hr] & Hret).
  split.
  - exists r. apply Hr. simpl. lia.
  - apply Hret.
Defined.

End MarkupClaims.

(** ** The cache *)

Module CacheFacts.
Import Cache Samples.

(** *** Construction *)

Lemma execute_SCHEMA : execute_all SCHEMA empty_db = Ok (Tables (Some [PyInt SCHEMA_VERSION]) (Some [])).
Proof. reflexivity. Qed.

(** Without a usable location the cache lives in memory, with the
    schema. *)
Lemma Cache_init_in_memory (e : env) :
  cache_path e = None ->
  Cache_init e = Ok (mkCache InMemory (Tables (Some [PyInt SCHEMA_VERSION]) (Some []))).
Proof. intros H. unfold Cache_init. now rewrite H. Qed.

(** A store that opens and carries the current version is kept. *)
Lemma Cache_init_loaded (e : env) (path : string) (db : database) :
  cache_path e = Some path -> PyStr.truthy path = true ->
  connect e = Ok db -> select_version db = Ok (PyInt SCHEMA_VERSION) ->
  Cache_init e = Ok (mkCache (OnDisk path) db).
Proof. intros Hp Ht Hc Hv. unfold Cache_init. now rewrite Hp, Ht, Hc, Hv. Qed.

(** A store that opens but has no version, an unreadable one or another
    one is removed and made anew, when the platform lets it be removed
    and opened again. *)
Lemma Cache_init_recreated (e : env) (path : string) (db : database) :
  cache_path e = Some path -> PyStr.truthy path = true ->
  connect e = Ok db -> select_version db <> Ok (PyInt SCHEMA_VERSION) ->
  os_remove e = Ok () -> reconnect e = Ok () ->
  Cache_init e = Ok (mkCache (OnDisk path) (Tables (Some [PyInt SCHEMA_VERSION]) (Some []))).
Proof.
  intros Hp Ht Hc Hv Hr Hre. unfold Cache_init. rewrite Hp, Ht, Hc.
  destruct (select_version db) as [v|ex] eqn:Hs.
  - assert (Hcur : is_current v = false).
    { destruct v as [|n|s]; try reflexivity. simpl.
      destruct (Z.eqb_spec n SCHEMA_VERSION); [congruence|reflexivity]. }
    rewrite Hcur, Hr, Hre. reflexivity.
  - simpl. rewrite Hr, Hre. reflexivity.
Qed.

(** When the store cannot be opened, [self._conn] is never bound and the
    constructor leaves with an [AttributeError]. *)
Lemma Cache_init_connect_raises (e : env) (path : string) (ex : exn) :
  cache_path e = Some path -> PyStr.truthy path = true ->
  connect e = Raise ex ->
  Cache_init e = Raise (AttributeError "_conn").
Proof. intros Hp Ht Hc. unfold Cache_init. now rewrite Hp, Ht, Hc. Qed.

(** C2, on the code: the data directory is there, but
    [sqlite3.connect] on [cache.sqlite] raises (it is a directory, or it
    cannot be read); the constructor raises in its turn. *)
Lemma Cache_init_aborts :
  Cache_init (mkEnv (Some "/home/atagar/.nyx/cache.sqlite"%string)
                (Raise SqliteError) (Ok ()) (Ok ()))
  = Raise (AttributeError "_conn").
Proof. reflexivity. Qed.

(** *** Recording relays *)

Section Relays.
Context `{Stem}.

Lemma filter_same_after_replace (row : relay_row) (rows : list relay_row) :
  filter (fun r => r_fingerprint r = r_fingerprint row) (insert_or_replace row rows) = [row].
Proof.
  unfold insert_or_replace. rewrite filter_app.
  replace (filter _ (filter _ rows)) with (@nil relay_row).
  - simpl. rewrite filter_cons. destruct (decide _); [reflexivity|congruence].
  - symmetry. induction rows as [|r rows IH]; [reflexivity|].
    rewrite (filter_cons (fun r => r_fingerprint r ≠ _)).
    destruct (decide (r_fingerprint r ≠ r_fingerprint row)); [|assumption].
    rewrite filter_cons. destruct (decide (r_fingerprint r = _)); [congruence|assumption].
Qed.

Lemma filter_other_after_replace (row : relay_row) (rows : list relay_row) :
  filter (fun r => r_fingerprint r ≠ r_fingerprint row) (insert_or_replace row rows)
  = filter (fun r => r_fingerprint r ≠ r_fingerprint row) rows.
Proof.
  unfold insert_or_replace. rewrite filter_app, list_filter_filter.
  rewrite (filter_cons _ row). destruct (decide _); [congruence|].
  rewrite filter_nil, app_nil_r. apply list_filter_iff. tauto.
Qed.

Lemma NoDup_keys_after_replace (row : relay_row) (rows : list relay_row) :
  NoDup (r_fingerprint <$> rows) -> NoDup (r_fingerprint <$> insert_or_replace row rows).
Proof.
  intros Hnd. unfold insert_or_replace. rewrite fmap_app. apply NoDup_app. split; [|split].
  - induction rows as [|r rows IH]; [constructor|].
    rewrite fmap_cons in Hnd. apply NoDup_cons in Hnd as [Hr Hnd].
    rewrite filter_cons. destruct (decide _); [|now apply IH].
    rewrite fmap_cons. apply NoDup_cons. split; [|now apply IH].
    intros Hin. apply Hr. apply list_elem_of_fmap in Hin as (r' & -> & Hin).
    apply list_elem_of_fmap. exists r'. split; [reflexivity|].
    now apply list_elem_of_filter in Hin as [_ ?].
  - intros k Hin Hk. apply list_elem_of_fmap in Hin as (r' & -> & Hin).
    apply list_elem_of_filter in Hin as [Hne _].
    simpl in Hk. apply list_elem_of_singleton in Hk. congruence.
  - simpl. apply NoDup_singleton.
Qed.

(** A valid record is upserted. *)
Lemma record_relay_ok (fingerprint address : string) (or_port : Z) (nickname : string)
    (cache : Cache) (schema : option (list pyval)) (rows : list relay_row) :
  is_valid_fingerprint fingerprint = true ->
  is_valid_nickname nickname = true ->
  is_valid_ipv4_address address || is_valid_ipv6_address address = true ->
  is_valid_port or_port = true ->
  _conn cache = Tables schema (Some rows) ->
  record_relay fingerprint address or_port nickname cache
  = (mkCache (_conn_location cache)
       (Tables schema (Some (insert_or_replace (mkRow fingerprint address or_port nickname) rows))),
     Ok ()).
Proof.
  intros Hf Hn Ha Hp Hc. unfold record_relay. rewrite Hf, Hn, Hp. simpl.
  replace (negb (is_valid_ipv4_address address) && negb (is_valid_ipv6_address address))
    with false by (rewrite <- negb_orb, Ha; reflexivity).
  unfold _query_insert. rewrite Hc. reflexivity.
Qed.

Lemma relay_nickname_after_replace (row : relay_row) (rows : list relay_row)
    (loc : location) (schema : option (list pyval)) (default : option string) :
  relay_nickname (r_fingerprint row) default
    (mkCache loc (Tables schema (Some (insert_or_replace row rows))))
  = Ok (Some (r_nickname row)).
Proof.
  unfold relay_nickname, select_relay. simpl.
  now rewrite filter_same_after_replace.
Qed.

(** C4: [record_relay] checks the fingerprint, then the nickname, then
    the address (IPv4 or IPv6), then the port.  At the first check that
    fails it raises a [ValueError] that quotes the value and names the
    field, and the cache is as it was.  When all pass, the row is upserted
    under its fingerprint: the lookup of the nickname gives the new name,
    the table holds one row with that fingerprint, the other rows are
    untouched and no key is duplicated; so recording a fingerprint again
    under a new name overwrites its record. *)
Theorem record_relay_validates_then_upserts
    (fingerprint address : string) (or_port : Z) (nickname : string) (cache : Cache) :
  (is_valid_fingerprint fingerprint = false ->
   record_relay fingerprint address or_port nickname cache
   = (cache, Raise (ValueError (quoted fingerprint +:+ " isn't a valid fingerprint"))))
  /\ (is_valid_fingerprint fingerprint = true ->
      is_valid_nickname nickname = false ->
      record_relay fingerprint address or_port nickname cache
      = (cache, Raise (ValueError (quoted nickname +:+ " isn't a valid nickname"))))
  /\ (is_valid_fingerprint fingerprint = true ->
      is_valid_nickname nickname = true ->
      is_valid_ipv4_address address = false -> is_valid_ipv6_address address = false ->
      record_relay fingerprint address or_port nickname cache
      = (cache, Raise (ValueError (quoted address +:+ " isn't a valid address"))))
  /\ (is_valid_fingerprint fingerprint = true ->
      is_valid_nickname nickname = true ->
      is_valid_ipv4_address address || is_valid_ipv6_address address = true ->
      is_valid_port or_port = false ->
      record_relay fingerprint address or_port nickname cache
      = (cache, Raise (ValueError (quoted (PyStr.of_Z or_port) +:+ " isn't a valid port"))))
  /\ (is_valid_fingerprint fingerprint = true ->
      is_valid_nickname nickname = true ->
      is_valid_ipv4_address address || is_valid_ipv6_address address = true ->
      is_valid_port or_port = true ->
      forall schema rows, _conn cache = Tables schema (Some rows) ->
        let row := mkRow fingerprint address or_port nickname in
        let cache' := (record_relay fingerprint address or_port nickname cache).1 in
        (record_relay fingerprint address or_port nickname cache).2 = Ok ()
        /\ _conn cache' = Tables schema (Some (insert_or_replace row rows))
        /\ (forall default, relay_nickname fingerprint default cache' = Ok (Some nickname))
        /\ filter (fun r => r_fingerprint r = fingerprint) (relays_of cache') = [row]
        /\ filter (fun r => r_fingerprint r ≠ fingerprint) (relays_of cache')
           = filter (fun r => r_fingerprint r ≠ fingerprint) rows
        /\ (NoDup (r_fingerprint <$> rows) -> NoDup (r_fingerprint <$> relays_of cache'))
        /\ (forall address2 or_port2 nickname2,
              is_valid_nickname nickname2 = true ->
              is_valid_ipv4_address address2 || is_valid_ipv6_address address2 = true ->
              is_valid_port or_port2 = true ->
              let cache'' := (record_relay fingerprint address2 or_port2 nickname2 cache').1 in
              (forall default, relay_nickname fingerprint default cache'' = Ok (Some nickname2))
              /\ filter (fun r => r_fingerprint r = fingerprint) (relays_of cache'')
                 = [mkRow fingerprint address2 or_port2 nickname2])).
Proof.
  split; [|split; [|split; [|split]]].
  - intros Hf. unfold record_relay. now rewrite Hf.
  - intros Hf Hn. unfold record_relay. now rewrite Hf, Hn.
  - intros Hf Hn H4 H6. unfold record_relay. now rewrite Hf, Hn, H4, H6.
  - intros Hf Hn Ha Hp. unfold record_relay. rewrite Hf, Hn, Hp. simpl.
    replace (negb (is_valid_ipv4_address address) && negb (is_valid_ipv6_address address))
      with false by (rewrite <- negb_orb, Ha; reflexivity).
    reflexivity.
  - intros Hf Hn Ha Hp schema rows Hc row cache'. subst cache'.
    rewrite (record_relay_ok _ _ _ _ _ schema rows Hf Hn Ha Hp Hc). simpl.
    fold row. unfold relays_of. simpl.
    split; [reflexivity|]. split; [reflexivity|].
    split; [intros default; apply (relay_nickname_after_replace row)|].
    split; [apply (filter_same_after_replace row)|].
    split; [apply (filter_other_after_replace row)|].
    split; [apply NoDup_keys_after_replace|].
    intros address2 or_port2 nickname2 Hn2 Ha2 Hp2. cbv zeta.
    rewrite (record_relay_ok fingerprint address2 or_port2 nickname2
               (mkCache (_conn_location cache) (Tables schema (Some (insert_or_replace row rows))))
               schema (insert_or_replace row rows) Hf Hn2 Ha2 Hp2 eq_refl).
    simpl. split.
    + intros default.
      apply (relay_nickname_after_replace (mkRow fingerprint address2 or_port2 nickname2)).
    + apply (filter_same_after_replace (mkRow fingerprint address2 or_port2 nickname2)).
Qed.

End Relays.

Lemma record_relay_validates_then_upserts_witness :
  (* a fingerprint of 39 characters leaves no record *)
  (@record_relay sample_stem "A7569A83B5706AB1B1A9CB52EFF7D2D32E4553E" "10.0.0.1" 9001
     "caerSidi" fresh_cache
   = (fresh_cache,
      Raise (ValueError "'A7569A83B5706AB1B1A9CB52EFF7D2D32E4553E' isn't a valid fingerprint")))
  (* a valid one is stored, and stored again under a new name *)
  /\ (let cache' := (@record_relay sample_stem "A7569A83B5706AB1B1A9CB52EFF7D2D32E4553EB"
                       "10.0.0.1" 9001 "caerSidi" fresh_cache).1 in
      relay_nickname "A7569A83B5706AB1B1A9CB52EFF7D2D32E4553EB" None cache'
      = Ok (Some "caerSidi"%string)
      /\ let cache'' := (@record_relay sample_stem "A7569A83B5706AB1B1A9CB52EFF7D2D32E4553EB"
                           "10.0.0.2" 443 "moria" cache').1 in
         relay_nickname "A7569A83B5706AB1B1A9CB52EFF7D2D32E4553EB" None cache''
         = Ok (Some "moria"%string)
         /\ relays_of cache''
            = [mkRow "A7569A83B5706AB1B1A9CB52EFF7D2D32E4553EB" "10.0.0.2" 443 "moria"]).
Proof.
  split.
  - apply (proj1 (@record_relay_validates_then_upserts sample_stem
             "A7569A83B5706AB1B1A9CB52EFF7D2D32E4553E" "10.0.0.1" 9001 "caerSidi" fresh_cache)).
    reflexivity.
  - destruct (@record_relay_validates_then_upserts sample_stem
                "A7569A83B5706AB1B1A9CB52EFF7D2D32E4553EB" "10.0.0.1" 9001 "caerSidi"
                fresh_cache) as (_ & _ & _ & _ & Hok).
    specialize (Hok eq_refl eq_refl eq_refl eq_refl _ _ eq_refl)
      as (_ & _ & Hnick & _ & _ & _ & Hagain).
    split; [apply Hnick|].
    specialize (Hagain "10.0.0.2"%string 443 "moria"%string eq_refl eq_refl eq_refl)
      as [Hnick2 _].
    split; [apply Hnick2|reflexivity].
Defined.

End CacheFacts.

(** ** The interface controller *)

Module InterfaceFacts.
Import Interface InterfaceViews.

(** *** Loops of calls on panels *)

Lemma for_each_call_panel (f : nat -> pcall) (l : list nat) (st : state) :
  for_each l (fun panel => call_panel panel (f panel)) st
  = (mkState (self st) (after_calls f l (panels st)) (next_id st)
       (calls st ++ map (fun p => (p, f p)) l) (threads st), Ok ()).
Proof.
  revert st; induction l as [|p l IH]; intros st.
  - simpl. unfold ret. rewrite app_nil_r. now destruct st.
  - simpl. unfold bind, call_panel at 1. rewrite IH. simpl.
    now rewrite <- app_assoc.
Qed.

Lemma py_index_in_range {A} (l : list A) (i : Z) :
  0 <= i < Z.of_nat (length l) -> exists x, py_index l i = Ok x /\ l !! Z.to_nat i = Some x.
Proof.
  intros Hi. unfold py_index. destruct (Z.ltb_spec i 0); [lia|]. cbv zeta.
  destruct (Z.ltb_spec i 0); [lia|].
  destruct (l !! Z.to_nat i) as [x|] eqn:Hl; [now exists x|].
  apply lookup_ge_None in Hl. lia.
Qed.

(** *** Selecting a page *)

Lemma set_page_invalid (page_number : Z) (st : state) :
  ~ (0 <= page_number < Z.of_nat (length (_page_panels (self st)))) ->
  set_page page_number st
  = (st, Raise (ValueError ("Invalid page number: " +:+ PyStr.of_Z page_number))).
Proof.
  intros Hr. unfold set_page, bind, page_count, get_self, ret. simpl.
  destruct (Z.ltb_spec page_number 0); [reflexivity|].
  destruct (Z.geb_spec page_number (Z.of_nat (length (_page_panels (self st)))));
    [reflexivity|lia].
Qed.

Lemma set_page_same (st : state) :
  0 <= _page (self st) < Z.of_nat (length (_page_panels (self st))) ->
  set_page (_page (self st)) st = (st, Ok ()).
Proof.
  intros Hr. unfold set_page, bind, page_count, get_self, ret. simpl.
  destruct (Z.ltb_spec (_page (self st)) 0); [lia|].
  destruct (Z.geb_spec (_page (self st)) (Z.of_nat (length (_page_panels (self st)))));
    [lia|]. simpl. now rewrite Z.eqb_refl.
Qed.

(** A change of page: the header is redrawn, then every surface is told
    whether it is the header or on the new page. *)
Lemma set_page_change (page_number : Z) (st : state) (page : list nat) :
  0 <= page_number < Z.of_nat (length (_page_panels (self st))) ->
  page_number <> _page (self st) ->
  _page_panels (self st) !! Z.to_nat page_number = Some page ->
  let i := mkInterface page_number (_page_panels (self st)) (_header_panel (self st))
             (_paused (self st)) (_quit (self st)) in
  let shown := fun panel => SetVisible (bool_decide (panel ∈ _header_panel i :: page)) in
  set_page page_number st
  = (mkState i
       (after_calls shown (iter i)
          (alter (apply_call Redraw) (_header_panel i) (panels st)))
       (next_id st)
       ((calls st ++ [(_header_panel i, Redraw)]) ++ map (fun p => (p, shown p)) (iter i))
       (threads st), Ok ()).
Proof.
  intros Hr Hne Hp i shown. unfold set_page, bind, page_count, get_self, ret.
  cbn -[for_each iter].
  destruct (Z.ltb_spec page_number 0); [lia|].
  destruct (Z.geb_spec page_number (Z.of_nat (length (_page_panels (self st)))));
    [lia|]. cbn -[for_each iter].
  destruct (Z.eqb_spec page_number (_page (self st))); [contradiction|].
  cbn -[for_each iter].
  unfold header_panel, page_panels, bind, get_self, ret, raise. cbn -[for_each iter].
  destruct (py_index_in_range (_page_panels (self st)) page_number Hr) as (pg & -> & Hpg).
  rewrite Hp in Hpg. injection Hpg as <-. cbn -[for_each iter].
  rewrite for_each_call_panel. reflexivity.
Qed.

(** *** Pausing *)

Lemma set_paused_unchanged (is_pause : bool) (st : state) :
  _paused (self st) = is_pause -> set_paused is_pause st = (st, Ok ()).
Proof.
  intros Hp. unfold set_paused, bind, get_self, ret. rewrite Hp.
  now destruct is_pause.
Qed.

(** A change of the paused state: every surface is told, then the
    surfaces of the active page are redrawn. *)
Lemma set_paused_change (is_pause : bool) (st : state) :
  _paused (self st) <> is_pause ->
  let i := mkInterface (_page (self st)) (_page_panels (self st)) (_header_panel (self st))
             is_pause (_quit (self st)) in
  let told := mkState i (after_calls (fun _ => SetPaused is_pause) (iter i) (panels st))
                (next_id st)
                (calls st ++ map (fun p => (p, SetPaused is_pause)) (iter i))
                (threads st) in
  set_paused is_pause st
  = match py_index (_page_panels i) (_page i) with
    | Ok page =>
        (mkState i (after_calls (fun _ => Redraw) (_header_panel i :: page) (panels told))
           (next_id st)
           (calls told ++ map (fun p => (p, Redraw)) (_header_panel i :: page))
           (threads st), Ok ())
    | Raise e => (told, Raise e)
    end.
Proof.
  intros Hp i told. unfold set_paused, bind, get_self, ret.
  replace (eqb is_pause (_paused (self st))) with false
    by (destruct is_pause, (_paused (self st)); simpl; congruence).
  cbn -[for_each iter py_index]. rewrite for_each_call_panel.
  unfold page_panels, bind, get_self, ret, raise. cbn -[for_each iter py_index].
  destruct (py_index (_page_panels (self st)) (_page (self st))) as [page|e];
    cbn -[for_each iter py_index]; [|reflexivity].
  rewrite for_each_call_panel. reflexivity.
Qed.

End InterfaceFacts.

Module VisibilityFacts.
Import Interface InterfaceViews InterfaceFacts.

(** *** Visibility flags under calls *)

Lemma after_calls_cons (f : nat -> pcall) (p : nat) (l : list nat) (m : gmap nat panel_obj) :
  after_calls f (p :: l) m = after_calls f l (alter (apply_call (f p)) p m).
Proof. reflexivity. Qed.

Lemma vis_of_alter (c : pcall) (p q : nat) (m : gmap nat panel_obj) :
  vis_of (alter (apply_call c) p m) q
  = match c with
    | SetVisible v => if decide (p = q) then (fun _ => v) <$> m !! q else vis_of m q
    | _ => vis_of m q
    end.
Proof.
  unfold vis_of. rewrite lookup_alter.
  destruct (decide (p = q)) as [->|Hne].
  - destruct (m !! q) as [o|]; destruct c; reflexivity.
  - now destruct c.
Qed.

(** Calls other than [set_visible] leave every flag alone. *)
Lemma vis_of_after_calls_other (f : nat -> pcall) (l : list nat) (m : gmap nat panel_obj) (q : nat) :
  (forall p v, f p <> SetVisible v) ->
  vis_of (after_calls f l m) q = vis_of m q.
Proof.
  intros Hf. revert m; induction l as [|p l IH]; intros m; [reflexivity|].
  rewrite after_calls_cons, IH, vis_of_alter.
  destruct (f p) eqn:Hfp; try reflexivity. now apply Hf in Hfp.
Qed.

(** After [set_visible(b p)] on every panel [p] of [l], the flag of a
    panel of [l] is [b] of it, and the others are as before. *)
Lemma vis_of_after_shown (b : nat -> bool) (l : list nat) (m : gmap nat panel_obj) (q : nat) :
  vis_of (after_calls (fun p => SetVisible (b p)) l m) q
  = if bool_decide (q ∈ l) then (fun _ => b q) <$> m !! q else vis_of m q.
Proof.
  revert m; induction l as [|p l IH]; intros m; [reflexivity|].
  rewrite after_calls_cons, IH. clear IH.
  destruct (decide (p = q)) as [->|Hne].
  - rewrite (bool_decide_eq_true_2 (q ∈ q :: l)) by (apply elem_of_cons; now left).
    rewrite vis_of_alter, decide_True by reflexivity.
    rewrite lookup_alter, decide_True by reflexivity.
    destruct (bool_decide (q ∈ l)); now destruct (m !! q).
  - rewrite vis_of_alter, decide_False by assumption.
    rewrite lookup_alter, decide_False by assumption.
    rewrite (bool_decide_ext (q ∈ p :: l) (q ∈ l)); [reflexivity|].
    rewrite elem_of_cons. split; [|tauto]. intros [?|?]; [congruence|assumption].
Qed.

Lemma visibility_consistent_same_view (st st' : state) :
  same_view st st' -> visibility_consistent st -> visibility_consistent st'.
Proof.
  intros (Hp & Hpp & Hh & Hv) [Hr Hall]. unfold visibility_consistent, iter, active_page.
  rewrite Hp, Hpp, Hh. split; [assumption|].
  intros panel Hin. destruct (Hall panel Hin) as (o & Ho & Hvis).
  specialize (Hv panel). unfold vis_of in Hv. rewrite Ho in Hv. simpl in Hv.
  destruct (panels st' !! panel) as [o'|]; [|discriminate].
  exists o'. split; [reflexivity|]. injection Hv as ->. exact Hvis.
Qed.

Lemma same_view_refl (st : state) : same_view st st.
Proof. repeat split. Qed.

(** *** Operations that leave the view alone *)

Lemma redraw_from_view (l : list nat) (occupied : Z) (st : state) :
  same_view st (redraw_from occupied l st).1.
Proof.
  revert occupied st; induction l as [|p l IH]; intros occupied st; [apply same_view_refl|].
  simpl. unfold bind, call_panel at 1, get_height at 1. simpl.
  match goal with |- same_view _ (redraw_from ?o l ?s).1 =>
    destruct (IH o s) as (H1 & H2 & H3 & H4) end.
  simpl in *. repeat split; try assumption.
  intros q. rewrite H4. now rewrite vis_of_alter.
Qed.

Lemma set_paused_view (is_pause : bool) (st : state) :
  same_view st (set_paused is_pause st).1.
Proof.
  destruct (decide (_paused (self st) = is_pause)) as [He|Hne].
  - rewrite set_paused_unchanged by assumption. apply same_view_refl.
  - rewrite set_paused_change by assumption. cbv zeta.
    destruct (py_index _ _);
      (split; [reflexivity|split; [reflexivity|split; [reflexivity|]]]);
      intros q; cbn [fst panels];
      rewrite ?(vis_of_after_calls_other (fun _ => Redraw)) by discriminate;
      now rewrite (vis_of_after_calls_other (fun _ => SetPaused is_pause)) by discriminate.
Qed.

Lemma redraw_view (st : state) : same_view st (redraw st).1.
Proof.
  unfold redraw, bind, page_panels, get_self, ret, raise. cbn -[py_index redraw_from].
  destruct (py_index (_page_panels (self st)) (_page (self st)));
    cbn -[py_index redraw_from]; [apply redraw_from_view|apply same_view_refl].
Qed.

Lemma thread_step_view `{PanelClasses} (h : nat) (st : state) :
  same_view st (thread_step h st).
Proof.
  unfold thread_step. destruct (threads st !! h) as [t|]; [|apply same_view_refl].
  destruct t as [|daemons [|p todo]|[|p todo]|]; simpl;
    repeat split; intros q; cbn [panels]; now rewrite ?vis_of_alter.
Qed.

(** *** The invariant *)

Lemma set_page_consistent (page_number : Z) (st : state) :
  visibility_consistent st -> visibility_consistent (set_page page_number st).1.
Proof.
  intros Hinv.
  destruct (decide (0 <= page_number < Z.of_nat (length (_page_panels (self st)))))
    as [Hr|Hr]; [|now rewrite set_page_invalid].
  destruct (decide (page_number = _page (self st))) as [->|Hne];
    [now rewrite set_page_same|].
  destruct (py_index_in_range _ _ Hr) as (page & Hpi & Hpage).
  rewrite (set_page_change page_number st page Hr Hne Hpage).
  destruct Hinv as [_ Hall]. split; [exact Hr|].
  cbn [fst self panels _page _page_panels _header_panel].
  intros panel Hin.
  change (iter _) with (iter (self st)) in Hin |- *.
  destruct (Hall panel Hin) as (o & Ho & _).
  pose proof (vis_of_after_shown
    (fun p => bool_decide (p ∈ _header_panel (self st) :: page))
    (iter (self st))
    (alter (apply_call Redraw) (_header_panel (self st)) (panels st)) panel) as Hv.
  rewrite (bool_decide_eq_true_2 _ Hin) in Hv.
  assert (Hex : exists o1, alter (apply_call Redraw) (_header_panel (self st)) (panels st)
                           !! panel = Some o1).
  { rewrite lookup_alter. destruct (decide _) as [He|]; [rewrite He|]; rewrite Ho; simpl; eauto. }
  destruct Hex as [o1 Ho1]. rewrite Ho1 in Hv. unfold vis_of in Hv.
  destruct (after_calls _ _ _ !! panel) as [o'|]; [|discriminate].
  exists o'. split; [reflexivity|]. simpl in Hv. injection Hv as ->.
  unfold active_page. cbn [_page _page_panels _header_panel]. rewrite Hpi.
  apply bool_decide_ext. now rewrite elem_of_cons.
Qed.

Lemma run_op_consistent `{PanelClasses} (o : operation) (st : state) :
  visibility_consistent st -> visibility_consistent (run_op o st).
Proof.
  intros Hinv. destruct o; simpl; try assumption.
  - now apply set_page_consistent.
  - unfold page_panels, bind, get_self, ret, raise. cbn -[py_index].
    now destruct (py_index (_page_panels (self st)) _).
  - eapply visibility_consistent_same_view; [apply set_paused_view|assumption].
  - eapply visibility_consistent_same_view; [apply redraw_view|assumption].
  - eapply visibility_consistent_same_view; [apply thread_step_view|assumption].
Qed.

End VisibilityFacts.

Module ConstructorFacts.
Import Interface InterfaceViews InterfaceFacts VisibilityFacts.

Section Classes.
Context `{PanelClasses}.

(** The loop of the constructor: the flags are set as in [set_page]; the
    calls of [start()] change no panel. *)
Lemma for_each_show_start (visible_panels : list nat) (l : list nat) (st : state) :
  exists cs,
    for_each l
      (fun panel =>
         call_panel panel (SetVisible (bool_decide (panel ∈ visible_panels))) ;;
         start_if_daemon panel) st
    = (mkState (self st)
         (after_calls (fun p => SetVisible (bool_decide (p ∈ visible_panels))) l (panels st))
         (next_id st) (calls st ++ cs) (threads st), Ok ()).
Proof.
  revert st; induction l as [|p l IH]; intros st.
  - exists []. simpl. unfold ret. rewrite app_nil_r. now destruct st.
  - cbn [for_each]. unfold bind at 1. unfold bind at 1. unfold call_panel at 1.
    unfold start_if_daemon at 1.
    match goal with |- context [is_daemon ?s p] => destruct (is_daemon s p) end.
    + unfold call_panel at 1. cbn [self panels next_id calls threads].
      match goal with |- context [for_each l ?b ?s] => destruct (IH s) as [cs ->] end.
      cbn [self panels next_id calls threads].
      exists ([(p, SetVisible (bool_decide (p ∈ visible_panels)))] ++ [(p, Start)] ++ cs).
      rewrite after_calls_cons. rewrite !app_assoc. do 2 f_equal.
      f_equal. apply alter_id. reflexivity.
    + match goal with |- context [for_each l ?b ?s] => destruct (IH s) as [cs ->] end.
      cbn [self panels next_id calls threads].
      exists ([(p, SetVisible (bool_decide (p ∈ visible_panels)))] ++ cs).
      rewrite after_calls_cons. rewrite !app_assoc. reflexivity.
Qed.

Lemma page_panels_current (st : state) :
  page_panels None st
  = match py_index (_page_panels (self st)) (_page (self st)) with
    | Ok page => (st, Ok (_header_panel (self st) :: page))
    | Raise e => (st, Raise e)
    end.
Proof.
  unfold page_panels, bind, get_self, ret, raise. cbn -[py_index].
  now destruct (py_index (_page_panels (self st)) (_page (self st))).
Qed.

(** Once the pages stand and the page index is in range, the second part
    of the constructor returns and leaves the flags consistent. *)
Lemma show_and_start_consistent (st : state) :
  0 <= _page (self st) < Z.of_nat (length (_page_panels (self st))) ->
  (forall panel, panel ∈ iter (self st) -> is_Some (panels st !! panel)) ->
  exists st', show_and_start st = (st', Ok ()) /\ visibility_consistent st'
              /\ self st' = self st /\ threads st' = threads st.
Proof.
  intros Hr Hex. unfold show_and_start. unfold bind at 1.
  rewrite page_panels_current.
  destruct (py_index_in_range _ _ Hr) as (page & Hpi & _). rewrite Hpi.
  unfold bind at 1. unfold get_self at 1. cbn [self].
  destruct (for_each_show_start (_header_panel (self st) :: page) (iter (self st)) st)
    as [cs ->].
  eexists. split; [reflexivity|]. split; [|split; reflexivity].
  split; [exact Hr|]. cbn [self panels].
  intros panel Hin. destruct (Hex panel Hin) as [o Ho].
  pose proof (vis_of_after_shown
    (fun p => bool_decide (p ∈ _header_panel (self st) :: page))
    (iter (self st)) (panels st) panel) as Hv.
  rewrite (bool_decide_eq_true_2 _ Hin), Ho in Hv. unfold vis_of in Hv.
  destruct (after_calls _ _ _ !! panel) as [o'|]; [|discriminate].
  exists o'. split; [reflexivity|]. simpl in Hv. injection Hv as ->.
  unfold active_page. rewrite Hpi.
  apply bool_decide_ext. now rewrite elem_of_cons.
Qed.

Lemma show_and_start_no_page (st : state) :
  _page (self st) = 0 -> _page_panels (self st) = [] ->
  show_and_start st = (st, Raise IndexError).
Proof.
  intros Hp Hpp. unfold show_and_start. unfold bind at 1.
  rewrite page_panels_current. now rewrite Hp, Hpp.
Qed.

End Classes.

Ltac solve_lookup :=
  cbn [panels]; repeat (rewrite lookup_insert_ne by lia); rewrite lookup_insert_eq;
  eexists; reflexivity.

Ltac solve_members :=
  intros panel Hin; unfold iter in Hin; cbn in Hin;
  repeat (apply elem_of_cons in Hin as [->|Hin]; [solve_lookup|]);
  inversion Hin.

(** What [Interface.__init__] leaves: with no page enabled it raises on
    the first page that is not there; otherwise it returns a controller on
    page 0 whose flags are consistent and whose panels are all distinct. *)
Lemma Interface_init_outcome `{PanelClasses} (CONFIG : config) (st : state) :
  match Interface_init CONFIG st with
  | (st', Ok _) =>
      CONFIG <> no_pages /\ visibility_consistent st' /\ NoDup (iter (self st'))
      /\ _page (self st') = 0 /\ _paused (self st') = false /\ threads st' = threads st
  | (st', Raise e) => CONFIG = no_pages /\ e = IndexError
  end.
Proof.
  unfold Interface_init. unfold bind at 1.
  destruct CONFIG as [[] [] [] [] [] []];
    unfold build_pages, new_panel_if, bind, new_panel, put_self, ret, with_self;
    cbn -[insert show_and_start];
    match goal with
    | |- context [show_and_start ?s] =>
        first
          [ rewrite (show_and_start_no_page s eq_refl eq_refl); split; reflexivity
          | destruct (show_and_start_consistent s) as (st' & -> & Hc & Hs & Ht);
            [ cbn [self _page _page_panels length]; lia
            | solve_members
            | split; [discriminate|]; split; [exact Hc|]; rewrite Hs, Ht;
              unfold iter; simpl; split; [|repeat split];
              repeat (apply NoDup_cons_2;
                      [rewrite ?elem_of_cons, elem_of_nil; lia|]); apply NoDup_nil_2 ] ]
    end.
Qed.

End ConstructorFacts.

Module HaltFacts.
Import Interface InterfaceViews InterfaceFacts VisibilityFacts ConstructorFacts.

Section Classes.
Context `{PanelClasses}.

Lemma halt_returns (st : state) :
  halt st = (mkState (self st) (panels st) (next_id st) (calls st) (threads st ++ [T_start]),
             Ok (length (threads st))).
Proof. reflexivity. Qed.

Lemma halt_progress_start (st : state) :
  halt_progress st (length (threads st)) (halt st).1.
Proof.
  split; [reflexivity|]. simpl.
  rewrite lookup_app_r by lia. rewrite Nat.sub_diag. simpl. split; reflexivity.
Qed.

(** A step of the thread keeps it on its way through [halt_panels]. *)
Lemma halt_progress_step (st0 : state) (h : nat) (st : state) :
  halt_progress st0 h st -> halt_progress st0 h (thread_step h st).
Proof.
  intros [Hself Hp]. unfold thread_step.
  destruct (threads st !! h) as [t|] eqn:Ht; [|contradiction].
  assert (Hlt : (h < length (threads st))%nat) by (eapply lookup_lt_Some; eassumption).
  destruct t as [|daemons [|p todo]|[|p todo]|]; simpl;
    (split; [exact Hself|]); cbn [threads calls panels];
    rewrite list_lookup_insert_eq by assumption.
  - destruct Hp as [Hpan Hc]. split.
    + unfold daemons_of. rewrite Hself. apply list_filter_iff. intros p.
      unfold is_daemon. now rewrite Hpan.
    + exists []. split; [reflexivity|]. unfold stops. simpl. now rewrite app_nil_r.
  - destruct Hp as (-> & d & Hd & Hc). exists []. rewrite app_nil_r in Hd. subst d.
    split; [reflexivity|]. unfold joins. simpl. now rewrite app_nil_r.
  - destruct Hp as (-> & d & Hd & Hc). split; [reflexivity|].
    exists (d ++ [p]). split; [now rewrite <- app_assoc|].
    rewrite Hc. unfold stops. now rewrite map_app, app_assoc.
  - destruct Hp as (d & Hd & Hc). rewrite app_nil_r in Hd. subst d. exact Hc.
  - destruct Hp as (d & Hd & Hc). exists (d ++ [p]). split; [now rewrite <- app_assoc|].
    rewrite Hc. unfold joins. now rewrite map_app, <- !app_assoc.
  - exact Hp.
Qed.

Lemma halt_progress_run (st0 : state) (h : nat) (n : nat) (st : state) :
  halt_progress st0 h st -> halt_progress st0 h (thread_run n h st).
Proof.
  revert st; induction n as [|n IH]; intros st Hp; [exact Hp|].
  simpl. apply IH. now apply halt_progress_step.
Qed.

(** The calls of a thread on its way: some first [stop()]s, and [join()]s
    only once every [stop()] is made. *)
Lemma halt_progress_order (st0 : state) (h : nat) (st : state) :
  halt_progress st0 h st ->
  exists stopped joined rest_s rest_j,
    daemons_of st0 = stopped ++ rest_s /\ daemons_of st0 = joined ++ rest_j
    /\ calls st = calls st0 ++ stops stopped ++ joins joined
    /\ (joined <> [] -> rest_s = []).
Proof.
  intros [_ Hp]. destruct (threads st !! h) as [[|daemons todo|todo|]|]; [| | | |contradiction].
  - destruct Hp as [_ Hc]. exists [], [], (daemons_of st0), (daemons_of st0).
    repeat split; [now rewrite Hc, app_nil_r|congruence].
  - destruct Hp as (-> & d & Hd & Hc). exists d, [], todo, (daemons_of st0).
    repeat split; [assumption|now rewrite Hc, app_nil_r|congruence].
  - destruct Hp as (d & Hd & Hc). exists (daemons_of st0), d, [], todo.
    repeat split; [now rewrite app_nil_r|assumption|assumption].
  - exists (daemons_of st0), (daemons_of st0), [], [].
    repeat split; [now rewrite app_nil_r|now rewrite app_nil_r|assumption].
Qed.

Lemma halt_progress_completed (st0 : state) (h : nat) (st : state) :
  halt_progress st0 h st -> completed h st = true ->
  calls st = calls st0 ++ stops (daemons_of st0) ++ joins (daemons_of st0).
Proof.
  intros [_ Hp]. unfold completed.
  destruct (threads st !! h) as [[| | |]|]; try discriminate. now intros _.
Qed.

(** *** The thread runs to its end *)

Lemma thread_run_add (n m h : nat) (st : state) :
  thread_run (n + m) h st = thread_run m h (thread_run n h st).
Proof. revert st; induction n as [|n IH]; intros st; [reflexivity|]. simpl. apply IH. Qed.

Lemma thread_run_stops (h : nat) (daemons todo : list nat) (st : state) :
  threads st !! h = Some (T_stop daemons todo) ->
  threads (thread_run (length todo) h st) !! h = Some (T_stop daemons []).
Proof.
  revert st; induction todo as [|p todo IH]; intros st Ht; [exact Ht|].
  simpl. apply IH. unfold thread_step. rewrite Ht. simpl.
  apply list_lookup_insert_eq. eapply lookup_lt_Some; eassumption.
Qed.

Lemma thread_run_joins (h : nat) (todo : list nat) (st : state) :
  threads st !! h = Some (T_join todo) ->
  threads (thread_run (length todo) h st) !! h = Some (T_join []).
Proof.
  revert st; induction todo as [|p todo IH]; intros st Ht; [exact Ht|].
  simpl. apply IH. unfold thread_step. rewrite Ht. simpl.
  apply list_lookup_insert_eq. eapply lookup_lt_Some; eassumption.
Qed.

Lemma thread_step_from (h : nat) (t : thread) (st : state) :
  threads st !! h = Some t ->
  threads (thread_step h st) !! h
  = Some match t with
         | T_start => T_stop (daemons_of st) (daemons_of st)
         | T_stop daemons [] => T_join daemons
         | T_stop daemons (_ :: todo) => T_stop daemons todo
         | T_join [] => T_done
         | T_join (_ :: todo) => T_join todo
         | T_done => T_done
         end.
Proof.
  intros Ht. unfold thread_step. rewrite Ht.
  assert (Hlt : (h < length (threads st))%nat) by (eapply lookup_lt_Some; eassumption).
  destruct t as [|daemons [|p todo]|[|p todo]|]; simpl;
    now rewrite list_lookup_insert_eq.
Qed.

(** After [2 * n + 3] steps, for [n] daemons, the thread is done. *)
Lemma thread_run_completes (st : state) :
  let h := length (threads st) in
  completed h (thread_run (2 * length (daemons_of st) + 3) h (halt st).1) = true.
Proof.
  intros h. set (n := length (daemons_of st)).
  replace (2 * n + 3)%nat with (1 + (n + (1 + (n + 1))))%nat by lia.
  rewrite !thread_run_add.
  assert (H0 : threads (halt st).1 !! h = Some T_start).
  { simpl. subst h. rewrite lookup_app_r by lia. now rewrite Nat.sub_diag. }
  set (st1 := thread_run 1 h (halt st).1).
  assert (H1 : threads st1 !! h = Some (T_stop (daemons_of st) (daemons_of st))).
  { subst st1. simpl. rewrite (thread_step_from h T_start) by assumption.
    do 2 f_equal; unfold daemons_of; simpl; apply list_filter_iff; intros p; reflexivity. }
  set (st2 := thread_run n h st1).
  assert (H2 : threads st2 !! h = Some (T_stop (daemons_of st) [])).
  { subst st2 n. now apply thread_run_stops. }
  set (st3 := thread_run 1 h st2).
  assert (H3 : threads st3 !! h = Some (T_join (daemons_of st))).
  { subst st3. simpl. now rewrite (thread_step_from h _ st2 H2). }
  set (st4 := thread_run n h st3).
  assert (H4 : threads st4 !! h = Some (T_join [])).
  { subst st4 n. now apply thread_run_joins. }
  simpl. unfold completed. now rewrite (thread_step_from h _ st4 H4).
Qed.

End Classes.

(** *** Counting calls *)

Lemma count_call_app (panel : nat) (c : pcall) (l1 l2 : list (nat * pcall)) :
  count_call panel c (l1 ++ l2) = (count_call panel c l1 + count_call panel c l2)%nat.
Proof. unfold count_call. now rewrite filter_app, length_app. Qed.

Lemma count_call_other (panel : nat) (c c' : pcall) (l : list nat) :
  c <> c' -> count_call panel c (map (fun p => (p, c')) l) = 0%nat.
Proof.
  intros Hne. unfold count_call. induction l as [|p l IH]; [reflexivity|].
  simpl. rewrite filter_cons. destruct (decide _) as [[_ Hc]|]; [|assumption].
  simpl in Hc. congruence.
Qed.

Lemma count_call_once (panel : nat) (c : pcall) (l : list nat) :
  NoDup l -> panel ∈ l -> count_call panel c (map (fun p => (p, c)) l) = 1%nat.
Proof.
  unfold count_call. induction l as [|p l IH]; intros Hnd Hin; [inversion Hin|].
  apply NoDup_cons in Hnd as [Hp Hnd]. simpl. rewrite filter_cons.
  destruct (decide _) as [[Hpp _]|Hn]; simpl in *.
  - subst p. simpl. f_equal.
    clear IH Hin. induction l as [|q l IH]; [reflexivity|].
    simpl. rewrite filter_cons. destruct (decide _) as [[Hq _]|]; simpl in *.
    + subst q. exfalso. apply Hp. apply elem_of_cons. now left.
    + apply IH.
      * intros Hin. apply Hp. apply elem_of_cons. now right.
      * now apply NoDup_cons in Hnd as [_ ?].
  - apply IH; [assumption|].
    apply elem_of_cons in Hin as [->|Hin]; [|assumption].
    exfalso. apply Hn. now split.
Qed.

End HaltFacts.

Module ControllerClaims.
Import Interface InterfaceViews InterfaceFacts VisibilityFacts ConstructorFacts HaltFacts.

Lemma sample_state_built :
  @Interface_init nyx_classes all_pages state0 = (sample_state, Ok ()).
Proof. vm_compute. reflexivity. Qed.

Lemma sample_state_NoDup : NoDup (iter (self sample_state)).
Proof.
  pose proof (@Interface_init_outcome nyx_classes all_pages state0) as H.
  rewrite sample_state_built in H. tauto.
Qed.

(** C3: for a page number within [0, page_count()), [set_page] returns
    and [get_page] then gives that number; for any other integer
    [set_page] raises [ValueError] and the whole state, the page with it,
    is what it was. *)
Theorem set_page_then_get_page (page_number count : Z) (st : state) :
  page_count st = (st, Ok count) ->
  (0 <= page_number < count ->
   exists st', set_page page_number st = (st', Ok ())
               /\ get_page st' = (st', Ok page_number))
  /\ (~ (0 <= page_number < count) ->
      set_page page_number st
      = (st, Raise (ValueError ("Invalid page number: " +:+ PyStr.of_Z page_number)))
      /\ get_page (set_page page_number st).1 = get_page st).
Proof.
  intros Hc. unfold page_count, bind, get_self, ret in Hc. simpl in Hc.
  injection Hc as <-. split.
  - intros Hr. destruct (decide (page_number = _page (self st))) as [->|Hne].
    + exists st. rewrite set_page_same by assumption. split; reflexivity.
    + destruct (py_index_in_range _ _ Hr) as (page & _ & Hpage).
      rewrite (set_page_change page_number st page Hr Hne Hpage).
      eexists. split; reflexivity.
  - intros Hr. rewrite (set_page_invalid page_number st Hr). split; reflexivity.
Qed.

Lemma set_page_then_get_page_witness :
  (exists st', set_page 2 sample_state = (st', Ok ()) /\ get_page st' = (st', Ok 2))
  /\ set_page 5 sample_state = (sample_state, Raise (ValueError "Invalid page number: 5"))
  /\ set_page (-1) sample_state = (sample_state, Raise (ValueError "Invalid page number: -1")).
Proof.
  split; [|split].
  - apply (proj1 (set_page_then_get_page 2 5 sample_state eq_refl)). lia.
  - apply (proj2 (set_page_then_get_page 5 5 sample_state eq_refl)). lia.
  - apply (proj2 (set_page_then_get_page (-1) 5 sample_state eq_refl)). lia.
Defined.

(** C6: the flag of every surface of the controller says whether the
    surface is the header or on the active page.  The constructor
    establishes this whenever it returns, and it returns unless no page is
    enabled, in which case it raises [IndexError]; every operation of the
    controller and every step of a thread it started keeps it, and so does
    any sequence of them; after [set_page] to a valid page the flags are
    those of the new page. *)
Theorem visibility_invariant `{PanelClasses} :
  (forall CONFIG st,
     match Interface_init CONFIG st with
     | (st', Ok _) => CONFIG <> no_pages /\ visibility_consistent st'
     | (_, Raise e) => CONFIG = no_pages /\ e = IndexError
     end)
  /\ (forall o st, visibility_consistent st -> visibility_consistent (run_op o st))
  /\ (forall ops st, visibility_consistent st ->
        visibility_consistent (fold_left (fun s o => run_op o s) ops st))
  /\ (forall page_number st,
        visibility_consistent st ->
        0 <= page_number < Z.of_nat (length (_page_panels (self st))) ->
        let st' := (set_page page_number st).1 in
        _page (self st') = page_number
        /\ forall panel, panel ∈ iter (self st') ->
             vis_of (panels st') panel
             = Some (bool_decide (panel = _header_panel (self st')
                                  \/ panel ∈ active_page (self st')))).
Proof.
  split; [|split; [|split]].
  - intros CONFIG st. pose proof (Interface_init_outcome CONFIG st) as Ho.
    destruct (Interface_init CONFIG st) as [st' [[]|e]]; tauto.
  - intros o st. apply run_op_consistent.
  - intros ops. induction ops as [|o ops IH]; intros st Hinv; [exact Hinv|].
    simpl. apply IH. now apply run_op_consistent.
  - intros page_number st Hinv Hr st'.
    pose proof (set_page_consistent page_number st Hinv) as [_ Hall]. fold st' in Hall.
    split.
    + subst st'. destruct (decide (page_number = _page (self st))) as [->|Hne].
      * now rewrite set_page_same.
      * destruct (py_index_in_range _ _ Hr) as (page & _ & Hpage).
        now rewrite (set_page_change page_number st page Hr Hne Hpage).
    + intros panel Hin. destruct (Hall panel Hin) as (o & Ho & Hv).
      unfold vis_of. rewrite Ho. simpl. now rewrite Hv.
Qed.

Lemma visibility_invariant_witness :
  visibility_consistent sample_state
  /\ visibility_consistent (@run_op nyx_classes (OpSetPage 2) sample_state)
  /\ vis_of (panels (set_page 2 sample_state).1) 4 = Some true
  /\ vis_of (panels (set_page 2 sample_state).1) 1 = Some false.
Proof.
  destruct (@visibility_invariant nyx_classes) as (Hinit & Hop & _ & Hset).
  specialize (Hinit all_pages state0). rewrite sample_state_built in Hinit.
  destruct Hinit as [_ Hinv].
  split; [exact Hinv|]. split; [apply Hop, Hinv|].
  destruct (Hset 2 sample_state Hinv ltac:(vm_compute; split; congruence)) as [_ Hvis].
  split.
  - rewrite (Hvis 4%nat) by (vm_compute; repeat constructor). vm_compute. reflexivity.
  - rewrite (Hvis 1%nat) by (vm_compute; repeat constructor). vm_compute. reflexivity.
Defined.

(** C8: [set_paused(p)] on a controller whose paused state is already
    [p] changes nothing: no surface is told, none is redrawn.  A second
    call with the same argument is therefore without effect, whatever the
    first one did; when the first call changes the state, the two calls
    together tell every surface once, in the controller's order, and
    then only redraw. *)
Theorem set_paused_idempotent (is_pause : bool) (st : state) :
  (_paused (self st) = is_pause -> set_paused is_pause st = (st, Ok ()))
  /\ set_paused is_pause (set_paused is_pause st).1 = ((set_paused is_pause st).1, Ok ())
  /\ (_paused (self st) <> is_pause ->
      let st2 := (set_paused is_pause (set_paused is_pause st).1).1 in
      exists redraws,
        calls st2
        = calls st ++ map (fun p => (p, SetPaused is_pause)) (iter (self st)) ++ redraws
        /\ Forall (fun e => e.2 = Redraw) redraws
        /\ (NoDup (iter (self st)) ->
            forall panel, panel ∈ iter (self st) ->
              count_call panel (SetPaused is_pause) (calls_since (length (calls st)) st2)
              = 1%nat)).
Proof.
  assert (Hp : _paused (self (set_paused is_pause st).1) = is_pause).
  { destruct (decide (_paused (self st) = is_pause)) as [He|Hne].
    - now rewrite set_paused_unchanged.
    - rewrite set_paused_change by assumption. cbv zeta.
      now destruct (py_index _ _). }
  split; [apply set_paused_unchanged|]. split; [now apply set_paused_unchanged|].
  intros Hne. cbv zeta. rewrite (set_paused_unchanged _ _ Hp). cbn [fst].
  assert (Hshape : exists redraws,
            calls (set_paused is_pause st).1
            = calls st ++ map (fun p => (p, SetPaused is_pause)) (iter (self st)) ++ redraws
            /\ Forall (fun e => e.2 = Redraw) redraws).
  { rewrite set_paused_change by assumption. cbv zeta.
    destruct (py_index _ _) as [page|e]; cbn [fst calls].
    - exists (map (fun p => (p, Redraw)) (_header_panel (self st) :: page)).
      split; [now rewrite <- app_assoc|].
      apply Forall_forall. intros e He. apply list_elem_of_fmap in He as (p & -> & _).
      reflexivity.
    - exists []. split; [now rewrite app_nil_r|constructor]. }
  destruct Hshape as (redraws & Hcalls & Hred). exists redraws.
  split; [exact Hcalls|]. split; [exact Hred|].
  intros Hnd panel Hin. unfold calls_since. rewrite Hcalls, drop_app_length.
  rewrite count_call_app, (count_call_once _ _ _ Hnd Hin).
  replace (count_call panel (SetPaused is_pause) redraws) with 0%nat; [reflexivity|].
  symmetry. unfold count_call. clear -Hred.
  induction redraws as [|e redraws IH]; [reflexivity|].
  apply Forall_cons in Hred as [He Hred]. rewrite filter_cons.
  destruct (decide _) as [[_ Hc]|]; [congruence|now apply IH].
Qed.

Lemma set_paused_idempotent_witness :
  set_paused true (set_paused true sample_state).1 = ((set_paused true sample_state).1, Ok ())
  /\ count_call 3 (SetPaused true)
       (calls_since (length (calls sample_state))
          (set_paused true (set_paused true sample_state).1).1) = 1%nat.
Proof.
  destruct (set_paused_idempotent true sample_state) as (_ & Htwice & Honce).
  split; [exact Htwice|].
  destruct (Honce ltac:(discriminate)) as (redraws & _ & _ & Hcount).
  apply Hcount; [exact sample_state_NoDup|vm_compute; repeat constructor].
Defined.

(** C9: [halt()] hands back its thread at once: no [stop()], no [join()]
    has been called and the thread is not complete.  While the thread
    runs, it has called [stop()] on a first part of the daemons and
    [join()] on a first part of them, and [join()] on none before
    [stop()] was called on all.  The thread completes, and when it has,
    the calls since [halt()] are [stop()] on every daemon, then [join()]
    on every daemon: one of each for every daemon of a controller whose
    panels are distinct. *)
Theorem halt_stops_all_then_joins_all `{PanelClasses} (st : state) :
  let h := length (threads st) in
  let running := fun n => thread_run n h (halt st).1 in
  (halt st).2 = Ok h
  /\ calls (halt st).1 = calls st
  /\ completed h (halt st).1 = false
  /\ (forall n, exists stopped joined rest_s rest_j,
        daemons_of st = stopped ++ rest_s /\ daemons_of st = joined ++ rest_j
        /\ calls (running n) = calls st ++ stops stopped ++ joins joined
        /\ (joined <> [] -> rest_s = []))
  /\ completed h (running (2 * length (daemons_of st) + 3)%nat) = true
  /\ (forall n, completed h (running n) = true ->
        calls (running n) = calls st ++ stops (daemons_of st) ++ joins (daemons_of st)
        /\ (NoDup (iter (self st)) ->
            forall panel, panel ∈ daemons_of st ->
              count_call panel Stop (calls_since (length (calls st)) (running n)) = 1%nat
              /\ count_call panel Join (calls_since (length (calls st)) (running n)) = 1%nat)).
Proof.
  intros h running.
  split; [reflexivity|]. split; [reflexivity|]. split.
  { unfold completed. simpl. subst h. rewrite lookup_app_r by lia.
    now rewrite Nat.sub_diag. }
  split.
  { intros n. apply (halt_progress_order st h).
    apply halt_progress_run, halt_progress_start. }
  split; [apply thread_run_completes|].
  intros n Hdone.
  pose proof (halt_progress_completed st h (running n)
                (halt_progress_run st h n _ (halt_progress_start st)) Hdone) as Hcalls.
  split; [exact Hcalls|].
  intros Hnd panel Hin.
  assert (Hnd' : NoDup (daemons_of st)) by (unfold daemons_of; now apply NoDup_filter).
  unfold calls_since. rewrite Hcalls, drop_app_length. unfold stops, joins.
  rewrite !count_call_app, !(count_call_once _ _ _ Hnd' Hin).
  rewrite !count_call_other by discriminate. split; reflexivity.
Qed.

Lemma halt_stops_all_then_joins_all_witness :
  count_call 2 Stop (calls_since (length (calls sample_state))
                       (@thread_run nyx_classes 9 0 (halt sample_state).1)) = 1%nat
  /\ count_call 2 Join (calls_since (length (calls sample_state))
                          (@thread_run nyx_classes 9 0 (halt sample_state).1)) = 1%nat.
Proof.
  destruct (@halt_stops_all_then_joins_all nyx_classes sample_state)
    as (_ & _ & _ & _ & _ & Hdone).
  destruct (Hdone 9%nat ltac:(vm_compute; reflexivity)) as [_ Hcount].
  apply Hcount; [exact sample_state_NoDup|vm_compute; repeat constructor].
Defined.

End ControllerClaims.

(** ** More on [util.py] *)

Module UtilMoreFacts.
Import Curses Util Markup Samples UtilMore PyStrFacts MarkupFacts StackFacts MarkupStep
  MarkupExample.

(** *** Size labels *)

(** The label of [getSizeLabel] is a number and a unit: the largest unit
    of 1024^3, 1024^2, 1024 that the count reaches, else bytes; the number
    is the count in that unit rounded down, so it is at least 1 for the
    three large units and below 1024 for KB and MB. *)
Theorem getSizeLabel_floor (bytes : Z) :
  exists n unit suffix,
    (unit, suffix) ∈ size_units
    /\ getSizeLabel bytes = (PyStr.of_Z n +:+ suffix)%string
    /\ n * unit <= bytes < (n + 1) * unit
    /\ (unit <> 1 -> 1 <= n)
    /\ (unit = 1024 \/ unit = 1048576 -> n < 1024)
    /\ (unit = 1 -> bytes < 1024).
Proof.
  unfold getSizeLabel, size_units.
  destruct (Z.geb_spec bytes 1073741824).
  { exists (bytes / 1073741824), 1073741824, " GB"%string.
    split; [repeat constructor|]. split; [reflexivity|].
    pose proof (Z.div_mod bytes 1073741824 ltac:(lia)).
    pose proof (Z.mod_pos_bound bytes 1073741824 ltac:(lia)).
    repeat split; try lia. }
  destruct (Z.geb_spec bytes 1048576).
  { exists (bytes / 1048576), 1048576, " MB"%string.
    split; [repeat constructor|]. split; [reflexivity|].
    pose proof (Z.div_mod bytes 1048576 ltac:(lia)).
    pose proof (Z.mod_pos_bound bytes 1048576 ltac:(lia)).
    repeat split; try lia. }
  destruct (Z.geb_spec bytes 1024).
  { exists (bytes / 1024), 1024, " KB"%string.
    split; [repeat constructor|]. split; [reflexivity|].
    pose proof (Z.div_mod bytes 1024 ltac:(lia)).
    pose proof (Z.mod_pos_bound bytes 1024 ltac:(lia)).
    repeat split; try lia. }
  exists bytes, 1, " bytes"%string.
  split; [repeat constructor|]. split; [reflexivity|]. repeat split; lia.
Qed.

Example getSizeLabel_examples :
  getSizeLabel 0 = "0 bytes"%string /\ getSizeLabel 1023 = "1023 bytes"%string
  /\ getSizeLabel 1024 = "1 KB"%string /\ getSizeLabel 7500 = "7 KB"%string
  /\ getSizeLabel 1048576 = "1 MB"%string /\ getSizeLabel 1073741824 = "1 GB"%string.
Proof. repeat split; reflexivity. Qed.

(** *** Colors *)

(** [initColors] takes effect once: a second call, whatever the terminal
    then answers about colors, changes nothing. *)
Theorem initColors_idempotent (first second : bool) (g : globals) :
  initColors second (initColors first g) = initColors first g.
Proof.
  assert (Hdone : forall g', COLOR_ATTR_INITIALIZED g' = true -> initColors second g' = g').
  { intros g' Hg. unfold initColors. now rewrite Hg. }
  apply Hdone. unfold initColors.
  destruct (COLOR_ATTR_INITIALIZED g) eqn:Hi; cbn [negb]; [exact Hi|].
  destruct first; [|reflexivity].
  match goal with
  | |- context [fold_left ?f COLOR_LIST ?a] => destruct (fold_left f COLOR_LIST a) as [cp ca]
  end.
  reflexivity.
Qed.

Lemma dict_get_None (k : string) (d : dict) : k ∉ keys d -> dict_get k d = None.
Proof.
  induction d as [|[k' v] d IH]; [reflexivity|].
  intros Hk. simpl. destruct (String.eqb_spec k k') as [->|Hne].
  - exfalso. apply Hk. apply elem_of_cons. now left.
  - apply IH. intros Hin. apply Hk. apply elem_of_cons. now right.
Qed.

(** After [initColors] on the module as loaded, the two tables agree:
    [getColor] knows exactly the colors of [COLOR_LIST], the tag of a
    color stands for the attribute [getColor] gives, and that attribute is
    the neutral one when the terminal has no colors and a color pair when
    it has; any other name is a [KeyError]. *)
Theorem initColors_tables_agree (has_colors : bool) (color : string) :
  let g := initColors has_colors globals0 in
  (color ∈ COLOR_LIST.*1 ->
   exists a, getColor g color = Ok a
             /\ dict_get (color_tag color) (g_FORMAT_TAGS g) = Some a
             /\ (if has_colors
                 then 1 <= Z.shiftr a 8 <= 8 /\ a = color_pair (Z.shiftr a 8)
                 else a = A_NORMAL))
  /\ (color ∉ COLOR_LIST.*1 -> getColor g color = Raise (KeyError color)).
Proof.
  intros g. split.
  - intros Hin. simpl in Hin. subst g.
    repeat (apply elem_of_cons in Hin as [->|Hin];
            [destruct has_colors; eexists;
             (split; [vm_compute; reflexivity|]);
             (split; [vm_compute; reflexivity|]);
             [split; [vm_compute; split; discriminate|vm_compute; reflexivity]
             |reflexivity]|]).
    inversion Hin.
  - intros Hnin. unfold getColor.
    rewrite dict_get_None; [reflexivity|].
    subst g. destruct has_colors; exact Hnin.
Qed.

Lemma getSizeLabel_floor_witness :
  exists n unit suffix,
    (unit, suffix) ∈ size_units
    /\ getSizeLabel 7500 = (PyStr.of_Z n +:+ suffix)%string
    /\ n * unit <= 7500 < (n + 1) * unit.
Proof.
  destruct (getSizeLabel_floor 7500) as (n & unit & suffix & H1 & H2 & H3 & _).
  exists n, unit, suffix. split; [exact H1|]. split; [exact H2|exact H3].
Defined.

Lemma initColors_tables_agree_witness :
  (exists a, getColor (initColors true globals0) "red" = Ok a
             /\ dict_get "<red>" (g_FORMAT_TAGS (initColors true globals0)) = Some a)
  /\ getColor (initColors true globals0) "purple" = Raise (KeyError "purple").
Proof.
  split.
  - destruct (proj1 (initColors_tables_agree true "red")) as (a & Ha & Ht & _).
    + vm_compute. repeat constructor.
    + exists a. split; [exact Ha|exact Ht].
  - apply (proj2 (initColors_tables_agree true "purple")).
    vm_compute. intros Hin.
    repeat (apply elem_of_cons in Hin as [Hin|Hin]; [discriminate Hin|]).
    inversion Hin.
Defined.

End UtilMoreFacts.

Module PanelLifeFacts.
Import Curses Util Markup Samples UtilMore PyStrFacts MarkupFacts StackFacts MarkupStep
  MarkupExample.

Lemma set_win_same (self : Panel) (w : window) :
  win self = Some w -> set_win (Some w) self = self.
Proof. intros H. destruct self; simpl in *. now subst. Qed.

(** *** Displaced panels *)

(** When [clear] finds the region above its configured top it erases
    nothing, and from then on [refresh], [addstr] and [addfstr] ask
    nothing of the platform: the panel they return is the one they got. *)
Theorem displaced_panel_is_left_alone (self : Panel) (w : window) (tags : dict)
    (y x : Z) (msg : string) (attr : Z) :
  win self = Some w ->
  startY self > (getparyx w).1 ->
  let p := clear self in
  win p = Some w
  /\ isDisplaced p = true
  /\ refresh p = p
  /\ addstr y x msg attr p = p
  /\ addfstr tags y x msg p = Some (p, Ok ()).
Proof.
  intros Hw Hgt p. subst p. unfold clear. rewrite Hw.
  destruct (Z.gtb_spec (startY self) (getparyx w).1); [|lia].
  unfold _resetBounds. simpl. rewrite Hw. simpl.
  unfold refresh, addstr, addfstr. simpl. rewrite Hw. simpl.
  rewrite !andb_false_r. repeat split.
Qed.

Lemma displaced_panel_is_left_alone_witness :
  let p := clear (mkPanel (Some (mkWindow (10, 80) (14, 0) [])) 20 (-1) false (-1) (-1)) in
  refresh p = p /\ addstr 0 0 "text" 0 p = p.
Proof.
  destruct (displaced_panel_is_left_alone
              (mkPanel (Some (mkWindow (10, 80) (14, 0) [])) 20 (-1) false (-1) (-1))
              (mkWindow (10, 80) (14, 0) []) FORMAT_TAGS 0 0 "text" 0
              eq_refl ltac:(simpl; lia)) as (_ & _ & Hr & Ha & _).
  split; assumption.
Defined.

(** When [clear] finds the region where it should be, the region is
    erased once, the cached bounds are those the region reports, and a
    [refresh] that follows flushes it. *)
Theorem clear_then_refresh_in_place (self : Panel) (w : window) :
  win self = Some w ->
  startY self <= (getparyx w).1 ->
  let p := refresh (clear self) in
  isDisplaced p = false
  /\ (maxY p, maxX p) = getmaxyx w
  /\ startY p = startY self /\ height p = height self
  /\ new_calls self p = Some [WErase; WRefresh].
Proof.
  intros Hw Hle p. subst p. unfold clear. rewrite Hw.
  destruct (Z.gtb_spec (startY self) (getparyx w).1); [lia|].
  unfold _resetBounds, refresh, new_calls. simpl. rewrite Hw. simpl.
  split; [reflexivity|]. split; [unfold getmaxyx; now destruct (win_maxyx w)|].
  split; [reflexivity|]. split; [reflexivity|].
  rewrite <- app_assoc, drop_app_length. reflexivity.
Qed.

Lemma clear_then_refresh_in_place_witness :
  new_calls sample_panel (refresh (clear sample_panel)) = Some [WErase; WRefresh].
Proof.
  apply (clear_then_refresh_in_place sample_panel sample_window eq_refl).
  simpl. lia.
Defined.

(** *** Laying out *)

(** A panel without a region never gets [False] from [recreate]: it asks
    the screen for a region and answers [True], or the error of the
    screen comes out. *)
Theorem recreate_without_region (stdscr : screen) (startY0 maxX0 : Z) (self : Panel) :
  win self = None ->
  -1 <= height self ->
  let r := recreate stdscr startY0 maxX0 self in
  startY r.1 = startY0
  /\ ((exists w, r.2 = Ok true /\ win r.1 = Some w)
      \/ (exists e, r.2 = Raise e /\ win r.1 = None)).
Proof.
  intros Hw Hh r. subst r. unfold recreate.
  destruct (scr_maxyx stdscr) as [y x].
  unfold _resetBounds. rewrite Hw. simpl. rewrite Hw. simpl.
  assert (Hcond : forall b1 b3 b4 (n : Z), 0 <= n ->
            b1 || (n >? -1) || b3 || b4 = true).
  { intros b1 b3 b4 n Hn. destruct (Z.gtb_spec n (-1)); [|lia].
    now rewrite orb_true_r. }
  destruct (Z.eqb_spec (height self) (-1)); simpl.
  - rewrite Hcond by lia.
    destruct (subwin stdscr _ _ _ 0) as [w'|ex]; simpl; eauto 8.
  - rewrite Hcond by lia.
    destruct (subwin stdscr _ _ _ 0) as [w'|ex]; simpl; eauto 8.
Qed.

Lemma recreate_without_region_witness :
  (recreate (plain_screen 24 80) 3 (-1) (Panel_init 5)).2 = Ok true
  /\ startY (recreate (plain_screen 24 80) 3 (-1) (Panel_init 5)).1 = 3.
Proof.
  destruct (recreate_without_region (plain_screen 24 80) 3 (-1) (Panel_init 5)
              eq_refl ltac:(simpl; lia)) as [Hs _].
  split; [reflexivity|exact Hs].
Defined.

(** When [recreate] answers [True], the region is the one the screen
    gave for a request that fits the screen from above: the height asked
    is not negative, within what is left below the top and within the
    preferred height; the top is on the screen's last row at most; the
    width is within the screen and within the limit given.  The configured
    top is the one asked for, even where the region sits higher. *)
Theorem recreate_request (stdscr : screen) (startY0 maxX0 : Z) (self self' : Panel) :
  -1 <= height self ->
  recreate stdscr startY0 maxX0 self = (self', Ok true) ->
  exists h c top w',
    subwin stdscr h c top 0 = Ok w'
    /\ win self' = Some w'
    /\ startY self' = startY0
    /\ isDisplaced self' = isDisplaced self
    /\ h = wanted_height (scr_maxyx stdscr).1 startY0 (height self)
    /\ 0 <= h /\ (height self <> -1 -> h <= height self)
    /\ top = Z.min startY0 ((scr_maxyx stdscr).1 - 1)
    /\ top + h <= Z.max (scr_maxyx stdscr).1 (top + 0)
    /\ c <= (scr_maxyx stdscr).2 /\ (maxX0 <> -1 -> c <= maxX0).
Proof.
  intros Hh. unfold recreate, wanted_height.
  destruct (scr_maxyx stdscr) as [y x]. cbn [fst snd].
  destruct (bool_decide _ && (startY0 >? y)); [intros [= _ ?]; discriminate|].
  match goal with |- context [if ?c then _ else (_, Ok false)] => destruct c end;
    [|intros [= _ ?]; discriminate].
  match goal with |- context [subwin stdscr ?h ?c ?t 0] =>
    destruct (subwin stdscr h c t 0) as [w'|ex] eqn:Hs; [|discriminate];
    intros [= <-]; exists h, c, t, w' end.
  split; [exact Hs|]. split; [reflexivity|]. split; [reflexivity|].
  split; [unfold _resetBounds; now destruct (win self)|].
  assert (Hheight : height (_resetBounds self) = height self)
    by (unfold _resetBounds; now destruct (win self)).
  rewrite Hheight.
  destruct (Z.eqb_spec (height self) (-1)); cbn [negb];
    (split; [reflexivity|]); destruct (Z.eqb_spec maxX0 (-1)); cbn [negb]; lia.
Qed.

Lemma recreate_request_witness :
  exists h c top w',
    subwin (plain_screen 24 80) h c top 0 = Ok w' /\ h = 5 /\ top = 3 /\ c <= 80.
Proof.
  destruct (recreate_request (plain_screen 24 80) 3 (-1) (Panel_init 5)
              (recreate (plain_screen 24 80) 3 (-1) (Panel_init 5)).1
              ltac:(simpl; lia) eq_refl)
    as (h & c & top & w' & Hs & _ & _ & _ & Hh & _ & _ & Ht & _ & Hc & _).
  exists h, c, top, w'. split; [exact Hs|].
  split; [exact Hh|]. split; [exact Ht|exact Hc].
Defined.

(** A layout asked twice is done once: after [recreate] has answered
    [True] on a panel that is not displaced, and the screen gave a region
    at least as high as asked and as wide as the limit, the same call
    again answers [False] and only reads the bounds of the region. *)
Theorem recreate_settles (stdscr : screen) (startY0 maxX0 : Z) (self self1 : Panel)
    (w1 : window) :
  recreate stdscr startY0 maxX0 self = (self1, Ok true) ->
  win self1 = Some w1 ->
  isDisplaced self = false ->
  wanted_height (scr_maxyx stdscr).1 startY0 (height self) <= (getmaxyx w1).1 ->
  maxX0 = -1 \/ (getmaxyx w1).2 = maxX0 ->
  recreate stdscr startY0 maxX0 self1 = (set_bounds (getmaxyx w1) self1, Ok false).
Proof.
  intros Hr Hw1 Hd Hh Hx.
  assert (Hfields : startY self1 = startY0 /\ height self1 = height self
                    /\ isDisplaced self1 = false).
  { revert Hr. unfold recreate. destruct (scr_maxyx stdscr) as [y x].
    destruct (bool_decide _ && (startY0 >? y)); [intros [= _ ?]; discriminate|].
    match goal with |- context [if ?c then _ else (_, Ok false)] => destruct c end;
      [|intros [= _ ?]; discriminate].
    match goal with |- context [subwin stdscr ?h ?c ?t 0] =>
      destruct (subwin stdscr h c t 0) as [w'|ex]; [|discriminate] end.
    intros [= <-]. unfold _resetBounds. destruct (win self); simpl; auto. }
  destruct Hfields as (Hs & Hhe & Hd1).
  unfold recreate, wanted_height in *. destruct (scr_maxyx stdscr) as [y x].
  cbn [fst snd] in *.
  unfold _resetBounds. rewrite Hw1. cbn [win set_bounds startY height isDisplaced maxY maxX].
  rewrite Hw1, Hs, Hhe, Hd1.
  rewrite bool_decide_eq_true_2 by eauto. cbn [andb].
  destruct (Z.gtb_spec startY0 y); [reflexivity|].
  rewrite Z.eqb_refl. cbn [negb orb].
  destruct (Z.eqb_spec (height self) (-1)); cbn [negb];
    (match goal with |- context [?n >? (getmaxyx w1).1] =>
       destruct (Z.gtb_spec n (getmaxyx w1).1); [lia|] end);
    cbn [orb];
    (destruct Hx as [->|Hx];
     [now rewrite andb_false_r
     |rewrite Hx, Z.eqb_refl; reflexivity]).
Qed.

Lemma recreate_settles_witness :
  let p1 := (recreate (plain_screen 24 80) 3 (-1) (Panel_init 5)).1 in
  (recreate (plain_screen 24 80) 3 (-1) p1).2 = Ok false.
Proof.
  intros p1.
  rewrite (recreate_settles (plain_screen 24 80) 3 (-1) (Panel_init 5) p1
             (mkWindow (5, 80) (3, 0) []) eq_refl eq_refl eq_refl
             ltac:(vm_compute; discriminate) ltac:(left; reflexivity)).
  reflexivity.
Defined.

End PanelLifeFacts.

Module MarkupMoreFacts.
Import Curses Util Markup UtilMore Refusing PyStrFacts MarkupFacts RefusalFacts Samples.

(** *** Where [addfstr] writes *)

(** One turn of the loop issues one write, on row [y], from the cursor,
    clipped before the last column; the cursor does not go back. *)
Lemma addfstr_body_write (tags : dict) (y maxX0 : Z) (st : fstate) :
  loop_cond maxX0 st = true ->
  exists s a,
    write_within y (f_x st) maxX0 (WAddstr y (f_x st) s a)
    /\ match addfstr_body tags y maxX0 st with
       | Next st' => f_win st' = call (WAddstr y (f_x st) s a) (f_win st)
                     /\ f_x st <= f_x st'
       | Raised _ w => w = call (WAddstr y (f_x st) s a) (f_win st)
       end.
Proof.
  intros Hc. apply andb_prop in Hc as [Hx _].
  destruct (Z.gtb_spec maxX0 (f_x st)) as [Hlt|]; [clear Hx|discriminate].
  unfold addfstr_body.
  destruct (next_tag (keys tags ++ expectedCloseTags st) (f_msg st)) as [nt i].
  assert (Hw : forall seg a, write_within y (f_x st) maxX0
                 (WAddstr y (f_x st) (PyStr.slice_to (maxX0 - f_x st - 1) seg) a)).
  { intros seg a. simpl. rewrite len_slice_to by lia.
    pose proof (len_nonneg seg). lia. }
  destruct (tag_found nt) as [t|].
  - exists (PyStr.slice_to (maxX0 - f_x st - 1) (PyStr.slice_to i (f_msg st))),
           (union_attr (formatting st)).
    split; [apply Hw|].
    pose proof (len_nonneg (PyStr.slice_to i (f_msg st))).
    destruct (negb (PyStr.startswith "</" t)).
    + destruct (dict_get t tags); simpl; [split; [reflexivity|lia]|reflexivity].
    + destruct (list_remove t (expectedCloseTags st)); [|reflexivity].
      destruct (dict_get _ tags); [|reflexivity].
      destruct (list_remove _ (formatting st)); simpl; [split; [reflexivity|lia]|reflexivity].
  - exists (PyStr.slice_to (maxX0 - f_x st - 1) (f_msg st)), (union_attr (formatting st)).
    split; [apply Hw|]. simpl. split; [reflexivity|].
    pose proof (len_nonneg (f_msg st)). lia.
Qed.

Lemma write_within_mono (y x0 x1 width : Z) (c : wcall) :
  x0 <= x1 -> write_within y x1 width c -> write_within y x0 width c.
Proof. intros Hx. destruct c; simpl; [tauto|tauto|lia]. Qed.

(** The loop only adds writes to the region, all of them within bounds. *)
Lemma addfstr_loop_writes (tags : dict) (y maxX0 : Z) (fuel : nat) :
  forall st r, addfstr_loop fuel tags y maxX0 st = Some r ->
    exists cs,
      loop_window r = mkWindow (win_maxyx (f_win st)) (win_paryx (f_win st))
                        (win_calls (f_win st) ++ cs)
      /\ Forall (write_within y (f_x st) maxX0) cs.
Proof.
  induction fuel as [|fuel IH]; intros st r; simpl;
    destruct (loop_cond maxX0 st) eqn:Hc; try discriminate.
  - intros [= <-]. exists []. rewrite app_nil_r. split; [simpl; now destruct (f_win st)|constructor].
  - destruct (addfstr_body_write tags y maxX0 st Hc) as (s & a & Hw & Hb).
    destruct (addfstr_body tags y maxX0 st) as [st'|e w].
    + destruct Hb as [Hwin Hx]. intros Hl.
      destruct (IH _ _ Hl) as (cs & Hr & Hcs).
      exists (WAddstr y (f_x st) s a :: cs). split.
      * rewrite Hr, Hwin. unfold call. simpl. now rewrite <- app_assoc.
      * constructor; [assumption|].
        eapply Forall_impl; [exact Hcs|]. intros c. now apply write_within_mono.
    + intros [= <-]. subst w. exists [WAddstr y (f_x st) s a]. split; [reflexivity|].
      constructor; [assumption|constructor].
  - intros [= <-]. exists []. rewrite app_nil_r. split; [simpl; now destruct (f_win st)|constructor].
Qed.

(** Whatever the markup and the tag table, and also when the markup makes
    it raise, [addfstr] only adds writes to the region of the panel, and
    each of them is on row [y], starts at column [x] or later and ends
    before the last column of the panel; nothing else of the panel
    changes. *)
Theorem addfstr_writes_within (tags : dict) (y x : Z) (msg : string)
    (self p : Panel) (w : window) (r : result unit) :
  win self = Some w ->
  addfstr tags y x msg self = Some (p, r) ->
  exists cs,
    p = set_win (Some (mkWindow (win_maxyx w) (win_paryx w) (win_calls w ++ cs))) self
    /\ new_calls self p = Some cs
    /\ Forall (write_within y x (maxX self)) cs.
Proof.
  intros Hw. unfold addfstr. rewrite Hw.
  assert (Hnone : exists cs,
    self = set_win (Some (mkWindow (win_maxyx w) (win_paryx w) (win_calls w ++ cs))) self
    /\ new_calls self self = Some cs /\ Forall (write_within y x (maxX self)) cs).
  { exists []. rewrite app_nil_r. split; [|split; [|constructor]].
    - destruct self; simpl in *. rewrite Hw. now destruct w.
    - unfold new_calls. rewrite Hw. now rewrite drop_all. }
  destruct ((maxY self >? y) && negb (isDisplaced self)); [|now intros [= <- _]].
  destruct (addfstr_loop _ tags y (maxX self) _) as [lr|] eqn:Hl; [|discriminate].
  simpl. intros [= <- _].
  apply addfstr_loop_writes in Hl as (cs & Hr & Hcs). simpl in *.
  exists cs. rewrite Hr. split; [reflexivity|]. split; [|assumption].
  unfold new_calls. rewrite Hw. simpl. now rewrite drop_app_length.
Qed.

Lemma addfstr_writes_within_witness :
  exists cs,
    new_calls sample_panel
      (default (sample_panel, Ok ())
         (addfstr FORMAT_TAGS 2 70 "<b>status</b>: relay is up and running"
            sample_panel)).1 = Some cs
    /\ Forall (write_within 2 70 80) cs.
Proof.
  destruct (addfstr_writes_within FORMAT_TAGS 2 70 "<b>status</b>: relay is up and running"
              sample_panel
              (default (sample_panel, Ok ())
                 (addfstr FORMAT_TAGS 2 70 "<b>status</b>: relay is up and running"
                    sample_panel)).1
              sample_window
              (default (sample_panel, Ok ())
                 (addfstr FORMAT_TAGS 2 70 "<b>status</b>: relay is up and running"
                    sample_panel)).2
              eq_refl ltac:(vm_compute; reflexivity))
    as (cs & _ & Hn & Hcs).
  exists cs. split; [exact Hn|exact Hcs].
Defined.

(** *** Text without markup *)

Lemma next_tag_absent (l : list string) (msg : string) :
  (forall t, t ∈ l -> PyStr.find t msg = -1) -> next_tag l msg = (None, maxint).
Proof.
  induction l as [|t l IH] using rev_ind; intros H; [reflexivity|].
  rewrite next_tag_snoc, IH.
  - unfold scan_tag. rewrite (H t) by (apply elem_of_app; right; now left). reflexivity.
  - intros t' Ht'. apply H. apply elem_of_app. now left.
Qed.

(** On a text in which no tag of the table occurs, [addfstr] is [addstr]
    with the default attribute, but for the empty text, for which
    [addfstr] writes nothing at all. *)
Theorem addfstr_plain_text (tags : dict) (y x : Z) (msg : string) (self : Panel) :
  (forall t, t ∈ keys tags -> PyStr.find t msg = -1) ->
  addfstr tags y x msg self
  = Some (if PyStr.truthy msg then addstr y x msg A_NORMAL self else self, Ok ()).
Proof.
  intros Hfree. unfold addfstr, addstr.
  destruct (win self) as [w|] eqn:Hw; [|now destruct (PyStr.truthy msg)].
  assert (Hsame : set_win (Some w) self = self)
    by (destruct self; simpl in *; now rewrite Hw).
  destruct (Z.gtb_spec (maxY self) y); simpl;
    [|rewrite andb_false_r; now destruct (PyStr.truthy msg)].
  destruct (isDisplaced self); simpl;
    [rewrite andb_false_r; now destruct (PyStr.truthy msg)|].
  rewrite andb_true_r.
  destruct (PyStr.truthy msg) eqn:Ht.
  - apply truthy_len in Ht.
    unfold loop_cond at 1. cbn [f_x f_msg].
    destruct (Z.gtb_spec (maxX self) x); simpl.
    + destruct (Z.gtb_spec (PyStr.len msg) 0); [|lia].
      unfold addfstr_body. cbn [f_x f_msg expectedCloseTags formatting f_win].
      rewrite app_nil_r, next_tag_absent by assumption. cbn [tag_found].
      destruct (String.length msg) eqn:Hlen; [unfold PyStr.len in Ht; lia|].
      cbn [addfstr_loop]. unfold loop_cond. cbn [f_x f_msg PyStr.len String.length].
      rewrite andb_false_r. reflexivity.
    + now rewrite Hsame.
  - assert (Hl : PyStr.len msg = 0).
    { pose proof (len_nonneg msg) as Hn.
      destruct (Z.lt_trichotomy 0 (PyStr.len msg)) as [Hz|[Hz|Hz]];
        [apply truthy_len in Hz; congruence|congruence|lia]. }
    unfold loop_cond at 1. cbn [f_x f_msg]. rewrite Hl.
    rewrite andb_false_r. cbn. now rewrite Hsame.
Qed.

Lemma addfstr_plain_text_witness :
  addfstr FORMAT_TAGS 1 4 "less than < a tag" sample_panel
  = Some (addstr 1 4 "less than < a tag" A_NORMAL sample_panel, Ok ()).
Proof.
  apply (addfstr_plain_text FORMAT_TAGS 1 4 "less than < a tag" sample_panel).
  intros t Ht. vm_compute in Ht.
  repeat (apply elem_of_cons in Ht as [->|Ht]; [reflexivity|]).
  inversion Ht.
Defined.

(** *** The scan does not depend on the order of the table *)

Lemma prefix_both (a b s : string) :
  String.prefix a s = true -> String.prefix b s = true ->
  String.prefix a b = true \/ String.prefix b a = true.
Proof.
  revert b s; induction a as [|c a IH]; intros [|d b] [|e s]; simpl; auto; try discriminate.
  destruct (Ascii.ascii_dec c e) as [->|]; [|discriminate].
  destruct (Ascii.ascii_dec d e) as [->|]; [|discriminate].
  destruct (Ascii.ascii_dec e e); [|congruence]. apply IH.
Qed.

Lemma find_occurs (t msg : string) :
  0 <= PyStr.find t msg ->
  String.prefix t (PyStr.drop (Z.to_nat (PyStr.find t msg)) msg) = true.
Proof.
  unfold PyStr.find. destruct (PyStr.find_from t msg) as [i|] eqn:Hf; [|lia].
  intros _. rewrite Nat2Z.id. now apply find_from_occurs.
Qed.

Lemma prefix_freeb_spec (l all : list string) :
  prefix_freeb l all = true ->
  forall t t', t ∈ l -> t' ∈ all -> String.prefix t t' = true -> t = t'.
Proof.
  induction l as [|a l IH]; simpl; intros H t t' Ht Ht' Hp; [inversion Ht|].
  apply andb_prop in H as [Ha Hl].
  apply elem_of_cons in Ht as [->|Ht]; [|now apply (IH Hl t t')].
  rewrite forallb_forall in Ha.
  specialize (Ha t' ltac:(now apply list_elem_of_In)).
  rewrite Hp in Ha. simpl in Ha. now apply String.eqb_eq.
Qed.

(** The tags of [FORMAT_TAGS] and the closing tags of tags opened are a
    list in which no tag begins another one. *)
Lemma FORMAT_TAGS_prefix_free (has_colors : bool) (opened : list string) :
  let tags := g_FORMAT_TAGS (initColors has_colors globals0) in
  Forall (fun t => t ∈ keys tags) opened ->
  prefix_free (keys tags ++ (close_tag <$> opened)).
Proof.
  intros tags Hop.
  set (all := keys tags ++ (close_tag <$> keys tags)).
  assert (Hall : prefix_freeb all all = true) by (destruct has_colors; vm_compute; reflexivity).
  assert (Hsub : forall t, t ∈ keys tags ++ (close_tag <$> opened) -> t ∈ all).
  { intros t [Ht|Ht]%elem_of_app; apply elem_of_app; [now left|right].
    apply list_elem_of_fmap in Ht as (k & -> & Hk).
    apply list_elem_of_fmap. exists k. split; [reflexivity|].
    rewrite Forall_forall in Hop. now apply Hop. }
  intros t t' Ht Ht'. apply (prefix_freeb_spec all all Hall); now apply Hsub.
Qed.

(** [FORMAT_TAGS.keys()] comes in no order that the program controls.
    Where no tag of the list begins another one, the tag and the index
    that the scan yields are the same for every order of the list: two
    tags found at the same index would begin one another.  The tags of
    [FORMAT_TAGS] and their closing tags are such a list, so the scan of
    [addfstr] yields the same on every order of the keys, whichever
    closing tags are expected. *)
Theorem next_tag_order_free :
  (forall (l l' : list string) (msg : string),
     prefix_free l -> l ≡ₚ l' -> next_tag l msg = next_tag l' msg)
  /\ (forall (has_colors : bool) (opened l' : list string) (msg : string),
        let tags := g_FORMAT_TAGS (initColors has_colors globals0) in
        Forall (fun t => t ∈ keys tags) opened ->
        keys tags ++ (close_tag <$> opened) ≡ₚ l' ->
        next_tag (keys tags ++ (close_tag <$> opened)) msg = next_tag l' msg).
Proof.
  assert (Hgen : forall (l l' : list string) (msg : string),
            prefix_free l -> l ≡ₚ l' -> next_tag l msg = next_tag l' msg).
  { intros l l' msg Hpf Hperm.
    destruct (next_tag_spec l msg) as [Hmin Hres].
    destruct (next_tag_spec l' msg) as [Hmin' Hres'].
    destruct (next_tag l msg) as [nt i], (next_tag l' msg) as [nt' i']; simpl in *.
    destruct nt as [t|], nt' as [t'|].
    - destruct Hres as (Hin & -> & Hr), Hres' as (Hin' & -> & Hr').
      assert (Hin2 : t' ∈ l) by now rewrite Hperm.
      assert (Hin3 : t ∈ l') by now rewrite <- Hperm.
      assert (Heq : PyStr.find t msg = PyStr.find t' msg).
      { destruct (Hmin t' Hin2), (Hmin' t Hin3); lia. }
      assert (t = t'); [|now subst].
      pose proof (find_occurs t msg ltac:(lia)) as Hp.
      pose proof (find_occurs t' msg ltac:(lia)) as Hp'.
      rewrite Heq in Hp.
      destruct (prefix_both _ _ _ Hp Hp') as [H|H];
        [now apply Hpf|symmetry; now apply Hpf].
    - destruct Hres as (Hin & -> & Hr). subst i'.
      assert (Hin3 : t ∈ l') by now rewrite <- Hperm.
      destruct (Hmin' t Hin3); lia.
    - destruct Hres' as (Hin' & -> & Hr'). subst i.
      assert (Hin2 : t' ∈ l) by now rewrite Hperm.
      destruct (Hmin t' Hin2); lia.
    - now subst. }
  split; [exact Hgen|].
  intros has_colors opened l' msg tags Hop Hperm.
  apply Hgen; [|assumption]. now apply FORMAT_TAGS_prefix_free.
Qed.

Lemma next_tag_order_free_witness :
  next_tag ["<b>"; "<u>"; "</b>"]%string "x</b><u>"
  = next_tag ["</b>"; "<u>"; "<b>"]%string "x</b><u>"
  /\ next_tag (keys FORMAT_TAGS ++ ["</b>"%string]) "a</b><red>"
     = next_tag ("</b>"%string :: rev (keys FORMAT_TAGS)) "a</b><red>".
Proof.
  destruct next_tag_order_free as [Hgen Htags]. split.
  - apply (Hgen ["<b>"; "<u>"; "</b>"]%string ["</b>"; "<u>"; "<b>"]%string).
    + intros t t' Ht Ht' Hp.
      repeat (apply elem_of_cons in Ht as [->|Ht]);
        try (inversion Ht; fail);
        repeat (apply elem_of_cons in Ht' as [->|Ht']);
        try (inversion Ht'; fail);
        first [reflexivity|discriminate Hp].
    + apply (Permutation_rev ["<b>"; "<u>"; "</b>"]%string).
  - apply (Htags false ["<b>"%string] ("</b>"%string :: rev (keys FORMAT_TAGS)) "a</b><red>").
    + constructor; [vm_compute; repeat constructor|constructor].
    + change (keys (g_FORMAT_TAGS (initColors false globals0))) with (keys FORMAT_TAGS).
      change (close_tag <$> ["<b>"%string]) with ["</b>"%string].
      rewrite Permutation_app_comm. simpl. constructor. apply Permutation_rev.
Defined.

(** *** What [addfstr] can raise *)



(** A write from column [-3] is one that a platform refuses: the call
    raises there, where the model without refusals logs the write. *)
Example addfstr_refused_column :
  addfstr_on (inside 24 80) FORMAT_TAGS 0 (-3) "<b>foo</b>" sample_panel
  = Some (sample_panel, Raise CursesError)
  /\ exists self', addfstr FORMAT_TAGS 0 (-3) "<b>foo</b>" sample_panel = Some (self', Ok ()).
Proof. split; [vm_compute; reflexivity|eexists; vm_compute; reflexivity]. Qed.

Example addfstr_nested_duplicates :
  exists self', addfstr FORMAT_TAGS 0 0 "<b><b>foo</b></b>" sample_panel = Some (self', Ok ()).
Proof. eexists. vm_compute. reflexivity. Qed.

End MarkupMoreFacts.

Module JoinFacts.
Import Join PyStrFacts.

Lemma len_app (a b : string) : PyStr.len (a +:+ b) = PyStr.len a + PyStr.len b.
Proof.
  unfold PyStr.len. induction a as [|c a IH].
  - change (("" +:+ b)%string) with b. simpl. lia.
  - rewrite app_String. simpl String.length. lia.
Qed.

Lemma append_assoc (a b c : string) : ((a +:+ b) +:+ c = a +:+ (b +:+ c))%string.
Proof.
  induction a as [|x a IH]; [reflexivity|]. rewrite !app_String. now f_equal.
Qed.

Lemma str_join_snoc (joiner : string) (done : list string) (entry : string) :
  done <> [] ->
  str_join joiner (done ++ [entry]) = (str_join joiner done +:+ joiner +:+ entry)%string.
Proof.
  unfold str_join. induction done as [|a [|b done] IH]; intros Hne; [congruence| |].
  - simpl. reflexivity.
  - change (String.concat joiner ((a :: b :: done) ++ [entry]))
      with (a +:+ joiner +:+ String.concat joiner ((b :: done) ++ [entry]))%string.
    rewrite IH by discriminate.
    change (String.concat joiner (a :: b :: done))
      with (a +:+ joiner +:+ String.concat joiner (b :: done))%string.
    now rewrite !append_assoc.
Qed.

Lemma str_join_pair (joiner a b : string) :
  str_join joiner [a; b] = (a +:+ joiner +:+ b)%string.
Proof. reflexivity. Qed.

Lemma truthy_false (s : string) : PyStr.truthy s = false <-> s = EmptyString.
Proof.
  unfold PyStr.truthy. rewrite negb_false_iff. apply String.eqb_eq.
Qed.

(** The loop once something is joined: it goes on joining entries until
    one does not fit. *)
Lemma join_loop_from (joiner : string) (size : Z) (rest : list string) :
  forall done, done <> [] -> PyStr.truthy (str_join joiner done) = true ->
    exists k, (k <= length rest)%nat
      /\ join_loop joiner size (str_join joiner done) rest
         = str_join joiner (done ++ take k rest)
      /\ (k = length rest
          \/ PyStr.len (str_join joiner (done ++ take (S k) rest)) > size).
Proof.
  induction rest as [|e rest IH]; intros done Hne Ht.
  - exists 0%nat. simpl. rewrite app_nil_r. auto.
  - cbn [join_loop]. rewrite Ht, str_join_pair, <- str_join_snoc by assumption.
    destruct (Z.gtb_spec (PyStr.len (str_join joiner (done ++ [e]))) size) as [Hgt|Hle].
    + exists 0%nat. cbn [take length]. rewrite app_nil_r.
      split; [lia|]. split; [reflexivity|]. right. rewrite take_0. lia.
    + destruct (IH (done ++ [e])) as (k & Hk & Hr & Hmax).
      * now destruct done.
      * apply truthy_len. apply truthy_len in Ht.
        rewrite str_join_snoc, !len_app by assumption.
        pose proof (len_nonneg joiner). pose proof (len_nonneg e). lia.
      * exists (S k). cbn [take length]. rewrite <- !app_assoc in *. simpl in *.
        split; [lia|]. split; [exact Hr|]. destruct Hmax as [->|Hmax]; [now left|now right].
Qed.

(** With a limit, the result is never longer than the limit (and empty
    under a negative one). *)
Theorem join_within_size (entries : list string) (joiner : string) (size : Z) :
  PyStr.len (join entries joiner (Some size)) <= Z.max 0 size.
Proof.
  unfold join.
  assert (H : forall result, PyStr.len result <= Z.max 0 size ->
                PyStr.len (join_loop joiner size result entries) <= Z.max 0 size).
  { induction entries as [|e entries IH]; intros result Hr; [exact Hr|].
    cbn [join_loop].
    match goal with |- context [?n >? size] => destruct (Z.gtb_spec n size) end;
      [exact Hr|]. apply IH. lia. }
  apply H. change (PyStr.len "") with 0. lia.
Qed.

(** The loop from the start: empty entries are passed over, then
    [join_loop_from] applies. *)
Lemma join_loop_prefix (entries : list string) (joiner : string) (size : Z) :
  exists k, (k <= length (skip_empty entries))%nat
    /\ join entries joiner (Some size) = str_join joiner (take k (skip_empty entries))
    /\ (k = length (skip_empty entries)
        \/ PyStr.len (str_join joiner (take (S k) (skip_empty entries))) > size).
Proof.
  unfold join. induction entries as [|e entries IH].
  - exists 0%nat. simpl. auto.
  - cbn [join_loop skip_empty].
    change (PyStr.truthy "") with false. cbv iota.
    destruct (PyStr.truthy e) eqn:He.
    + destruct (Z.gtb_spec (PyStr.len e) size) as [Hgt|Hle].
      * exists 0%nat. cbn [take length]. split; [lia|]. split; [reflexivity|].
        right. rewrite take_0. simpl. lia.
      * destruct (join_loop_from joiner size entries [e]) as (k & Hk & Hr & Hmax);
          [discriminate|exact He|].
        exists (S k). cbn [take length]. simpl in Hr, Hmax.
        split; [lia|]. split; [exact Hr|]. destruct Hmax as [->|Hmax]; [now left|now right].
    + apply truthy_false in He. subst e. change (PyStr.len "") with 0.
      destruct (Z.gtb_spec 0 size) as [Hgt|Hle]; [|exact IH].
      exists 0%nat. split; [lia|]. split; [reflexivity|]. right.
      pose proof (len_nonneg (str_join joiner (take 1 (skip_empty entries)))). lia.
Qed.

Lemma str_join_take_len (joiner : string) (l : list string) (k : nat) :
  PyStr.len (str_join joiner (take k l)) <= PyStr.len (str_join joiner l).
Proof.
  unfold str_join. revert k; induction l as [|a l IH]; intros [|k]; simpl take;
    try (simpl; lia); try apply len_nonneg.
  specialize (IH k).
  destruct l as [|b l]; [destruct k; simpl; lia|].
  destruct k as [|k].
  - simpl take. change (String.concat joiner [a]) with a.
    change (String.concat joiner (a :: b :: l))
      with (a +:+ joiner +:+ String.concat joiner (b :: l))%string.
    rewrite !len_app. pose proof (len_nonneg joiner).
    pose proof (len_nonneg (String.concat joiner (b :: l))). lia.
  - change (take (S k) (b :: l)) with (b :: take k l) in *.
    change (String.concat joiner (a :: b :: take k l))
      with (a +:+ joiner +:+ String.concat joiner (b :: take k l))%string.
    change (String.concat joiner (a :: b :: l))
      with (a +:+ joiner +:+ String.concat joiner (b :: l))%string.
    rewrite !len_app. lia.
Qed.

(** The loop never returns more than fits, from a result that fits. *)
Lemma join_loop_fits (joiner : string) (size : Z) (entries : list string) :
  forall result, PyStr.len result <= Z.max 0 size ->
    PyStr.len (join_loop joiner size result entries) <= Z.max 0 size.
Proof.
  induction entries as [|e entries IH]; intros result Hr; [exact Hr|].
  cbn [join_loop].
  match goal with |- context [?n >? size] => destruct (Z.gtb_spec n size) end;
    [exact Hr|]. apply IH. lia.
Qed.

(** Joining more entries never gives a shorter string. *)
Lemma str_join_take_mono (joiner : string) (l : list string) (j k : nat) :
  (j <= k)%nat ->
  PyStr.len (str_join joiner (take j l)) <= PyStr.len (str_join joiner (take k l)).
Proof.
  intros Hjk. pose proof (str_join_take_len joiner (take k l) j) as H.
  rewrite take_take in H. now replace (j `min` k)%nat with j in H by lia.
Qed.

(** What [skip_empty] keeps begins with an entry that is not empty. *)
Lemma skip_empty_head (entries : list string) (e : string) (rest : list string) :
  skip_empty entries = e :: rest -> 0 < PyStr.len e.
Proof.
  induction entries as [|x entries IH]; [discriminate|].
  cbn [skip_empty]. destruct (PyStr.truthy x) eqn:Hx; [|exact IH].
  intros [= <- _]. now apply truthy_len.
Qed.

Lemma length_skip_empty (entries : list string) :
  (length (skip_empty entries) <= length entries)%nat.
Proof.
  induction entries as [|x entries IH]; [reflexivity|].
  cbn [skip_empty]. destruct (PyStr.truthy x); cbn [length]; lia.
Qed.

Lemma str_join_empty_cons (joiner y : string) (l : list string) :
  str_join joiner (EmptyString :: y :: l) = (joiner +:+ str_join joiner (y :: l))%string.
Proof. reflexivity. Qed.

Lemma len_zero (s : string) : PyStr.len s = 0 -> s = EmptyString.
Proof. destruct s; [reflexivity|]. unfold PyStr.len. simpl. lia. Qed.

(** Leading empty entries only add joiners. *)
Lemma len_join_skip_empty (joiner : string) (entries : list string) :
  PyStr.len (str_join joiner (skip_empty entries)) <= PyStr.len (str_join joiner entries).
Proof.
  induction entries as [|x entries IH]; [reflexivity|].
  cbn [skip_empty]. destruct (PyStr.truthy x) eqn:Hx; [reflexivity|].
  apply truthy_false in Hx. subst x.
  destruct entries as [|y l]; [reflexivity|].
  rewrite str_join_empty_cons, len_app. pose proof (len_nonneg joiner). lia.
Qed.

(** The join of all the entries is the join of the entries from the
    first one that is not empty in three cases only: the joiner is
    empty, no entry is skipped, or the only entry is the empty one. *)
Lemma str_join_skip_empty_iff (joiner : string) (entries : list string) :
  str_join joiner entries = str_join joiner (skip_empty entries)
  <-> joiner = EmptyString \/ skip_empty entries = entries \/ entries = [EmptyString].
Proof.
  induction entries as [|x entries IH]; [split; auto|].
  cbn [skip_empty]. destruct (PyStr.truthy x) eqn:Hx; [split; auto|].
  apply truthy_false in Hx. subst x.
  destruct entries as [|y l]; [split; auto|].
  rewrite str_join_empty_cons. split.
  - intros Heq. left. apply len_zero.
    apply (f_equal PyStr.len) in Heq. rewrite len_app in Heq.
    pose proof (len_join_skip_empty joiner (y :: l)).
    pose proof (len_nonneg joiner). lia.
  - intros [->|[Hs|Hs]]; [|exfalso|discriminate Hs].
    + change (("" +:+ str_join "" (y :: l))%string) with (str_join "" (y :: l)).
      apply IH. now left.
    + pose proof (length_skip_empty (y :: l)) as Hl. rewrite Hs in Hl.
      cbn [length] in Hl. lia.
Qed.

(** With a limit, the result is the join of the longest run of entries
    that fits, counted from the first entry that is not empty: the run
    returned fits in the limit, one entry more does not, and a run fits
    exactly when it is no longer than the one returned; under a negative
    limit nothing is joined.  Empty entries before anything is joined
    leave no joiner. *)
Theorem join_longest_prefix (entries : list string) (joiner : string) (size : Z) :
  exists k, (k <= length (skip_empty entries))%nat
    /\ join entries joiner (Some size) = str_join joiner (take k (skip_empty entries))
    /\ (k = length (skip_empty entries)
        \/ PyStr.len (str_join joiner (take (S k) (skip_empty entries))) > size)
    /\ (PyStr.len (str_join joiner (skip_empty entries)) <= size ->
        k = length (skip_empty entries))
    /\ (0 <= size -> PyStr.len (str_join joiner (take k (skip_empty entries))) <= size)
    /\ (0 <= size ->
        forall j, (j <= length (skip_empty entries))%nat ->
          (PyStr.len (str_join joiner (take j (skip_empty entries))) <= size
           <-> (j <= k)%nat))
    /\ (size < 0 -> k = 0%nat /\ join entries joiner (Some size) = EmptyString).
Proof.
  destruct (join_loop_prefix entries joiner size) as (k & Hk & Hr & Hmax).
  pose proof (join_loop_fits joiner size entries EmptyString) as Hfit.
  change (join_loop joiner size "" entries) with (join entries joiner (Some size)) in Hfit.
  change (PyStr.len "") with 0 in Hfit. specialize (Hfit ltac:(lia)). rewrite Hr in Hfit.
  exists k. split; [exact Hk|]. split; [exact Hr|]. split; [exact Hmax|].
  split.
  { intros Hall. destruct Hmax as [Hmax|Hmax]; [exact Hmax|].
    pose proof (str_join_take_len joiner (skip_empty entries) (S k)). lia. }
  split; [intros Hs; lia|].
  split.
  { intros Hs j Hj. split.
    - intros Hjfit. destruct (le_lt_dec j k) as [|Hlt]; [assumption|exfalso].
      destruct Hmax as [Hmax|Hmax]; [lia|].
      pose proof (str_join_take_mono joiner (skip_empty entries) (S k) j ltac:(lia)). lia.
    - intros Hjk.
      pose proof (str_join_take_mono joiner (skip_empty entries) j k Hjk). lia. }
  intros Hneg.
  assert (Hk0 : k = 0%nat).
  { destruct k as [|k]; [reflexivity|exfalso].
    destruct (skip_empty entries) as [|e rest] eqn:Hs; [cbn [length] in Hk; lia|].
    pose proof (skip_empty_head entries e rest Hs) as He.
    pose proof (str_join_take_mono joiner (e :: rest) 1 (S k) ltac:(lia)) as Hm.
    change (str_join joiner (take 1 (e :: rest))) with (str_join joiner (e :: take 0 rest)) in Hm.
    rewrite take_0 in Hm. change (str_join joiner [e]) with e in Hm. lia. }
  split; [exact Hk0|]. rewrite Hr, Hk0. reflexivity.
Qed.

Lemma join_longest_prefix_witness :
  exists k,
    join ["This"; "is"; "a"; "looooong"; "message"]%string " " (Some 17)
    = str_join " " (take k ["This"; "is"; "a"; "looooong"; "message"]%string)
    /\ k = 3%nat.
Proof.
  destruct (join_longest_prefix ["This"; "is"; "a"; "looooong"; "message"]%string " " 17)
    as (k & Hk & Hr & _ & _ & _ & Hiff & _).
  exists k. split; [exact Hr|].
  pose proof (proj1 (Hiff ltac:(lia) 4%nat ltac:(simpl; lia))) as H4.
  pose proof (proj1 (Hiff ltac:(lia) 3%nat ltac:(simpl; lia)) ltac:(vm_compute; discriminate))
    as H3.
  destruct (le_lt_dec 4 k) as [Hge|Hlt]; [|lia].
  exfalso.
  pose proof (proj2 (Hiff ltac:(lia) 4%nat ltac:(simpl; lia)) Hge) as Hbad.
  vm_compute in Hbad. apply Hbad. reflexivity.
Defined.

(** When everything fits, the result is the plain join of the entries
    from the first one that is not empty.  It is the result without a
    limit in three cases only: the joiner is empty, the first entry is
    not empty (or there is no entry), or the only entry is the empty one:
    [join(['', 'a'])] is [' a'] and [join(['', 'a'], size = 9)] is
    ['a']. *)
Theorem join_all_fit (entries : list string) (joiner : string) (size : Z) :
  PyStr.len (str_join joiner (skip_empty entries)) <= size ->
  join entries joiner (Some size) = str_join joiner (skip_empty entries)
  /\ (skip_empty entries = entries ->
      join entries joiner (Some size) = join entries joiner None)
  /\ (join entries joiner (Some size) = join entries joiner None
      <-> joiner = EmptyString \/ skip_empty entries = entries \/ entries = [EmptyString]).
Proof.
  intros Hfit.
  destruct (join_loop_prefix entries joiner size) as (k & Hk & Hr & Hmax).
  assert (Heq : join entries joiner (Some size) = str_join joiner (skip_empty entries)).
  { destruct Hmax as [->|Hmax]; [now rewrite Hr, firstn_all|].
    pose proof (str_join_take_len joiner (skip_empty entries) (S k)). lia. }
  split; [exact Heq|]. split; [intros Hs; rewrite Heq, Hs; reflexivity|].
  rewrite Heq. cbn [join]. rewrite <- str_join_skip_empty_iff.
  split; intros H; symmetry; exact H.
Qed.

Lemma join_all_fit_witness :
  join [""; "a"]%string " " (Some 9) = "a"%string
  /\ join [""; "a"]%string " " None = " a"%string
  /\ join [""]%string " " (Some 5) = join [""]%string " " None.
Proof.
  split; [|split; [reflexivity|]].
  - exact (proj1 (join_all_fit [""; "a"]%string " " 9 ltac:(vm_compute; discriminate))).
  - apply (proj2 (proj2 (join_all_fit [""]%string " " 5 ltac:(vm_compute; discriminate)))).
    right. right. reflexivity.
Defined.

(** The examples of the docstring. *)
Example join_examples :
  join ["This"; "is"; "a"; "looooong"; "message"]%string " " (Some 18) = "This is a looooong"%string
  /\ join ["This"; "is"; "a"; "looooong"; "message"]%string " " (Some 17) = "This is a"%string
  /\ join ["This"; "is"; "a"; "looooong"; "message"]%string " " (Some 2) = ""%string.
Proof. repeat split. Qed.

End JoinFacts.

Module CacheMoreFacts.
Import Cache Samples.

(** *** What the constructor leaves *)

(** Every cache the constructor builds reads as the current schema
    version.  It is in memory exactly when there is no usable location;
    it is either the store found at the location, kept as it is, or a new
    one with an empty table of relays, for which every lookup answers its
    default. *)
Theorem Cache_init_current (e : env) (c : Cache) :
  Cache_init e = Ok c ->
  select_version (_conn c) = Ok (PyInt SCHEMA_VERSION)
  /\ (_conn_location c = InMemory
      <-> cache_path e = None \/ cache_path e = Some EmptyString)
  /\ (forall path, _conn_location c = OnDisk path -> cache_path e = Some path)
  /\ (connect e = Ok (_conn c)
      \/ relays_of c = []
         /\ forall fingerprint d1 d2,
              relay_nickname fingerprint d1 c = Ok d1
              /\ relay_address fingerprint d2 c = Ok d2).
Proof.
  unfold Cache_init.
  assert (Hnew : forall loc,
    (let c := mkCache loc (Tables (Some [PyInt SCHEMA_VERSION]) (Some [])) in
     select_version (_conn c) = Ok (PyInt SCHEMA_VERSION)
     /\ (connect e = Ok (_conn c)
         \/ relays_of c = []
            /\ forall fingerprint d1 d2,
                 relay_nickname fingerprint d1 c = Ok d1
                 /\ relay_address fingerprint d2 c = Ok d2))).
  { intros loc. simpl. split; [reflexivity|]. right. split; [reflexivity|].
    intros fingerprint d1 d2. split; reflexivity. }
  destruct (cache_path e) as [path|] eqn:Hp.
  - destruct (PyStr.truthy path) eqn:Ht.
    + assert (Hloc : forall db,
        (_conn_location (mkCache (OnDisk path) db) = InMemory
         <-> Some path = None \/ Some path = Some EmptyString)
        /\ forall path', _conn_location (mkCache (OnDisk path) db) = OnDisk path' ->
             Some path = Some path').
      { intros db. simpl. split; [split|].
        - discriminate.
        - intros [?|[= ->]]; discriminate.
        - now intros path' [= ->]. }
      destruct (connect e) as [db|ex] eqn:Hc.
      * destruct (select_version db) as [v|ex] eqn:Hv.
        -- destruct (is_current v) eqn:Hcur.
           ++ intros [= <-]. destruct (Hloc db) as [H1 H2].
              split; [|split; [exact H1|split; [exact H2|now left]]].
              simpl. rewrite Hv. destruct v as [|n|s]; try discriminate.
              simpl in Hcur. apply Z.eqb_eq in Hcur. now subst.
           ++ destruct (os_remove e); [|discriminate].
              destruct (reconnect e); [|discriminate].
              try rewrite CacheFacts.execute_SCHEMA. intros [= <-].
              destruct (Hnew (OnDisk path)) as [H3 H4], (Hloc (Tables (Some [PyInt SCHEMA_VERSION]) (Some []))) as [H1 H2].
              auto.
        -- simpl. destruct (os_remove e); [|discriminate].
           destruct (reconnect e); [|discriminate].
           try rewrite CacheFacts.execute_SCHEMA. intros [= <-].
           destruct (Hnew (OnDisk path)) as [H3 H4], (Hloc (Tables (Some [PyInt SCHEMA_VERSION]) (Some []))) as [H1 H2].
           auto.
      * simpl. discriminate.
    + try rewrite CacheFacts.execute_SCHEMA. intros [= <-].
      destruct (Hnew InMemory) as [H3 H4].
      split; [exact H3|]. split; [|split; [discriminate|exact H4]].
      split; [|reflexivity]. intros _. right. f_equal.
      unfold PyStr.truthy in Ht. apply negb_false_iff in Ht. now apply String.eqb_eq in Ht.
  - try rewrite CacheFacts.execute_SCHEMA. intros [= <-].
    destruct (Hnew InMemory) as [H3 H4].
    split; [exact H3|]. split; [|split; [discriminate|exact H4]].
    split; [auto|reflexivity].
Qed.

Lemma Cache_init_current_witness :
  select_version (Tables (Some [PyInt 1]) None) = Ok (PyInt SCHEMA_VERSION).
Proof.
  exact (proj1 (Cache_init_current
                  (mkEnv (Some "/home/atagar/.nyx/cache.sqlite"%string)
                     (Ok (Tables (Some [PyInt 1]) None)) (Ok ()) (Ok ()))
                  (mkCache (OnDisk "/home/atagar/.nyx/cache.sqlite")
                     (Tables (Some [PyInt 1]) None))
                  eq_refl)).
Defined.

(** *** Lookups after a record *)

Section Lookups.
Context `{Stem}.

Lemma head_filter_other (fingerprint : string) (row : relay_row) (rows : list relay_row) :
  fingerprint <> r_fingerprint row ->
  filter (fun r => r_fingerprint r = fingerprint) (insert_or_replace row rows)
  = filter (fun r => r_fingerprint r = fingerprint) rows.
Proof.
  intros Hne. unfold insert_or_replace. rewrite filter_app, list_filter_filter.
  rewrite (filter_cons _ row). destruct (decide _); [congruence|].
  rewrite filter_nil, app_nil_r. apply list_filter_iff. intros r. split; [tauto|].
  intros Hr. split; [assumption|congruence].
Qed.

(** Whenever [record_relay] returns, the four values were valid, the
    address of the relay reads back as the pair recorded and its nickname
    as the name recorded, and the lookups of every other fingerprint
    answer what they answered before. *)
Theorem record_relay_then_lookups (fingerprint address : string) (or_port : Z)
    (nickname : string) (cache cache' : Cache) :
  record_relay fingerprint address or_port nickname cache = (cache', Ok ()) ->
  (is_valid_fingerprint fingerprint = true /\ is_valid_nickname nickname = true
   /\ is_valid_ipv4_address address || is_valid_ipv6_address address = true
   /\ is_valid_port or_port = true)
  /\ _conn_location cache' = _conn_location cache
  /\ (forall default, relay_address fingerprint default cache' = Ok (Some (address, or_port)))
  /\ (forall default, relay_nickname fingerprint default cache' = Ok (Some nickname))
  /\ (forall other, other <> fingerprint ->
        (forall default, relay_address other default cache' = relay_address other default cache)
        /\ (forall default,
              relay_nickname other default cache' = relay_nickname other default cache)).
Proof.
  unfold record_relay.
  destruct (is_valid_fingerprint fingerprint); [|discriminate].
  destruct (is_valid_nickname nickname); [|discriminate]. cbn [negb].
  destruct (is_valid_ipv4_address address || is_valid_ipv6_address address) eqn:Ha;
    [|rewrite <- negb_orb, Ha; discriminate].
  rewrite <- negb_orb, Ha. cbn [negb].
  destruct (is_valid_port or_port); [|discriminate]. cbn [negb].
  unfold _query_insert, execute.
  destruct cache as [loc [|schema [rows|]]]; cbn [_conn _conn_location]; try discriminate.
  intros [= <-]. split; [auto|]. split; [reflexivity|].
  unfold relay_address, relay_nickname, select_relay. cbn [_conn].
  split; [|split].
  - intros default.
    now rewrite (CacheFacts.filter_same_after_replace
                   (mkRow fingerprint address or_port nickname)).
  - intros default.
    now rewrite (CacheFacts.filter_same_after_replace
                   (mkRow fingerprint address or_port nickname)).
  - intros other Hne.
    rewrite (head_filter_other other (mkRow fingerprint address or_port nickname) rows)
      by assumption.
    split; reflexivity.
Qed.

End Lookups.

Lemma record_relay_then_lookups_witness :
  let cache' := (@record_relay sample_stem "A7569A83B5706AB1B1A9CB52EFF7D2D32E4553EB"
                   "10.0.0.1" 9001 "caerSidi" fresh_cache).1 in
  relay_address "A7569A83B5706AB1B1A9CB52EFF7D2D32E4553EB" None cache'
  = Ok (Some ("10.0.0.1"%string, 9001))
  /\ relay_address "0000000000000000000000000000000000000000" None cache' = Ok None.
Proof.
  intros cache'.
  destruct (@record_relay_then_lookups sample_stem
              "A7569A83B5706AB1B1A9CB52EFF7D2D32E4553EB" "10.0.0.1" 9001 "caerSidi"
              fresh_cache cache' eq_refl) as (_ & _ & Haddr & _ & Hother).
  split; [apply Haddr|].
  destruct (Hother "0000000000000000000000000000000000000000"%string ltac:(discriminate))
    as [Ho _].
  rewrite Ho. reflexivity.
Defined.

End CacheMoreFacts.

Module DrawLoopFacts.
Import Interface InterfaceViews DrawLoop InterfaceFacts VisibilityFacts ConstructorFacts.

(** *** [redraw] *)

Lemma redraw_from_calls (l : list nat) :
  forall occupied st,
    redraw_from occupied l st
    = (mkState (self st) (panels st) (next_id st)
         (calls st ++ imap (fun k panel =>
                              (panel, RedrawAt false (occupied + total_height st (take k l)))) l)
         (threads st), Ok ()).
Proof.
  induction l as [|p l IH]; intros occupied st.
  - simpl. unfold ret. rewrite app_nil_r. now destruct st.
  - cbn [redraw_from]. unfold bind at 1, call_panel at 1.
    rewrite (alter_id (apply_call (RedrawAt false occupied)) (panels st) p)
      by reflexivity.
    unfold bind at 1, get_height at 1. cbn [panels].
    rewrite IH. cbn [self panels next_id calls threads].
    rewrite <- app_assoc. do 3 f_equal.
    cbn [imap app take]. unfold total_height at 1. cbn [fmap list_fmap foldr].
    rewrite Z.add_0_r. f_equal.
    apply imap_ext. intros k q _. unfold compose. do 2 f_equal.
    cbn [take]. unfold total_height. cbn [fmap list_fmap foldr].
    unfold height_of. cbn [panels]. lia.
Qed.

(** [redraw] asks the header and the panels of the page to draw
    themselves, top to bottom, each at the row where the heights of the
    ones above it end; it changes no panel and nothing of the controller.
    On a page that does not exist it raises before any call. *)
Theorem redraw_stacks_panels (st : state) :
  redraw st
  = match py_index (_page_panels (self st)) (_page (self st)) with
    | Ok page =>
        let visible := _header_panel (self st) :: page in
        (mkState (self st) (panels st) (next_id st)
           (calls st ++ imap (fun k panel =>
                                (panel, RedrawAt false (total_height st (take k visible))))
                          visible)
           (threads st), Ok ())
    | Raise e => (st, Raise e)
    end.
Proof.
  unfold redraw. unfold bind at 1. rewrite page_panels_current.
  destruct (py_index (_page_panels (self st)) (_page (self st))) as [page|e];
    [|reflexivity].
  rewrite redraw_from_calls. cbv zeta. do 3 f_equal.
Qed.

(** *** [page_panels] *)

(** [page_panels(n)] indexes the pages as a Python list: a page number
    from [0] gives the header and that page, a negative one counts from
    the last page (where [set_page] raises), and beyond either end the
    call raises [IndexError]; nothing changes. *)
Theorem page_panels_index (n : Z) (st : state) :
  let pages := _page_panels (self st) in
  let count := Z.of_nat (length pages) in
  (forall page, 0 <= n -> pages !! Z.to_nat n = Some page ->
     page_panels (Some n) st = (st, Ok (_header_panel (self st) :: page)))
  /\ (forall page, n < 0 -> 0 <= n + count -> pages !! Z.to_nat (n + count) = Some page ->
        page_panels (Some n) st = (st, Ok (_header_panel (self st) :: page))
        /\ exists e, set_page n st = (st, Raise (ValueError e)))
  /\ (n < - count \/ count <= n -> page_panels (Some n) st = (st, Raise IndexError)).
Proof.
  intros pages count. subst pages count.
  unfold page_panels, bind, get_self, ret, raise, py_index. cbn [self].
  split; [|split].
  - intros page Hn Hp. destruct (Z.ltb_spec n 0); [lia|].
    destruct (Z.ltb_spec n 0); [lia|]. now rewrite Hp.
  - intros page Hn Hc Hp. split.
    + destruct (Z.ltb_spec n 0); [|lia].
      destruct (Z.ltb_spec (n + Z.of_nat (length (_page_panels (self st)))) 0); [lia|].
      now rewrite Hp.
    + eexists. apply set_page_invalid. lia.
  - intros Hn. destruct (Z.ltb_spec n 0).
    + destruct (Z.ltb_spec (n + Z.of_nat (length (_page_panels (self st)))) 0);
        [reflexivity|lia].
    + destruct (Z.ltb_spec n 0); [lia|].
      destruct (_ !! Z.to_nat n) eqn:Hl; [|reflexivity].
      apply lookup_lt_Some in Hl. lia.
Qed.

Lemma page_panels_index_witness :
  page_panels (Some (-1)) sample_state = (sample_state, Ok [0; 6]%nat)
  /\ page_panels (Some 5) sample_state = (sample_state, Raise IndexError).
Proof.
  destruct (page_panels_index (-1) sample_state) as (_ & Hneg & _).
  destruct (page_panels_index 5 sample_state) as (_ & _ & Hout).
  split.
  - apply (Hneg [6%nat]); [lia|vm_compute; discriminate|reflexivity].
  - apply Hout. right. vm_compute. discriminate.
Defined.

(** *** The keys of [draw_loop] *)

Lemma redraw_consistent (st : state) :
  visibility_consistent st ->
  exists st', redraw st = (st', Ok ()) /\ self st' = self st
              /\ panels st' = panels st /\ visibility_consistent st'.
Proof.
  intros Hinv. pose proof Hinv as [Hr _].
  pose proof (redraw_view st) as Hv. revert Hv.
  unfold redraw. unfold bind at 1 2. rewrite page_panels_current.
  destruct (py_index_in_range _ _ Hr) as (page & -> & _).
  rewrite redraw_from_calls. intros Hv.
  eexists. split; [reflexivity|]. split; [reflexivity|]. split; [reflexivity|].
  eapply visibility_consistent_same_view; [exact Hv|exact Hinv].
Qed.

Lemma set_page_in_range (page_number : Z) (st : state) :
  0 <= page_number < Z.of_nat (length (_page_panels (self st))) ->
  exists st', set_page page_number st = (st', Ok ())
              /\ _page (self st') = page_number
              /\ _page_panels (self st') = _page_panels (self st)
              /\ _paused (self st') = _paused (self st)
              /\ _quit (self st') = _quit (self st).
Proof.
  intros Hr. destruct (decide (page_number = _page (self st))) as [->|Hne].
  - exists st. rewrite set_page_same by assumption. auto.
  - destruct (py_index_in_range _ _ Hr) as (page & _ & Hpage).
    rewrite (set_page_change page_number st page Hr Hne Hpage).
    eexists. split; [reflexivity|]. auto.
Qed.

Lemma turn_page_ok (delta : Z) (st : state) :
  visibility_consistent st ->
  exists st', turn_page delta st = (st', Served)
              /\ _page (self st')
                 = (_page (self st) + delta) mod Z.of_nat (length (_page_panels (self st)))
              /\ _page_panels (self st') = _page_panels (self st)
              /\ _paused (self st') = _paused (self st)
              /\ _quit (self st') = _quit (self st)
              /\ visibility_consistent st'.
Proof.
  intros Hinv. pose proof Hinv as [Hr _].
  unfold turn_page, get_page, page_count, bind, get_self, ret. cbn [self].
  destruct (Z.eqb_spec (Z.of_nat (length (_page_panels (self st)))) 0); [lia|].
  set (target := (_page (self st) + delta) mod Z.of_nat (length (_page_panels (self st)))).
  assert (Ht : 0 <= target < Z.of_nat (length (_page_panels (self st))))
    by (apply Z.mod_pos_bound; lia).
  pose proof (set_page_consistent target st Hinv) as Hc.
  destruct (set_page_in_range target st Ht) as (st' & Hs & Hp & Hpp & Hpa & Hq).
  rewrite Hs in *. exists st'. simpl. auto 7.
Qed.

(** [redraw()] on a page in range: the calls, and nothing else. *)
Lemma redraw_in_range (st : state) :
  0 <= _page (self st) < Z.of_nat (length (_page_panels (self st))) ->
  redraw st
  = (mkState (self st) (panels st) (next_id st) (calls st ++ redraw_calls st) (threads st),
     Ok ()).
Proof.
  intros Hr. unfold redraw. unfold bind at 1. rewrite page_panels_current.
  unfold redraw_calls, active_page.
  destruct (py_index_in_range _ _ Hr) as (page & -> & _).
  rewrite redraw_from_calls. cbv zeta. do 3 f_equal.
Qed.

(** [set_page] to a page in range: the calls, the page, and nothing else
    of the controller. *)
Lemma set_page_calls (page_number : Z) (st : state) :
  0 <= page_number < Z.of_nat (length (_page_panels (self st))) ->
  exists st', set_page page_number st = (st', Ok ())
              /\ _page (self st') = page_number
              /\ _page_panels (self st') = _page_panels (self st)
              /\ calls st' = calls st ++ select_calls st page_number.
Proof.
  intros Hr. unfold select_calls.
  destruct (Z.eqb_spec page_number (_page (self st))) as [->|Hne].
  - exists st. rewrite set_page_same by assumption. now rewrite app_nil_r.
  - destruct (py_index_in_range _ _ Hr) as (page & _ & Hpage).
    rewrite (set_page_change page_number st page Hr Hne Hpage).
    eexists. split; [reflexivity|]. split; [reflexivity|]. split; [reflexivity|].
    cbn [calls]. rewrite Hpage. cbn [default]. rewrite <- app_assoc. reflexivity.
Qed.

(** A turn of [draw_loop] with an arrow key, on a controller whose page
    is in range: the calls of [redraw()], then those of [set_page]. *)
Lemma draw_turn_arrow (k : key) (delta : Z) (s : state) :
  (k = KeyRight /\ delta = 1) \/ (k = KeyLeft /\ delta = -1) ->
  visibility_consistent s ->
  let target := (_page (self s) + delta) mod Z.of_nat (length (_page_panels (self s))) in
  exists s', draw_turn k s = (s', Served)
    /\ _page (self s') = target
    /\ _page_panels (self s') = _page_panels (self s)
    /\ calls s' = calls s ++ redraw_calls s ++ select_calls s target
    /\ visibility_consistent s'.
Proof.
  intros Hk Hs target. pose proof Hs as [Hr _].
  assert (Ht : 0 <= target < Z.of_nat (length (_page_panels (self s))))
    by (apply Z.mod_pos_bound; lia).
  assert (Hturn : draw_turn k s
                  = turn_page delta
                      (mkState (self s) (panels s) (next_id s) (calls s ++ redraw_calls s)
                         (threads s))).
  { unfold draw_turn. rewrite (redraw_in_range s Hr).
    destruct Hk as [[-> ->]|[-> ->]]; reflexivity. }
  rewrite Hturn.
  set (s1 := mkState (self s) (panels s) (next_id s) (calls s ++ redraw_calls s) (threads s)).
  assert (Hs1 : visibility_consistent s1) by exact Hs.
  unfold turn_page, get_page, page_count, bind, get_self, ret. cbn [self s1].
  destruct (Z.eqb_spec (Z.of_nat (length (_page_panels (self s)))) 0); [lia|].
  fold target.
  pose proof (set_page_consistent target s1 Hs1) as Hc.
  destruct (set_page_calls target s1 Ht) as (s' & Hset & Hp & Hpp & Hcalls).
  change (mkState (self s) (panels s) (next_id s) (calls s ++ redraw_calls s) (threads s))
    with s1.
  rewrite Hset in *. exists s'. cbn [of_result fst] in *.
  split; [reflexivity|]. split; [exact Hp|]. split; [exact Hpp|].
  split; [|exact Hc].
  rewrite Hcalls. unfold s1. cbn [calls]. rewrite <- app_assoc. reflexivity.
Qed.

(** On a controller whose page is in range, as the constructor leaves
    it, the arrow keys never leave [draw_loop]: a turn calls [redraw()],
    which redraws the header and the panels of the page shown, and then
    [set_page] with the next or the previous page, around the ends, which
    redraws the header and tells every panel whether it is shown, unless
    the page is the one shown already; these are all the calls of the
    turn.  The page stays in range and the flags of the panels follow
    it; [left] undoes [right] and [right] undoes [left]. *)
Theorem draw_loop_arrows (st : state) :
  visibility_consistent st ->
  let count := Z.of_nat (length (_page_panels (self st))) in
  exists st_r st_rl st_l st_lr,
    draw_turn KeyRight st = (st_r, Served)
    /\ draw_turn KeyLeft st_r = (st_rl, Served)
    /\ draw_turn KeyLeft st = (st_l, Served)
    /\ draw_turn KeyRight st_l = (st_lr, Served)
    /\ _page (self st_r)
       = (if _page (self st) =? count - 1 then 0 else _page (self st) + 1)
    /\ _page (self st_l)
       = (if _page (self st) =? 0 then count - 1 else _page (self st) - 1)
    /\ _page (self st_rl) = _page (self st)
    /\ _page (self st_lr) = _page (self st)
    /\ visibility_consistent st_r /\ visibility_consistent st_l
    /\ visibility_consistent st_rl /\ visibility_consistent st_lr
    /\ calls st_r = calls st ++ redraw_calls st ++ select_calls st (_page (self st_r))
    /\ calls st_l = calls st ++ redraw_calls st ++ select_calls st (_page (self st_l))
    /\ calls st_rl = calls st_r ++ redraw_calls st_r ++ select_calls st_r (_page (self st))
    /\ calls st_lr = calls st_l ++ redraw_calls st_l ++ select_calls st_l (_page (self st)).
Proof.
  intros Hinv count. pose proof Hinv as [Hr _]. fold count in Hr.
  destruct (draw_turn_arrow KeyRight 1 st ltac:(now left) Hinv)
    as (st_r & Hr1 & Hp1 & Hpp1 & Hk1 & Hc1).
  destruct (draw_turn_arrow KeyLeft (-1) st_r ltac:(now right) Hc1)
    as (st_rl & Hr2 & Hp2 & Hpp2 & Hk2 & Hc2).
  destruct (draw_turn_arrow KeyLeft (-1) st ltac:(now right) Hinv)
    as (st_l & Hl1 & Hq1 & Hqq1 & Hm1 & Hd1).
  destruct (draw_turn_arrow KeyRight 1 st_l ltac:(now left) Hd1)
    as (st_lr & Hl2 & Hq2 & Hqq2 & Hm2 & Hd2).
  rewrite Hpp1 in Hp2, Hk2. rewrite Hqq1 in Hq2, Hm2.
  fold count in Hp1, Hp2, Hq1, Hq2, Hk1, Hk2, Hm1, Hm2.
  exists st_r, st_rl, st_l, st_lr.
  assert (E1 : (_page (self st) + 1) mod count
               = if _page (self st) =? count - 1 then 0 else _page (self st) + 1).
  { destruct (Z.eqb_spec (_page (self st)) (count - 1)) as [->|].
    - replace (count - 1 + 1) with count by lia. apply Z_mod_same_full.
    - apply Z.mod_small. lia. }
  assert (E2 : (_page (self st) + -1) mod count
               = if _page (self st) =? 0 then count - 1 else _page (self st) - 1).
  { destruct (Z.eqb_spec (_page (self st)) 0) as [->|].
    - replace (0 + -1) with (-1 * count + (count - 1)) by lia.
      rewrite Z.add_comm, Z_mod_plus_full. apply Z.mod_small. lia.
    - apply Z.mod_small. lia. }
  assert (E3 : (_page (self st_r) + -1) mod count = _page (self st)).
  { rewrite Hp1, E1.
    destruct (Z.eqb_spec (_page (self st)) (count - 1)) as [He|].
    - replace (0 + -1) with (-1 * count + (count - 1)) by lia.
      rewrite Z.add_comm, Z_mod_plus_full. rewrite Z.mod_small; lia.
    - rewrite Z.mod_small; lia. }
  assert (E4 : (_page (self st_l) + 1) mod count = _page (self st)).
  { rewrite Hq1, E2.
    destruct (Z.eqb_spec (_page (self st)) 0) as [He|].
    - replace (count - 1 + 1) with count by lia. rewrite Z_mod_same_full. lia.
    - rewrite Z.mod_small; lia. }
  rewrite E3 in Hp2, Hk2. rewrite E4 in Hq2, Hm2.
  rewrite <- Hp1 in Hk1. rewrite <- Hq1 in Hm1.
  rewrite E1 in Hp1. rewrite E2 in Hq1.
  repeat (split; [first [assumption|reflexivity]|]). assumption.
Qed.

Lemma draw_loop_arrows_witness :
  exists st_l, draw_turn KeyLeft sample_state = (st_l, Served) /\ _page (self st_l) = 4.
Proof.
  destruct (draw_loop_arrows sample_state)
    as (st_r & st_rl & st_l & st_lr & _ & _ & Hl & _ & _ & Hp & _).
  - pose proof (@Interface_init_outcome nyx_classes all_pages state0) as H.
    rewrite ControllerClaims.sample_state_built in H. tauto.
  - exists st_l. split; [exact Hl|]. rewrite Hp. reflexivity.
Defined.

(** The key [p] never leaves the loop on such a controller either: it
    flips the paused state, tells every panel of the controller the new
    state, and leaves the page and every visibility flag alone; pressed
    twice it leaves the paused state as it was. *)
Theorem draw_loop_pause_key (st : state) :
  visibility_consistent st ->
  exists st1 st2,
    draw_turn KeyP st = (st1, Served)
    /\ draw_turn KeyP st1 = (st2, Served)
    /\ is_paused st1 = (st1, Ok (negb (_paused (self st))))
    /\ is_paused st2 = (st2, Ok (_paused (self st)))
    /\ same_view st st1 /\ same_view st st2
    /\ (forall panel o, panel ∈ iter (self st) -> panels st1 !! panel = Some o ->
          p_paused o = negb (_paused (self st))).
Proof.
  assert (Hturn : forall s, visibility_consistent s ->
            exists s', draw_turn KeyP s = (s', Served)
              /\ _paused (self s') = negb (_paused (self s))
              /\ same_view s s' /\ visibility_consistent s'
              /\ (forall panel o, panel ∈ iter (self s) -> panels s' !! panel = Some o ->
                    p_paused o = negb (_paused (self s)))).
  { intros s Hs. unfold draw_turn.
    destruct (redraw_consistent s Hs) as (s1 & -> & Hself & Hpan & Hs1).
    cbn [handle_key]. unfold bind at 1, is_paused at 1, bind at 1, get_self at 1, ret at 1.
    pose proof (set_paused_view (negb (_paused (self s1))) s1) as Hv.
    assert (Hne : _paused (self s1) <> negb (_paused (self s1)))
      by now destruct (_paused (self s1)).
    rewrite (set_paused_change _ _ Hne) in *. cbv zeta in *.
    pose proof Hs1 as [Hr _].
    destruct (py_index_in_range _ _ Hr) as (page & Hpi & _).
    cbn [_page _page_panels] in *. rewrite Hpi in *.
    eexists. split; [reflexivity|]. cbn [self _paused fst] in *.
    rewrite Hself in *. split; [reflexivity|].
    assert (Hv' : same_view s (mkState
        (mkInterface (_page (self s)) (_page_panels (self s)) (_header_panel (self s))
           (negb (_paused (self s))) (_quit (self s)))
        (after_calls (fun _ => Redraw) (_header_panel (self s) :: page)
           (after_calls (fun _ => SetPaused (negb (_paused (self s))))
              (iter (mkInterface (_page (self s)) (_page_panels (self s))
                       (_header_panel (self s)) (negb (_paused (self s))) (_quit (self s))))
              (panels s1)))
        (next_id s1)
        ((calls s1 ++ map (fun p => (p, SetPaused (negb (_paused (self s)))))
            (iter (mkInterface (_page (self s)) (_page_panels (self s))
                     (_header_panel (self s)) (negb (_paused (self s))) (_quit (self s)))))
         ++ map (fun p => (p, Redraw)) (_header_panel (self s) :: page))
        (threads s1))).
    { destruct Hv as (H1 & H2 & H3 & H4). repeat split; try reflexivity.
      intros q. rewrite H4. unfold vis_of. now rewrite Hpan. }
    split; [exact Hv'|]. split; [eapply visibility_consistent_same_view; eassumption|].
    intros panel o Hin. cbn [panels].
    change (iter (mkInterface (_page (self s)) (_page_panels (self s))
                    (_header_panel (self s)) (negb (_paused (self s))) (_quit (self s))))
      with (iter (self s)).
    generalize (negb (_paused (self s))). intros b.
    assert (Hred : forall l m, after_calls (fun _ => Redraw) l m = m).
    { induction l as [|x l IHl]; intros m; [reflexivity|].
      rewrite after_calls_cons, IHl. now apply alter_id. }
    rewrite Hred.
    assert (Hp : forall l m, panel ∈ l ->
              after_calls (fun _ => SetPaused b) l m !! panel = Some o -> p_paused o = b).
    { induction l as [|x l IHl] using rev_ind; intros m Hl; [inversion Hl|].
      unfold after_calls. rewrite fold_left_app. cbn [fold_left].
      fold (after_calls (fun _ => SetPaused b) l m).
      rewrite lookup_alter. destruct (decide (x = panel)) as [->|Hx].
      - destruct (after_calls _ l m !! panel); [|discriminate]. now intros [= <-].
      - apply elem_of_app in Hl as [Hl|Hl]; [now apply IHl|].
        apply list_elem_of_singleton in Hl. congruence. }
    now apply Hp. }
  intros Hinv.
  destruct (Hturn st Hinv) as (st1 & Ht1 & Hp1 & Hv1 & Hc1 & Hall1).
  destruct (Hturn st1 Hc1) as (st2 & Ht2 & Hp2 & Hv2 & Hc2 & _).
  exists st1, st2. split; [exact Ht1|]. split; [exact Ht2|].
  unfold is_paused, bind, get_self, ret. rewrite Hp2, Hp1, negb_involutive.
  split; [reflexivity|]. split; [reflexivity|]. split; [exact Hv1|].
  split; [|exact Hall1].
  destruct Hv1 as (A1 & A2 & A3 & A4), Hv2 as (B1 & B2 & B3 & B4).
  repeat split; try congruence; intros q; now rewrite B4.
Qed.

Lemma draw_loop_pause_key_witness :
  exists st1, draw_turn KeyP sample_state = (st1, Served)
              /\ is_paused st1 = (st1, Ok true).
Proof.
  destruct (draw_loop_pause_key sample_state) as (st1 & st2 & H1 & _ & Hp & _).
  - pose proof (@Interface_init_outcome nyx_classes all_pages state0) as H.
    rewrite ControllerClaims.sample_state_built in H. tauto.
  - exists st1. split; [exact H1|exact Hp].
Defined.

End DrawLoopFacts.

Module ConstructorMoreFacts.
Import Interface InterfaceViews DrawLoop InterfaceFacts VisibilityFacts ConstructorFacts.

Section Classes.
Context `{PanelClasses}.

Lemma class_after_calls (f : nat -> pcall) (l : list nat) (m : gmap nat panel_obj) (q : nat) :
  p_class <$> after_calls f l m !! q = p_class <$> m !! q.
Proof.
  revert m; induction l as [|p l IH]; intros m; [reflexivity|].
  rewrite after_calls_cons, IH, lookup_alter.
  destruct (decide (p = q)) as [->|]; [|reflexivity].
  destruct (m !! q) as [o|]; [|reflexivity]. now destruct (f q).
Qed.

Lemma is_daemon_class (st st' : state) (q : nat) :
  class_of st' q = class_of st q -> is_daemon st' q = is_daemon st q.
Proof.
  unfold class_of, is_daemon.
  destruct (panels st' !! q), (panels st !! q); simpl; congruence.
Qed.

Lemma shown_and_started_class (st st' : state) (visible l : list nat) :
  (forall q, class_of st' q = class_of st q) ->
  shown_and_started st' visible l = shown_and_started st visible l.
Proof.
  intros Hc. unfold shown_and_started. induction l as [|p l IH]; [reflexivity|].
  cbn [map concat]. rewrite (is_daemon_class st st') by apply Hc.
  f_equal. exact IH.
Qed.

Lemma for_each_show_start_calls (visible l : list nat) :
  forall st,
    for_each l
      (fun panel =>
         call_panel panel (SetVisible (bool_decide (panel ∈ visible))) ;;
         start_if_daemon panel) st
    = (mkState (self st)
         (after_calls (fun p => SetVisible (bool_decide (p ∈ visible))) l (panels st))
         (next_id st) (calls st ++ shown_and_started st visible l) (threads st), Ok ()).
Proof.
  induction l as [|p l IH]; intros st.
  - simpl. unfold ret, shown_and_started. simpl. rewrite app_nil_r. now destruct st.
  - cbn [for_each]. unfold bind at 1. unfold bind at 1. unfold call_panel at 1.
    unfold start_if_daemon at 1.
    set (st1 := mkState (self st)
                  (alter (apply_call (SetVisible (bool_decide (p ∈ visible)))) p (panels st))
                  (next_id st)
                  (calls st ++ [(p, SetVisible (bool_decide (p ∈ visible)))]) (threads st)).
    assert (Hc : forall q, class_of st1 q = class_of st q).
    { intros q. unfold class_of, st1. cbn [panels]. rewrite lookup_alter.
      destruct (decide (p = q)) as [->|]; [|reflexivity].
      now destruct (panels st !! q). }
    rewrite (is_daemon_class st st1 p (Hc p)).
    unfold shown_and_started. cbn [map concat].
    fold (shown_and_started st visible l).
    destruct (is_daemon st p).
    + unfold call_panel at 1. rewrite IH. cbn [self panels next_id calls threads].
      rewrite (alter_id (apply_call Start)) by reflexivity.
      rewrite (shown_and_started_class st) by (intros q; exact (Hc q)).
      subst st1. cbn [self panels next_id calls threads].
      rewrite after_calls_cons, <- !app_assoc. reflexivity.
    + rewrite IH. cbn [self panels next_id calls threads].
      rewrite (shown_and_started_class st) by (intros q; exact (Hc q)).
      subst st1. cbn [self panels next_id calls threads].
      rewrite after_calls_cons, <- !app_assoc. reflexivity.
Qed.

Lemma show_and_start_calls (st : state) :
  show_and_start st
  = match py_index (_page_panels (self st)) (_page (self st)) with
    | Ok page =>
        let visible := _header_panel (self st) :: page in
        (mkState (self st)
           (after_calls (fun p => SetVisible (bool_decide (p ∈ visible))) (iter (self st))
              (panels st))
           (next_id st) (calls st ++ shown_and_started st visible (iter (self st)))
           (threads st), Ok ())
    | Raise e => (st, Raise e)
    end.
Proof.
  unfold show_and_start. unfold bind at 1. rewrite page_panels_current.
  destruct (py_index (_page_panels (self st)) (_page (self st))) as [page|e];
    [|reflexivity].
  unfold bind at 1, get_self at 1. cbn [self]. apply for_each_show_start_calls.
Qed.

End Classes.

Lemma py_index_0 {A} (x : A) (l : list A) : py_index (x :: l) 0 = Ok x.
Proof. reflexivity. Qed.

Ltac solve_classes :=
  unfold class_of, iter; cbn [self panels _header_panel _page_panels concat app fmap list_fmap];
  repeat (apply (f_equal2 (@cons _));
          [repeat (rewrite lookup_insert_ne by lia); rewrite lookup_insert_eq; reflexivity|]);
  reflexivity.

(** The first part of the constructor always returns; it makes the
    header and the panels of the enabled classes, and the pages. *)
Lemma build_pages_builds (CONFIG : config) (st : state) :
  exists s, build_pages CONFIG st = (s, Ok ())
    /\ class_of s <$> iter (self s) = Some <$> (HeaderPanel :: enabled_classes CONFIG)
    /\ length (_page_panels (self s)) = enabled_pages CONFIG
    /\ Forall (fun page => page <> []) (_page_panels (self s))
    /\ length (concat (_page_panels (self s))) = length (enabled_classes CONFIG)
    /\ calls s = calls st
    /\ _page (self s) = 0 /\ _paused (self s) = false /\ _quit (self s) = false.
Proof.
  destruct CONFIG as [[] [] [] [] [] []];
    unfold build_pages, new_panel_if, bind, new_panel, put_self, ret, with_self;
    cbn -[insert];
    (eexists; split; [reflexivity|]);
    (split; [solve_classes|]);
    (split; [reflexivity|]);
    (split; [repeat constructor; discriminate|]);
    repeat split.
Qed.

(** What [Interface.__init__] builds when it returns: the header and one
    panel of each class that [CONFIG] enables, in the order graph, log,
    connections, configuration, torrc, interpreter; one page for each
    enabled group, the graph and the log sharing the first, and no page
    without a panel; every panel was told, in that order, whether it is
    the header or on the first page, and right after that it was started
    when it is a daemon, and not otherwise; the controller is neither
    paused nor quitting. *)
Theorem Interface_init_builds `{PanelClasses} (CONFIG : config) (st st' : state) :
  Interface_init CONFIG st = (st', Ok ()) ->
  class_of st' <$> iter (self st') = Some <$> (HeaderPanel :: enabled_classes CONFIG)
  /\ length (_page_panels (self st')) = enabled_pages CONFIG
  /\ Forall (fun page => page <> []) (_page_panels (self st'))
  /\ length (concat (_page_panels (self st'))) = length (enabled_classes CONFIG)
  /\ calls st'
     = calls st ++ shown_and_started st'
                     (_header_panel (self st') :: active_page (self st')) (iter (self st'))
  /\ _paused (self st') = false /\ _quit (self st') = false.
Proof.
  unfold Interface_init. unfold bind at 1.
  destruct (build_pages_builds CONFIG st)
    as (s & -> & Hcl & Hlen & Hne & Hcat & Hcalls & Hpage & Hpa & Hq).
  rewrite show_and_start_calls. unfold active_page.
  destruct (py_index (_page_panels (self s)) (_page (self s))) as [page|e] eqn:Hpi;
    [|discriminate].
  cbv zeta. intros Heq. apply (f_equal fst) in Heq. cbn [fst] in Heq. subst st'.
  cbn [self calls]. rewrite Hpi.
  assert (Hc : forall q,
    class_of (mkState (self s)
                (after_calls (fun p => SetVisible (bool_decide (p ∈ _header_panel (self s) :: page)))
                   (iter (self s)) (panels s))
                (next_id s)
                (calls s ++ shown_and_started s (_header_panel (self s) :: page) (iter (self s)))
                (threads s)) q
    = class_of s q).
  { intros q. unfold class_of. cbn [panels]. apply class_after_calls. }
  split; [rewrite <- Hcl; apply list_fmap_ext; intros _ q _; apply Hc|].
  repeat (split; [assumption|]).
  split; [|split; assumption].
  rewrite Hcalls. f_equal. symmetry. apply shown_and_started_class. exact Hc.
Qed.

Lemma Interface_init_builds_witness :
  class_of sample_state <$> iter (self sample_state)
  = Some <$> [HeaderPanel; GraphPanel; LogPanel; ConnectionPanel; ConfigPanel; TorrcPanel;
              InterpreterPanel]
  /\ length (_page_panels (self sample_state)) = 5%nat.
Proof.
  destruct (@Interface_init_builds nyx_classes all_pages state0 sample_state
              ControllerClaims.sample_state_built) as (Hc & Hp & _).
  split; [exact Hc|exact Hp].
Defined.

End ConstructorMoreFacts.

Module ArgumentsFacts.
Import Arguments PyStrFacts.

(** *** Strings as lists of flags *)

Lemma chars_app (s1 s2 : string) : chars (s1 +:+ s2) = chars s1 ++ chars s2.
Proof.
  unfold chars. induction s1 as [|c s1 IH]; [reflexivity|].
  rewrite app_String. cbn [list_ascii_of_string fmap list_fmap app]. f_equal. exact IH.
Qed.

Lemma chars_one_char (s : string) :
  Forall (fun flag => exists c, flag = String c EmptyString) (chars s).
Proof.
  unfold chars. induction s as [|c s IH]; [constructor|].
  cbn [list_ascii_of_string fmap list_fmap]. constructor; [now exists c|exact IH].
Qed.

Lemma chars_snoc (s : string) (c : ascii) :
  chars (s +:+ String c EmptyString) = chars s ++ [String c EmptyString].
Proof. now rewrite chars_app. Qed.

Lemma truthy_chars (s : string) : PyStr.truthy s = true <-> chars s <> [].
Proof.
  destruct s as [|c s]; unfold chars; cbn; split; intros Hs; congruence.
Qed.

Lemma Returns_inj {A} (a b : A) : Returns a = Returns b -> a = b.
Proof. now intros [= ->]. Qed.

Section Log.
Variables TOR_RUNLEVELS NYX_RUNLEVELS : list string.

(** One turn of the loop on a flag that is neither [A] nor [X]: no
    variable is read before it is assigned, and the flag adds what it
    stands for, or is set apart as invalid. *)
Lemma expand_loop_step (c : ascii) (rest : list string) (expanded : gset string)
    (invalid : string) :
  String c EmptyString <> "A"%string -> String c EmptyString <> "X"%string ->
  expand_loop TOR_RUNLEVELS NYX_RUNLEVELS (String c EmptyString :: rest) expanded invalid
  = match flag_events TOR_RUNLEVELS NYX_RUNLEVELS (String c EmptyString) with
    | Some events =>
        expand_loop TOR_RUNLEVELS NYX_RUNLEVELS rest (expanded ∪ list_to_set events) invalid
    | None =>
        expand_loop TOR_RUNLEVELS NYX_RUNLEVELS rest expanded
          (invalid +:+ String c EmptyString)
    end.
Proof.
  intros HA HX. cbn [Arguments.expand_loop].
  destruct (decide (String c "" = "A"%string)); [contradiction|].
  destruct (decide (String c "" = "X"%string)); [contradiction|].
  destruct c as [[] [] [] [] [] [] [] []];
    try (exfalso; apply HA; reflexivity); try (exfalso; apply HX; reflexivity);
    cbn; rewrite ?(right_id_L ∅ (∪)); reflexivity.
Qed.

(** The loop on flags without [A] and [X], from any point of the run. *)
Lemma expand_loop_plain (flags : list string) :
  Forall (fun flag => exists c, flag = String c EmptyString) flags ->
  Forall (fun flag => flag <> "A"%string /\ flag <> "X"%string) flags ->
  forall expanded invalid,
    expand_loop TOR_RUNLEVELS NYX_RUNLEVELS flags expanded invalid
    = let bad := chars invalid
                 ++ filter (fun flag => flag_events TOR_RUNLEVELS NYX_RUNLEVELS flag = None)
                      flags in
      if decide (bad = []) then
        Returns (expanded
                 ∪ list_to_set (concat (omap (flag_events TOR_RUNLEVELS NYX_RUNLEVELS) flags)))
      else ValueError_joining (list_to_set bad).
Proof.
  induction flags as [|flag flags IH]; intros H1 HAX expanded invalid.
  - cbn [Arguments.expand_loop filter list_filter omap list_omap concat list_to_set].
    cbv zeta. rewrite app_nil_r, (right_id_L ∅ (∪)).
    destruct (PyStr.truthy invalid) eqn:Ht.
    + apply truthy_chars in Ht. now rewrite decide_False.
    + rewrite decide_True; [reflexivity|].
      destruct (chars invalid) eqn:Hc; [reflexivity|].
      assert (PyStr.truthy invalid = true) by (apply truthy_chars; congruence). congruence.
  - apply Forall_cons in H1 as [[c ->] H1]. apply Forall_cons in HAX as [[HA HX] HAX].
    rewrite expand_loop_step by assumption.
    rewrite filter_cons. cbn [omap list_omap]. cbv beta.
    destruct (flag_events TOR_RUNLEVELS NYX_RUNLEVELS (String c "")) as [events|] eqn:Hf.
    + rewrite IH by assumption. cbv zeta.
      rewrite (decide_False (P := Some events = None)) by discriminate.
      cbn [concat].
      destruct (decide _); [|reflexivity].
      f_equal. rewrite (list_to_set_app_L events). exact (eq_sym (assoc_L (∪) _ _ _)).
    + rewrite IH by assumption. cbv zeta.
      rewrite (decide_True (P := @None (list string) = None)) by reflexivity.
      rewrite chars_snoc, <- app_assoc. reflexivity.
Qed.

(** Without [A] and [X] among the flags, [expand_events] returns the
    events that the flags stand for when each flag stands for something,
    and otherwise raises [ValueError] on the flags that stand for
    nothing; it never reads a variable that no branch assigned. *)
Theorem expand_events_plain (flags : string) :
  Forall (fun flag => flag <> "A"%string /\ flag <> "X"%string) (chars flags) ->
  expand_events TOR_RUNLEVELS NYX_RUNLEVELS flags
  = let bad := filter (fun flag => flag_events TOR_RUNLEVELS NYX_RUNLEVELS flag = None)
                 (chars flags) in
    if decide (bad = []) then
      Returns (list_to_set
                 (concat (omap (flag_events TOR_RUNLEVELS NYX_RUNLEVELS) (chars flags))))
    else ValueError_joining (list_to_set bad).
Proof.
  intros HAX. unfold expand_events.
  rewrite (expand_loop_plain _ (chars_one_char flags) HAX). cbv zeta.
  cbn [chars list_ascii_of_string fmap list_fmap app].
  now rewrite (left_id_L ∅ (∪)).
Qed.

Lemma expand_loop_A (rest : list string) (expanded : gset string) (invalid : string) :
  expand_loop TOR_RUNLEVELS NYX_RUNLEVELS ("A"%string :: rest) expanded invalid
  = Returns (list_to_set (dict_keys TOR_EVENT_TYPES ++ NYX_RUNLEVELS ++ ["UNKNOWN"%string])).
Proof. reflexivity. Qed.

Lemma expand_loop_X (rest : list string) (expanded : gset string) (invalid : string) :
  expand_loop TOR_RUNLEVELS NYX_RUNLEVELS ("X"%string :: rest) expanded invalid = Returns ∅.
Proof. reflexivity. Qed.

Lemma expand_loop_first (flags rest : list string) :
  Forall (fun flag => exists c, flag = String c EmptyString) flags ->
  Forall (fun flag => flag <> "A"%string /\ flag <> "X"%string) flags ->
  forall expanded invalid,
    expand_loop TOR_RUNLEVELS NYX_RUNLEVELS (flags ++ "X"%string :: rest) expanded invalid
    = Returns ∅
    /\ expand_loop TOR_RUNLEVELS NYX_RUNLEVELS (flags ++ "A"%string :: rest) expanded invalid
       = Returns (list_to_set
                    (dict_keys TOR_EVENT_TYPES ++ NYX_RUNLEVELS ++ ["UNKNOWN"%string])).
Proof.
  induction flags as [|flag flags IH]; intros H1 HAX expanded invalid.
  - split; [apply expand_loop_X|apply expand_loop_A].
  - apply Forall_cons in H1 as [[c ->] H1]. apply Forall_cons in HAX as [[HA HX] HAX].
    cbn [app]. rewrite !expand_loop_step by assumption.
    destruct (flag_events TOR_RUNLEVELS NYX_RUNLEVELS (String c "")); now apply IH.
Qed.

(** The first [A] or [X] decides: whatever comes before it, valid or not,
    and whatever comes after it, [X] gives no event at all and [A] gives
    the flags of [TOR_EVENT_TYPES] (its keys, not the event types), the
    runlevels of nyx and [UNKNOWN]. *)
Theorem expand_events_first_A_or_X (before after : string) :
  Forall (fun flag => flag <> "A"%string /\ flag <> "X"%string) (chars before) ->
  expand_events TOR_RUNLEVELS NYX_RUNLEVELS (before +:+ "X" +:+ after) = Returns ∅
  /\ expand_events TOR_RUNLEVELS NYX_RUNLEVELS (before +:+ "A" +:+ after)
     = Returns (list_to_set (dict_keys TOR_EVENT_TYPES ++ NYX_RUNLEVELS ++ ["UNKNOWN"%string])).
Proof.
  intros HAX. unfold expand_events. rewrite !chars_app.
  apply (expand_loop_first (chars before) (chars after) (chars_one_char before) HAX).
Qed.

(** Where [STATUS_SERVER] is no runlevel, no set that [expand_events]
    returns holds it: its flag [I] is taken as the runlevel [INFO] before
    [TOR_EVENT_TYPES] is looked at, and [A] gives the flags of the table,
    not its event types. *)
Lemma expand_events_without_STATUS_SERVER (flags : string) (events : gset string) :
  "STATUS_SERVER"%string ∉ TOR_RUNLEVELS -> "STATUS_SERVER"%string ∉ NYX_RUNLEVELS ->
  expand_events TOR_RUNLEVELS NYX_RUNLEVELS flags = Returns events ->
  "STATUS_SERVER"%string ∉ events.
Proof.
  intros HT HN. unfold expand_events. pose proof (chars_one_char flags) as H1.
  assert (Hgen : forall expanded invalid,
    "STATUS_SERVER"%string ∉ expanded ->
    expand_loop TOR_RUNLEVELS NYX_RUNLEVELS (chars flags) expanded invalid = Returns events ->
    "STATUS_SERVER"%string ∉ events).
  { induction (chars flags) as [|flag rest IH]; intros expanded invalid Hexp.
    - cbn [Arguments.expand_loop]. destruct (PyStr.truthy invalid); [discriminate|].
      now intros ->%Returns_inj.
    - apply Forall_cons in H1 as [[c ->] H1].
      destruct (decide (String c "" = "A"%string)) as [HA|HA].
      { rewrite HA, expand_loop_A. intros Heq%Returns_inj. subst events.
        rewrite elem_of_list_to_set, !elem_of_app.
        intros [Hin|[Hin|Hin]]; [|contradiction|].
        - revert Hin. vm_compute. intros Hin.
          repeat (apply elem_of_cons in Hin as [Hin|Hin]; [discriminate Hin|]).
          inversion Hin.
        - apply list_elem_of_singleton in Hin. discriminate Hin. }
      destruct (decide (String c "" = "X"%string)) as [HX|HX].
      { rewrite HX, expand_loop_X. intros Heq%Returns_inj. subst events.
        apply not_elem_of_empty. }
      rewrite expand_loop_step by assumption.
      destruct (flag_events TOR_RUNLEVELS NYX_RUNLEVELS (String c "")) as [evs|] eqn:Hf;
        [|now apply IH].
      apply IH; [assumption|].
      intros [Hin|Hin]%elem_of_union; [now apply Hexp|].
      apply elem_of_list_to_set in Hin. clear IH H1 Hexp HA HX.
      destruct c as [[] [] [] [] [] [] [] []]; cbn in Hf; try discriminate Hf;
        apply (inj Some) in Hf; subst evs;
        try (apply list_elem_of_singleton in Hin; discriminate Hin);
        first [apply HT; first [exact Hin|eapply subseteq_drop; exact Hin]
              |apply HN; first [exact Hin|eapply subseteq_drop; exact Hin]]. }
  apply Hgen. apply not_elem_of_empty.
Qed.

(** *** [validate_events] *)

Lemma validate_fold (valid : gset string) (pieces : list string) :
  forall accepted invalid : gset string,
    fold_left
      (fun (acc : gset string * gset string) event =>
         if bool_decide (event ∈ valid)
         then (acc.1 ∪ {[event]}, acc.2)
         else (acc.1, acc.2 ∪ {[event]}))
      pieces (accepted, invalid)
    = (accepted ∪ list_to_set (filter (fun e => e ∈ valid) pieces),
       invalid ∪ list_to_set (filter (fun e => e ∉ valid) pieces)).
Proof.
  induction pieces as [|e pieces IH]; intros accepted invalid.
  - cbn. now rewrite !(right_id_L ∅ (∪)).
  - cbn [fold_left]. rewrite !filter_cons. destruct (decide (e ∈ valid)) as [He|He].
    + rewrite bool_decide_eq_true_2 by assumption. rewrite IH. cbn [fst snd].
      rewrite decide_False by tauto. cbn [list_to_set]. f_equal.
      exact (eq_sym (assoc_L (∪) _ _ _)).
    + rewrite bool_decide_eq_false_2 by assumption. rewrite IH. cbn [fst snd].
      rewrite decide_True by tauto. cbn [list_to_set]. f_equal.
      exact (eq_sym (assoc_L (∪) _ _ _)).
Qed.

Lemma split_nonempty (sep : ascii) (s : string) : split sep s <> [].
Proof.
  destruct s as [|c s]; [discriminate|]. cbn [split].
  destruct (Ascii.eqb c sep); [discriminate|]. now destruct (split sep s).
Qed.

(** [validate_events] cuts its argument at the commas.  When every piece
    is an event type of [TOR_EVENT_TYPES] or a runlevel of nyx it returns
    the set of the pieces, which is never empty; otherwise it raises
    [ValueError] on the pieces that are neither (the empty piece of an
    empty argument or of a doubled comma is one, unless it is a
    runlevel). *)
Theorem validate_events_pieces (events : string) :
  let pieces := split "," events in
  let known := fun e => e ∈ dict_values TOR_EVENT_TYPES \/ e ∈ NYX_RUNLEVELS in
  match validate_events NYX_RUNLEVELS events with
  | Returns accepted =>
      Forall known pieces /\ accepted = list_to_set pieces /\ accepted <> ∅
  | ValueError_joining invalid =>
      invalid <> ∅ /\ forall e, e ∈ invalid <-> e ∈ pieces /\ ~ known e
  | UnboundLocalError => False
  end.
Proof.
  intros pieces known. unfold validate_events. rewrite validate_fold. fold pieces.
  set (valid := list_to_set (dict_values TOR_EVENT_TYPES ++ NYX_RUNLEVELS) : gset string).
  assert (Hk : forall e, e ∈ valid <-> known e).
  { intros e. unfold valid, known. rewrite elem_of_list_to_set, elem_of_app. tauto. }
  rewrite !(left_id_L ∅ (∪)).
  destruct (bool_decide_reflect
              ((list_to_set (filter (fun e => e ∉ valid) pieces) : gset string) ≠ ∅))
    as [Hne|He].
  - split; [exact Hne|].
    intros e. rewrite elem_of_list_to_set, list_elem_of_filter, Hk. tauto.
  - assert (Hall : Forall known pieces).
    { apply Forall_forall. intros e Hin. apply Hk.
      destruct (decide (e ∈ valid)) as [|Hn]; [assumption|].
      exfalso. apply He. intros Hempty.
      assert (Hi : e ∈ (list_to_set (filter (fun e => e ∉ valid) pieces) : gset string))
        by (apply elem_of_list_to_set, list_elem_of_filter; tauto).
      rewrite Hempty in Hi. now apply not_elem_of_empty in Hi. }
    split; [exact Hall|].
    assert (Hf : filter (fun e => e ∈ valid) pieces = pieces).
    { clear He. induction pieces as [|e l IH]; [reflexivity|].
      apply Forall_cons in Hall as [He Hall]. rewrite filter_cons.
      rewrite decide_True by now apply Hk. f_equal. now apply IH. }
    rewrite Hf. split; [reflexivity|].
    pose proof (split_nonempty "," events) as Hn. fold pieces in Hn.
    destruct pieces as [|e l]; [congruence|]. cbn [list_to_set]. intros Hempty.
    apply (not_elem_of_empty (C := gset string) e). rewrite <- Hempty.
    apply elem_of_union_l. now apply elem_of_singleton.
Qed.

Lemma validate_events_one (event : string) :
  split "," event = [event] ->
  event ∈ dict_values TOR_EVENT_TYPES \/ event ∈ NYX_RUNLEVELS ->
  validate_events NYX_RUNLEVELS event = Returns {[event]}.
Proof.
  intros Hs Hk. unfold validate_events. rewrite validate_fold, Hs.
  rewrite !filter_cons, !filter_nil.
  assert (Hin : event ∈ (list_to_set (dict_values TOR_EVENT_TYPES ++ NYX_RUNLEVELS)
                         : gset string))
    by (rewrite elem_of_list_to_set, elem_of_app; exact Hk).
  set (valid := list_to_set (dict_values TOR_EVENT_TYPES ++ NYX_RUNLEVELS) : gset string) in *.
  rewrite (decide_True (P := event ∈ valid)) by exact Hin.
  rewrite (decide_False (P := event ∉ valid)) by tauto.
  cbn [list_to_set]. rewrite !(left_id_L ∅ (∪)), !(right_id_L ∅ (∪)).
  now rewrite bool_decide_eq_false_2 by tauto.
Qed.

(** [STATUS_SERVER] is an event type that nyx knows: [validate_events]
    accepts it and [missing_event_types] never reports it.  Still, where
    it is no runlevel, no flags make [expand_events] return it. *)
Theorem STATUS_SERVER_has_no_flag (flags : string) (events : gset string)
    (response : option string) :
  "STATUS_SERVER"%string ∉ TOR_RUNLEVELS -> "STATUS_SERVER"%string ∉ NYX_RUNLEVELS ->
  (validate_events NYX_RUNLEVELS "STATUS_SERVER" = Returns {["STATUS_SERVER"%string]})
  /\ ("STATUS_SERVER"%string ∉ missing_event_types response)
  /\ dict_item "I" TOR_EVENT_TYPES = Some "STATUS_SERVER"%string
  /\ (expand_events TOR_RUNLEVELS NYX_RUNLEVELS flags = Returns events ->
      "STATUS_SERVER"%string ∉ events).
Proof.
  intros HT HN.
  assert (Hv : "STATUS_SERVER"%string ∈ dict_values TOR_EVENT_TYPES)
    by (vm_compute; repeat constructor).
  split; [apply validate_events_one; [reflexivity|now left]|].
  split.
  { destruct response as [r|]; [|apply not_elem_of_nil].
    unfold missing_event_types. rewrite list_elem_of_filter. tauto. }
  split; [reflexivity|].
  now apply expand_events_without_STATUS_SERVER.
Qed.

End Log.

Lemma expand_events_plain_witness :
  expand_events sample_TOR_RUNLEVELS sample_NYX_RUNLEVELS "N4"
  = Returns (list_to_set ["NOTICE"; "WARN"; "ERR"; "NYX_WARNING"; "NYX_ERROR"]%string)
  /\ expand_events sample_TOR_RUNLEVELS sample_NYX_RUNLEVELS "n?b!"
     = ValueError_joining (list_to_set ["?"; "!"]%string).
Proof.
  split.
  - rewrite (expand_events_plain sample_TOR_RUNLEVELS sample_NYX_RUNLEVELS "N4")
      by (repeat constructor; discriminate).
    vm_compute. reflexivity.
  - rewrite (expand_events_plain sample_TOR_RUNLEVELS sample_NYX_RUNLEVELS "n?b!")
      by (repeat constructor; discriminate).
    vm_compute. reflexivity.
Defined.

Lemma expand_events_first_A_or_X_witness :
  expand_events sample_TOR_RUNLEVELS sample_NYX_RUNLEVELS "c?fXn" = Returns ∅.
Proof.
  apply (proj1 (expand_events_first_A_or_X sample_TOR_RUNLEVELS sample_NYX_RUNLEVELS
                  "c?f" "n" ltac:(repeat constructor; discriminate))).
Defined.

Lemma STATUS_SERVER_has_no_flag_witness :
  "STATUS_SERVER"%string
  ∉ (list_to_set ["INFO"; "NOTICE"; "WARN"; "ERR"; "STATUS_CLIENT"]%string : gset string).
Proof.
  refine (proj2 (proj2 (proj2
            (STATUS_SERVER_has_no_flag sample_TOR_RUNLEVELS sample_NYX_RUNLEVELS "IG" _ None
               _ _))) _).
  - vm_compute. intros Hin.
    repeat (apply elem_of_cons in Hin as [Hin|Hin]; [discriminate Hin|]). inversion Hin.
  - vm_compute. intros Hin.
    repeat (apply elem_of_cons in Hin as [Hin|Hin]; [discriminate Hin|]). inversion Hin.
  - vm_compute. reflexivity.
Defined.

(** The second and third example of the docstring of [expand_events],
    with [NYX_WARNING] and [NYX_ERROR] for the names it prints. *)
Example expand_events_examples :
  expand_events sample_TOR_RUNLEVELS sample_NYX_RUNLEVELS "N4"
  = Returns (list_to_set ["NOTICE"; "WARN"; "ERR"; "NYX_WARNING"; "NYX_ERROR"]%string)
  /\ expand_events sample_TOR_RUNLEVELS sample_NYX_RUNLEVELS "cfX" = Returns ∅.
Proof. split; vm_compute; reflexivity. Qed.

End ArgumentsFacts.
